(* ===== verification/_CoqProject ===== *)
-Q . S2P
Prelude.v
Loops.v
PyStr.v
Structure.v
Certification.v
Nlp.v
Grammar.v
Keywords.v
Normalizer.v
Similarity.v
Evaluator.v
Format.v
App.v
Session.v
