(* ===== verification/Prelude.v ===== *)
(** * ATS resume checker: a verification development for [src/app.py]

    ** The program

    [src/app.py] is a single-file Streamlit application that scores a resume
    against a job description.  Its functions, leaf first:

    - [extract_text_from_pdf] (l.11-24): bytes of an upload to plain text, or
      the empty string after reporting an error;
    - [preprocess_text] (l.26-29): lowercases, tags with spaCy and keeps the
      lemmas of the alphabetic non-stopword tokens, joined by single spaces;
    - [calculate_similarity_tfidf] (l.31-35): TF-IDF vectors of two texts and
      100 times their cosine;
    - [extract_keywords] (l.37-39): surface forms of the alphabetic
      non-stopword tokens tagged NOUN, PROPN, VERB or ADJ;
    - [suggest_improvements] (l.41-55): at most five job keywords missing
      from the resume, between a header and a closing line;
    - [analyze_resume_structure] (l.57-87): points for each of six section
      names found in the lowercased text, two feedback lines for each one
      that is missing;
    - [analyze_certifications] (l.89-96): 10 points when the lowercased text
      mentions a certification, a four-line block otherwise;
    - [analyze_grammar] (l.98-109): 10 points, or 5 and up to three quoted
      sentences when a sentence has more than 40 tokens;
    - [ats_resume_checker] (l.111-135): runs the above in a fixed order, adds
      the three sub-scores and concatenates the four feedback lists;
    - the script body (l.137-160): the widgets and what is written back.

    ** The development

    Every file is a component; a file requires this prelude and the
    components its code calls.

    - [Prelude] (this file): the scope [ats_scope] and its notations, the
      tactics and the hint databases of the development, Python exceptions
      as values ([exn], [result]) with the test of an [except Exception]
      clause ([is_Exception]), and the lemmas on strings and lists that
      several components share.
    - [Loops]: the [for] statement as a step relation ([for_step]) and as
      a fold ([for_loop]); every loop of the program is an instance.
    - [PyStr]: the [str] built-ins the program calls on its texts
      ([lower], [capitalize], the operator [in] as [contains], [join]),
      modelled on [string] with their algebra: [lower] is idempotent and
      distributes over concatenation, [contains] decides the existence of
      an occurrence and is monotone in the text.
    - [Structure]: the section catalogue and [analyze_resume_structure] as a
      fold over the catalogue in its insertion order, the score as a sum
      over the sections present, the feedback as the blocks of the sections
      missing, bounds, monotonicity and case insensitivity.
    - [Certification]: [analyze_certifications] and its two outcomes.
    - [Nlp]: the interface of the language model ([Class NLP]): a document
      is a list of tokens carrying the attributes the program reads;
      sentences are the spans that start at the tokens flagged as sentence
      starts.  [NLPLaws], [LemmaLaws] and [WordLaws] state what theorems
      assume of a pipeline.  Two instances for concrete runs.
    - [Grammar]: [analyze_grammar], its loop over the sentences as a fold.
    - [Keywords]: [extract_keywords] and [suggest_improvements] over finite
      sets of strings ([gset string]); the order in which a set is
      enumerated is the interface [SetOrder].
    - [Normalizer]: [preprocess_text], its round trip and the texts on
      which it is idempotent.
    - [Similarity]: [calculate_similarity_tfidf].  The source only calls
      scikit-learn, so the file models [TfidfVectorizer] with its default
      parameters ([sk_tokenize], [vocabulary], [idf], [tfidf],
      [normalize]) and [cosine_similarity] from their documented
      behaviour, over the real numbers.
    - [Evaluator]: [ats_resume_checker], composed of the components above
      in the order of the code; the abstract score [breakdown] with its
      well-formedness [breakdown_ok].
    - [Format]: the format specification [.2f] of l.148 ([format_2f]):
      rounding to the nearest hundredth, halfway cases to the even one
      ([round_half_even]), and the digits ([fixed2]); [read_2f] reads the
      notation back.
    - [App]: [extract_text_from_pdf] and the script, in the monad [ui] of
      the elements shown and the exception that ends a run; the PDF library
      is the interface [PDF], the statement [try ... except Exception] is
      [try_except], the decision table of the script is [case_of] with
      [outcome].
    - [Session]: the script under Streamlit's reruns, as a transition
      system: the state is what the widgets hold and the page the last run
      left, a step ([step]) is an interaction followed by a run of [app].

    ** What the theorems show

    - Each analyzer is equal to a reference definition that does not loop
      ([analyze_resume_structure_spec], [analyze_grammar_spec],
      [analyze_certifications_spec], [suggest_improvements_shape]): the
      score is a sum over the sections present, the feedback a filter.
    - Bounds: the structure score is at most 100, the grammar feedback has
      at most four lines, the suggestions at most seven, the feedback of a
      run at most 27 and a page at most 34 elements, in every reachable
      state of a session ([app_shown_length], [session_page_length]); the
      similarity is between 0 and 100.  [worst_resume_run] and
      [worst_run_shown] reach 27 and 34.
    - Algebra of the scores: monotone in the text (structure,
      certifications), so that text added to a resume costs the five
      points of a first long sentence or nothing
      ([ats_resume_checker_extend]); a section name added to a resume
      brings the points of every section gained, which are those of the
      name exactly when nothing else is gained
      ([structure_add_section_exact]); the final score is 120 or 5
      exactly for the resumes that have everything or nothing
      ([final_score_extremes]); symmetric,
      blind to the order of the terms and to the repetition of a text
      ([calculate_similarity_tfidf_repeat]), 0 exactly on texts without
      a common term and 100 exactly on texts whose terms are in
      proportion (similarity); the same two ends for the matching score
      of a whole run, read on the lemmas that the normalizer keeps
      ([Evaluator.terms]).
    - Idempotence of the normalizer, for language models that analyse
      words one by one ([WordLaws], a law on [nlp] alone, which
      [lexicon_nlp] satisfies): the normal form of a text is normalized
      to itself exactly when the kept lemmas are no stop words and their
      own lemmas ([preprocess_text_idempotent]); [preprocess_text_twice]
      is a text on which it is not.
    - Loops: the [for] statement is deterministic, has no infinite run
      and stops in the state of the fold ([Loops]).  For the loop over
      the pages, whose body can raise, [read_pages_run] gives the state
      after each number of steps: the pages read and their texts in
      order, the exit with the whole text, or the exception of the first
      page that cannot be read.  For the loops that cannot raise
      [pure_loop_steps] gives the exact number of steps.
    - Equivalence with the textbook: the similarity is 100 times the dot
      product of the two rows of weights over the product of their
      norms, although the library normalizes the rows twice
      ([calculate_similarity_tfidf_cosine]).
    - Equivalences: the functions that read a text through [lower] are
      [Proper] for [caseless], equality up to case; the similarity is
      [Proper] for [same_terms], equality of bags of terms.  A run is
      invariant under a change of case of the job description, and of the
      resume as far as the grammar analysis is
      ([ats_resume_checker_case]).
    - Errors: the similarity raises exactly when both texts have no term,
      and [ats_resume_checker] fails exactly then.
      [extract_text_from_pdf] handles every exception of the PDF library
      that derives from [Exception] and passes the others on
      ([extract_text_from_pdf_spec]); a run of the script ends with an
      exception in these two cases only ([app_raises]).  With a
      lemmatizer whose lemmas are words ([LemmaLaws]) the terms of a
      normalized text are the kept lemmas of two characters or more, so
      the checker fails exactly when the two texts have no such lemma.
    - Formatting: what [.2f] writes reads back as the value rounded to
      hundredths, at most 0.005 from the value ([format_2f_read]); the
      matching score on the page is a number from 0.00 to 100.00, and it
      is 0.00 or 100.00 for every similarity within 0.005 of these
      ([app_matching_score]); [near_run_shown] is a run that shows
      100.00% for a resume with a word that the job description lacks,
      and [far_run_shown] one that shows 0.00% for texts with a word in
      common.
    - Refinement: a successful run returns the final score of a
      well-formed breakdown, a multiple of 5 between 5 and 120, which
      depends on the resume only ([ats_resume_checker_refines]); the script
      implements its decision table ([app_eq]) and writes a score only
      after a text was extracted.  The closing message of the script is
      shown exactly when the feedback is empty, that is when the final
      score is 120 and no keyword is missing ([app_matches_well]): no line
      of feedback can be taken for it, since the lines start with other
      characters ([starts_in], [feedback_heads]).
    - Sessions: the reachable states are exactly the runs of the script
      on what the widgets hold ([reachable_iff]), so no score of an
      earlier upload stays on the page ([session_page_fresh]); every
      interaction is possible in every reachable state, also after a run
      that ended with an exception, and three interactions lead to the
      report ([report_reachable]).  End to end, a resume that says what
      the job description says is shown the matching score 100.00%
      ([session_same_text]).
    - The scenarios of the specification, as theorems for every language
      model (a resume equal to the job description, an empty resume) and
      as concrete runs with the executable language models of [Nlp]
      (final scores 55, 25, 20, 5 and 120).  [lexicon_nlp] is proved to keep the
      laws of tokenization ([lexicon_nlp_laws]).

    ** Modelling choices and bounds

    - A Python [str] is a [string] of 8-bit characters.  The model is exact
      for ASCII text; [lower] and [capitalize] change the 26 letters only,
      so a text with code points above 127 is outside the model.
    - Python integers are unbounded; scores are [nat] (they never go below
      zero) and no width is involved.
    - The language model, the PDF reader and the vectorizer are libraries
      the program calls.  The language model is a parameter of the
      components that use it; the theorems hold for every instance.
    - A dictionary is iterated in insertion order: the catalogue is an
      association list.  A set is iterated in an order the language leaves
      open: the theorems about [suggest_improvements] hold for every
      enumeration of the set of missing keywords.
    - The similarity is a real number: floating-point rounding is not
      modelled, so [calculate_similarity_tfidf_self] gives exactly 100
      where the program gives 100 up to rounding.  The format [.2f] is
      the format of that real number: the digits are exact, by the
      rounding rule the language documents.  The floor of a real number
      is not computable, so [format_2f] is evaluated by its lemmas
      ([format_2f_exact], [format_2f_0]) and not by [vm_compute].
    - An exception is a value: a function that can raise returns a
      [result], and the script returns the elements it has shown with the
      exception that ended it.  An exception carries the name of its
      class; the five classes of the language outside [Exception]
      ([base_exceptions]) are the ones a clause [except Exception] lets
      pass, and every other class is taken to derive from [Exception].
    - No fuel is used anywhere: every function is structurally recursive
      on a string or a list, so every definition is total and evaluates by
      [vm_compute] (the similarity apart, which is a real number).  The
      step relation of [Loops] needs no bound either: the number of
      elements that remain is its measure.
    - A session is what Streamlit documents of its execution model: the
      script runs again after each interaction, the widgets keep their
      values between runs, the button is true in the run its click starts,
      and the page after a run shows what that run has shown.  Reading an
      upload gives the same bytes in every run: the read position of the
      uploaded file is not part of the state.

    ** Not modelled

    The statistical model of spaCy (the theorems hold for every tokenizer
    and tagger, and the concrete runs use the instances [char_nlp] and
    [lexicon_nlp] of [Nlp]); the parsing of PDF files by pymupdf; the
    rendering of the page by Streamlit, its caches and its session state
    other than the values of the three widgets; floating-point rounding;
    texts outside ASCII; the limits of the libraries on the size of their
    input (the language model is a total function of the text, where spaCy
    refuses a text longer than its [max_length]); tracebacks, chained
    exceptions and the classes a library derives from [BaseException]. *)

From Stdlib Require Import Ascii String.
From stdpp Require Import base tactics option list strings.

(** ** Scope and notations *)

Declare Scope ats_scope.
Delimit Scope ats_scope with ats.

(** ** Python exceptions as values

    A call that raises returns [Raise e]; the exception carries the name of
    its class and the message [str(e)] gives. *)

Record exn : Type := Exn { exn_type : string; exn_msg : string }.

(** The classes of the language that derive from [BaseException] and not
    from [Exception].  Every other class is taken to derive from
    [Exception], as the language asks of the classes a program or a
    library defines. *)
Definition base_exceptions : list string :=
  ["BaseException"; "BaseExceptionGroup"; "GeneratorExit"; "KeyboardInterrupt";
   "SystemExit"].

(** [isinstance(e, Exception)]: what a clause [except Exception] tests. *)
Definition is_Exception (e : exn) : bool :=
  bool_decide (exn_type e ∉ base_exceptions).

Inductive result (A : Type) : Type :=
| Ok (a : A)
| Raise (e : exn).

Arguments Ok {A} a.
Arguments Raise {A} e.

Definition result_bind {A B : Type} (f : A → result B) (r : result A) : result B :=
  match r with
  | Ok a => f a
  | Raise e => Raise e
  end.

Definition result_map {A B : Type} (f : A → B) (r : result A) : result B :=
  match r with
  | Ok a => Ok (f a)
  | Raise e => Raise e
  end.

#[export] Instance exn_eq_dec : EqDecision exn.
Proof. solve_decision. Defined.

#[export] Instance result_eq_dec {A : Type} `{EqDecision A} : EqDecision (result A).
Proof. solve_decision. Defined.

#[export] Instance result_ret : MRet result := @Ok.
#[export] Instance result_mbind : MBind result := @result_bind.
#[export] Instance result_fmap : FMap result := @result_map.

(** ** Strings as sequences of characters *)

Fixpoint string_map (f : ascii → ascii) (s : string) : string :=
  match s with
  | EmptyString => EmptyString
  | String c s' => String (f c) (string_map f s')
  end.

Fixpoint string_forallb (p : ascii → bool) (s : string) : bool :=
  match s with
  | EmptyString => true
  | String c s' => p c && string_forallb p s'
  end.

(** [t] occurs in [s]: some prefix and suffix surround it. *)
Definition occurs_in (t s : string) : Prop :=
  ∃ a b : string, s = a +:+ t +:+ b.

Notation "t ≼ s" := (occurs_in t s) (at level 70) : ats_scope.
Global Open Scope ats_scope.

(** The first character of [s] is one of [cs]. *)
Definition starts_in (cs : list ascii) (s : string) : Prop :=
  match s with
  | EmptyString => False
  | String c _ => c ∈ cs
  end.

#[export] Instance starts_in_dec (cs : list ascii) (s : string) :
  Decision (starts_in cs s).
Proof. destruct s; cbn; apply _. Defined.

(** ** Tactics *)

(** Case analysis on the eight bits of a character. *)
Ltac ascii_cases c := destruct c as [[] [] [] [] [] [] [] []].

(** [String.append] does not unfold under [simpl]: its two equations are
    applied by conversion, in the goal, until nothing changes. *)
Ltac string_simpl :=
  repeat progress
    (simpl;
     change (String.append EmptyString ?t) with t;
     repeat match goal with
     | |- context [String.append (String ?c ?u) ?t] =>
         change (String.append (String c u) t) with (String c (String.append u t))
     end).

(** Induction on a string, with the step simplified. *)
Ltac string_ind s := induction s as [|? s ?]; string_simpl.

(** Close a decidable closed goal by running its decision procedure. *)
Ltac by_compute :=
  apply (bool_decide_unpack _); vm_compute; exact I.

Create HintDb ats discriminated.
Create Rewrite HintDb ats_rw.

(** ** Lemmas on strings *)

Lemma string_forallb_map (p : ascii → bool) (f : ascii → ascii) (s : string) :
  (∀ c, p (f c) = p c) → string_forallb p (string_map f s) = string_forallb p s.
Proof. intros Hp. induction s as [|c s IH]; [done|]. simpl. by rewrite Hp, IH. Qed.

Lemma string_forallb_impl (p q : ascii → bool) (s : string) :
  (∀ c, p c = true → q c = true) →
  string_forallb p s = true → string_forallb q s = true.
Proof.
  intros Hpq. induction s as [|c s IH]; [done|]. simpl.
  rewrite !andb_true_iff. intros [Hc Hs]. auto.
Qed.

Lemma string_app_nil_l (s : string) : "" +:+ s = s.
Proof. reflexivity. Qed.

Lemma string_app_cons (c : ascii) (s t : string) :
  String c s +:+ t = String c (s +:+ t).
Proof. reflexivity. Qed.

Lemma string_app_nil_r (s : string) : s +:+ "" = s.
Proof. string_ind s; [done|]. by f_equal. Qed.

Lemma string_app_assoc (s t u : string) : (s +:+ t) +:+ u = s +:+ (t +:+ u).
Proof. string_ind s; [done|]. by f_equal. Qed.

Lemma string_length_app (s t : string) :
  String.length (s +:+ t) = String.length s + String.length t.
Proof. string_ind s; [done|]. by f_equal. Qed.

Lemma string_app_eq_nil (s t : string) : s +:+ t = "" → s = "" ∧ t = "".
Proof. destruct s; intros H; [split; [done | exact H] | discriminate H]. Qed.

Lemma string_map_app (f : ascii → ascii) (s t : string) :
  string_map f (s +:+ t) = string_map f s +:+ string_map f t.
Proof. string_ind s; [done|]. by f_equal. Qed.

Lemma string_map_length (f : ascii → ascii) (s : string) :
  String.length (string_map f s) = String.length s.
Proof. string_ind s; [done|]. by f_equal. Qed.

Lemma string_map_idemp (f : ascii → ascii) (s : string) :
  (∀ c, f (f c) = f c) → string_map f (string_map f s) = string_map f s.
Proof. intros Hf. string_ind s; [done|]. by rewrite Hf; f_equal. Qed.

Lemma string_map_ext (f g : ascii → ascii) (s : string) :
  (∀ c, f c = g c) → string_map f s = string_map g s.
Proof. intros Hfg. string_ind s; [done|]. by rewrite Hfg; f_equal. Qed.

Lemma string_map_compose (f g : ascii → ascii) (s : string) :
  string_map f (string_map g s) = string_map (f ∘ g) s.
Proof. string_ind s; [done|]. by f_equal. Qed.

Lemma string_map_fixed (f : ascii → ascii) (s : string) :
  string_forallb (λ c, bool_decide (f c = c)) s = true → string_map f s = s.
Proof.
  string_ind s; [done|]. intros [Hc Hs]%andb_true_iff.
  apply bool_decide_eq_true in Hc. rewrite Hc. f_equal. auto.
Qed.

(** ** Occurrences *)

Lemma occurs_in_refl (s : string) : s ≼ s.
Proof. exists "", "". by rewrite string_app_nil_r. Qed.

Lemma occurs_in_nil (s : string) : "" ≼ s.
Proof. by exists "", s. Qed.

Lemma occurs_in_app (t s a b : string) :
  t ≼ s → t ≼ a +:+ s +:+ b.
Proof.
  intros (a' & b' & ->). exists (a +:+ a'), (b' +:+ b).
  by rewrite !string_app_assoc.
Qed.

Lemma occurs_in_app_l (t s b : string) : t ≼ s → t ≼ s +:+ b.
Proof. intros H. by apply (occurs_in_app t s "" b) in H. Qed.

Lemma occurs_in_app_r (t s a : string) : t ≼ s → t ≼ a +:+ s.
Proof.
  intros H. apply (occurs_in_app t s a "") in H. by rewrite string_app_nil_r in H.
Qed.

Lemma occurs_in_trans (t s u : string) :
  t ≼ s → s ≼ u → t ≼ u.
Proof. intros Hts (a & b & ->). by apply occurs_in_app. Qed.

Lemma occurs_in_length (t s : string) :
  t ≼ s → String.length t ≤ String.length s.
Proof. intros (a & b & ->). rewrite !string_length_app. lia. Qed.

Lemma occurs_in_map (f : ascii → ascii) (t s : string) :
  t ≼ s → string_map f t ≼ string_map f s.
Proof.
  intros (a & b & ->). exists (string_map f a), (string_map f b).
  by rewrite !string_map_app.
Qed.

#[export] Instance occurs_in_preorder : PreOrder occurs_in.
Proof. split; [exact occurs_in_refl | intros t s u; apply occurs_in_trans]. Qed.

(** ** First characters *)

Lemma starts_in_app (cs : list ascii) (s t : string) :
  starts_in cs s → starts_in cs (s +:+ t).
Proof. by destruct s. Qed.

Lemma starts_in_mono (cs cs' : list ascii) (s : string) :
  cs ⊆ cs' → starts_in cs s → starts_in cs' s.
Proof. intros Hcs. destruct s; [done|]. apply Hcs. Qed.

Lemma Forall_starts_in_mono (cs cs' : list ascii) (l : list string) :
  cs ⊆ cs' → Forall (starts_in cs) l → Forall (starts_in cs') l.
Proof.
  intros Hcs Hl. eapply Forall_impl; [done|]. intros s. by apply starts_in_mono.
Qed.

(** Texts that start with different characters are different. *)
Lemma starts_in_neq (cs cs' : list ascii) (s t : string) :
  starts_in cs s → starts_in cs' t → (∀ c, c ∈ cs → c ∉ cs') → s ≠ t.
Proof. intros Hs Ht Hcs ->. destruct t; [done|]. by eapply Hcs. Qed.

(** ** Lemmas on lists *)

Lemma sum_list_cons (x : nat) (l : list nat) : sum_list (x :: l) = x + sum_list l.
Proof. reflexivity. Qed.

Lemma sum_list_app (l k : list nat) : sum_list (l ++ k) = sum_list l + sum_list k.
Proof.
  induction l as [|x l IH]; [done|].
  rewrite <- app_comm_cons, !sum_list_cons, IH. lia.
Qed.

Lemma sum_list_fmap_le {A : Type} (f g : A → nat) (l : list A) :
  (∀ x, x ∈ l → f x ≤ g x) → sum_list (f <$> l) ≤ sum_list (g <$> l).
Proof.
  induction l as [|x l IH]; intros Hfg; [done|].
  rewrite !fmap_cons, !sum_list_cons.
  pose proof (Hfg x (list_elem_of_here x l)).
  pose proof (IH (λ y Hy, Hfg y (list_elem_of_further y x l Hy))). lia.
Qed.

Lemma elem_of_take {A : Type} (n : nat) (l : list A) (x : A) :
  x ∈ take n l → x ∈ l.
Proof. intros H. by eapply (subseteq_take n l). Qed.

Lemma NoDup_take {A : Type} (n : nat) (l : list A) : NoDup l → NoDup (take n l).
Proof.
  intros H. rewrite <- (take_drop n l) in H. by apply NoDup_app in H as [? _].
Qed.

(** A loop that appends [f x] for the elements that pass a test builds the
    image of the filtered list. *)
Lemma foldl_snoc_if {A B : Type} (test : A → bool) (f : A → B)
    (P : A → Prop) `{!∀ x, Decision (P x)} (l : list A) (acc : list B) :
  (∀ x, test x = true ↔ P x) →
  foldl (λ acc x, if test x then acc ++ [f x] else acc) acc l
  = acc ++ (f <$> filter P l).
Proof.
  intros Htest. revert acc.
  induction l as [|x l IH]; intros acc; [by rewrite app_nil_r|].
  cbn [foldl]. rewrite IH, filter_cons.
  destruct (test x) eqn:Hx.
  - rewrite decide_True by by apply Htest. by rewrite fmap_cons, <- app_assoc.
  - rewrite decide_False; [done|]. rewrite <- Htest. congruence.
Qed.

(** A loop with two accumulators, a sum and a list: each element adds
    [n x] and appends [f x]. *)
Lemma foldl_sum_app {A B : Type} (step : nat * list B → A → nat * list B)
    (n : A → nat) (f : A → list B) (l : list A) (acc : nat * list B) :
  (∀ acc x, step acc x = (acc.1 + n x, acc.2 ++ f x)) →
  foldl step acc l = (acc.1 + sum_list (n <$> l), acc.2 ++ mjoin (f <$> l)).
Proof.
  intros Hstep. revert acc.
  induction l as [|x l IH]; intros [k fb]; cbn [foldl fst snd].
  - by rewrite Nat.add_0_r, app_nil_r.
  - rewrite Hstep, IH. cbn. by rewrite Nat.add_assoc, <- app_assoc.
Qed.

(** A loop that appends [f x] for every element builds the image of the
    list. *)
Lemma foldl_snoc {A B : Type} (f : A → B) (l : list A) (acc : list B) :
  foldl (λ acc x, acc ++ [f x]) acc l = acc ++ (f <$> l).
Proof.
  revert acc. induction l as [|x l IH]; intros acc; [by rewrite app_nil_r|].
  cbn [foldl]. by rewrite IH, fmap_cons, <- app_assoc.
Qed.

Lemma fmap_nil_iff {A B : Type} (f : A → B) (l : list A) : f <$> l = [] ↔ l = [].
Proof. by destruct l. Qed.

Lemma filter_nil_iff {A : Type} (P : A → Prop) `{!∀ x, Decision (P x)} (l : list A) :
  filter P l = [] ↔ Forall (λ x, ¬ P x) l.
Proof.
  induction l as [|x l IH]; [by split|].
  rewrite filter_cons, Forall_cons. case_decide; [|by rewrite IH; tauto].
  split; [done | tauto].
Qed.

(** Mapping [g], filtering and mapping [f] back gives the list again
    exactly when nothing is filtered out and [f] undoes [g] on every
    element. *)
Lemma fmap_filter_fmap_id {A B : Type} (f : B → A) (g : A → B) (P : B → Prop)
    `{∀ y, Decision (P y)} (l : list A) :
  f <$> filter P (g <$> l) = l ↔ Forall (λ x, P (g x) ∧ f (g x) = x) l.
Proof.
  induction l as [|x l IH]; [done|].
  rewrite fmap_cons, filter_cons, Forall_cons, <- IH. case_decide.
  - rewrite fmap_cons. split; [by intros [= ? ?] | by intros [[_ ->] ->]].
  - split; [intros Heq | tauto]. apply (f_equal length) in Heq.
    rewrite length_fmap, length_cons in Heq.
    pose proof (length_filter P (g <$> l)) as Hle. rewrite length_fmap in Hle. lia.
Qed.

(** ** The laws of the exception monad *)

Lemma result_left_id {A B : Type} (a : A) (f : A → result B) : mret a ≫= f = f a.
Proof. reflexivity. Qed.

Lemma result_right_id {A : Type} (r : result A) : r ≫= mret = r.
Proof. by destruct r. Qed.

Lemma result_assoc {A B C : Type} (r : result A) (f : A → result B)
    (g : B → result C) :
  (r ≫= f) ≫= g = r ≫= λ a, f a ≫= g.
Proof. by destruct r. Qed.

(** The first exception ends the computation. *)
Lemma result_bind_raise {A B : Type} (f : A → result B) (r : result A) (e : exn) :
  r ≫= f = Raise e ↔ r = Raise e ∨ ∃ a, r = Ok a ∧ f a = Raise e.
Proof.
  destruct r as [a|e']; cbn; split.
  - eauto.
  - intros [H|(a' & H & ?)]; congruence.
  - intros [= ->]. by left.
  - intros [H|(a' & H & ?)]; congruence.
Qed.

(** A list is mapped without exception when its head and its tail are. *)
Lemma mapM_result_cons {A B : Type} (f : A → result B) (x : A) (l : list A)
    (ys : list B) :
  mapM f (x :: l) = Ok ys ↔ ∃ y ys', f x = Ok y ∧ mapM f l = Ok ys' ∧ ys = y :: ys'.
Proof.
  cbn [mapM]. destruct (f x) as [y|e]; cbn; [|split; [done | by intros (? & ? & ? & _)]].
  destruct (mapM f l) as [ys'|e]; cbn; [|split; [done | by intros (? & ? & _ & ? & _)]].
  split; [intros [= <-]; by eauto | by intros (? & ? & [= <-] & [= <-] & ->)].
Qed.

#[export] Hint Resolve occurs_in_refl occurs_in_nil occurs_in_app occurs_in_app_l
  occurs_in_app_r : ats.
#[export] Hint Rewrite string_app_nil_r string_app_assoc string_length_app
  string_map_app string_map_length sum_list_app : ats_rw.

(** Solves a goal about occurrences or lengths of strings: the strings are
    put in normal form with the rewrite rules of [ats_rw] (the components
    add the rules of their operations), then the lemmas of [ats] apply. *)
Ltac occurs := autorewrite with ats_rw; eauto with ats.
