(* ===== verification/Loops.v ===== *)
(** * Loops: the [for] statement, step by step

    Every loop of [src/app.py] is a [for] statement over a finite
    collection: the pages of a document (l.17), the section catalogue
    (l.69), the sentences (l.102), the keywords (l.51) and the feedback
    (l.153).  The components model such a loop as a fold, [for_loop] when
    the body can raise and [foldl] when it cannot.

    This file justifies the fold.  [for_step] is the statement as the
    interpreter runs it: the iterator yields the next element and the body
    runs on it, or the iterator is exhausted and the loop is left, or the
    body raises and the exception leaves the loop.  The machine is
    deterministic, every step lowers the number of elements that remain, so
    no run is infinite, and its only final state from [Iterating l s] is
    the one the fold computes, reached in at most [length l + 1] steps. *)

From Stdlib Require Import String.
From stdpp Require Import base tactics option list relations.
From S2P Require Import Prelude.

Module Loops.

Section for_loop.
Context {A St : Type}.

(** The state of a loop: iterating with the elements that remain and the
    variables of the body, left normally, or left by an exception. *)
Inductive config : Type :=
| Iterating (rest : list A) (s : St)
| Finished (s : St)
| Raised (e : exn).

Context (body : St → A → result St).

(** One step of the statement. *)
Inductive for_step : relation config :=
| for_next x rest s s' :
    body s x = Ok s' → for_step (Iterating (x :: rest) s) (Iterating rest s')
| for_raise x rest s e :
    body s x = Raise e → for_step (Iterating (x :: rest) s) (Raised e)
| for_stop s : for_step (Iterating [] s) (Finished s).

(** The loop as a fold: the body runs on each element in turn as long as
    nothing was raised. *)
Definition for_loop (l : list A) (s : St) : result St :=
  foldl (λ acc x, s ← acc; body s x) (Ok s) l.

(** The state in which a loop with a given result is left. *)
Definition final (r : result St) : config :=
  match r with Ok s => Finished s | Raise e => Raised e end.

(** The steps that a state can still take, at most. *)
Definition remaining (c : config) : nat :=
  match c with Iterating rest _ => S (length rest) | _ => 0 end.

(** ** The fold *)

Lemma for_loop_raised (l : list A) (e : exn) :
  foldl (λ acc x, s ← acc; body s x) (Raise e) l = Raise e.
Proof. induction l as [|x l IH]; [done | exact IH]. Qed.

Lemma for_loop_cons (x : A) (l : list A) (s : St) :
  for_loop (x :: l) s = body s x ≫= for_loop l.
Proof.
  unfold for_loop. cbn [foldl]. change (Ok s ≫= λ s, body s x) with (body s x).
  destruct (body s x) as [s'|e]; [done | apply for_loop_raised].
Qed.

Lemma for_loop_app (l k : list A) (s : St) :
  for_loop (l ++ k) s = for_loop l s ≫= for_loop k.
Proof.
  revert s. induction l as [|x l IH]; intros s; [done|].
  rewrite <- app_comm_cons, !for_loop_cons.
  destruct (body s x) as [s'|e]; [apply IH | done].
Qed.

(** ** The machine *)

Lemma for_step_deterministic : deterministic for_step.
Proof. intros c c1 c2 H1 H2. destruct H1; inversion H2; congruence. Qed.

Lemma for_step_remaining (c c' : config) :
  for_step c c' → remaining c' < remaining c.
Proof. destruct 1; simpl; lia. Qed.

(** No run is infinite. *)
Lemma for_step_sn (c : config) : sn for_step c.
Proof.
  remember (remaining c) as n eqn:Hn. revert c Hn.
  induction n as [n IH] using lt_wf_ind. intros c ->.
  constructor. intros c' Hstep%for_step_remaining. by eapply IH.
Qed.

(** While it iterates, the loop can take a step; once left, it cannot. *)
Lemma for_step_progress (rest : list A) (s : St) : red for_step (Iterating rest s).
Proof.
  destruct rest as [|x rest]; [eexists; apply for_stop|].
  destruct (body s x) as [s'|e] eqn:Hb; eexists; [by apply for_next | by apply for_raise].
Qed.

Lemma final_nf (r : result St) : nf for_step (final r).
Proof. intros [c Hstep]. destruct r; inversion Hstep. Qed.

(** A state that the loop has left is never left. *)
Lemma final_steps (r : result St) (n : nat) (c : config) :
  nsteps for_step n (final r) c → n = 0 ∧ c = final r.
Proof. intros Hsteps. inv Hsteps; [done|]. destruct (final_nf r). by eexists. Qed.

(** The machine reaches the state of the fold. *)
Lemma for_loop_steps (l : list A) (s : St) :
  ∃ n, n ≤ S (length l) ∧
       nsteps for_step n (Iterating l s) (final (for_loop l s)).
Proof.
  revert s. induction l as [|x l IH]; intros s.
  { exists 1. split; [done|]. apply nsteps_once, for_stop. }
  rewrite for_loop_cons. destruct (body s x) as [s'|e] eqn:Hb.
  - destruct (IH s') as (n & Hn & Hrun). exists (S n).
    split; [simpl; lia|]. eapply nsteps_l; [by apply for_next | done].
  - exists 1. split; [simpl; lia|]. by apply nsteps_once, for_raise.
Qed.

(** Every run that cannot go on has stopped in the state of the fold. *)
Lemma for_loop_unique (l : list A) (s : St) (c : config) :
  rtc for_step (Iterating l s) c → nf for_step c → c = final (for_loop l s).
Proof.
  intros Hrun Hnf. destruct (for_loop_steps l s) as (n & _ & Hn).
  eapply confluent_rtc_nf;
    eauto using deterministic_confluent, for_step_deterministic, final_nf, rtc_nsteps_2.
Qed.

End for_loop.

Arguments config : clear implicits.

(** ** Loops whose body cannot raise *)

Section pure.
Context {A St : Type} (f : St → A → St).

Lemma for_loop_pure (l : list A) (s : St) :
  for_loop (λ s x, Ok (f s x)) l s = Ok (foldl f s l).
Proof.
  revert s. induction l as [|x l IH]; intros s; [done|].
  rewrite for_loop_cons. exact (IH (f s x)).
Qed.

(** A loop whose body cannot raise runs its body on every element and is
    left normally, after one step for each element and one to leave. *)
Lemma pure_loop_steps (l : list A) (s : St) :
  nsteps (for_step (λ s x, Ok (f s x))) (S (length l))
    (Iterating l s) (Finished (foldl f s l)).
Proof.
  revert s. induction l as [|x l IH]; intros s; [apply nsteps_once, for_stop|].
  eapply nsteps_l; [by apply for_next | apply IH].
Qed.

End pure.

End Loops.
