(* ===== verification/PyStr.v ===== *)
(** * PyStr: the [str] built-ins the program calls

    [src/app.py] lowercases its texts ([str.lower], l.27, 42, 43, 70, 90),
    tests section names and trigger words with the operator [in] (l.70, 90),
    capitalizes a section name ([str.capitalize], l.73) and joins lemmas
    with a space ([str.join], l.29).  This file models the four built-ins on
    [string] and proves the algebra the analyzers rely on.

    The definitions are executable; [contains] is the quadratic reference
    search (the interpreter's search returns the same truth value).

    [caseless] is equality up to case, the equivalence under which most of
    the program reads its texts; [is_word] recognizes the strings that the
    regular expression [\w+] matches in full. *)

From Stdlib Require Import Ascii String.
From stdpp Require Import base tactics option list strings.
From S2P Require Import Prelude.

(** ** Definitions *)

Module PyStr.

Definition is_upper (c : ascii) : bool :=
  (65 <=? nat_of_ascii c) && (nat_of_ascii c <=? 90).

Definition is_lower (c : ascii) : bool :=
  (97 <=? nat_of_ascii c) && (nat_of_ascii c <=? 122).

(** [c.lower()] of one character. *)
Definition lower_char (c : ascii) : ascii :=
  if is_upper c then ascii_of_nat (nat_of_ascii c + 32) else c.

(** [c.upper()] of one character. *)
Definition upper_char (c : ascii) : ascii :=
  if is_lower c then ascii_of_nat (nat_of_ascii c - 32) else c.

(** [s.lower()] *)
Definition lower (s : string) : string := string_map lower_char s.

(** [s.upper()] *)
Definition upper (s : string) : string := string_map upper_char s.

(** [s.capitalize()]: the first character in upper case, the rest in lower
    case. *)
Definition capitalize (s : string) : string :=
  match s with
  | EmptyString => EmptyString
  | String c r => String (upper_char c) (lower r)
  end.

(** [t in s]: [t] is a prefix of [s] or occurs further on. *)
Fixpoint contains (t s : string) : bool :=
  String.prefix t s ||
  match s with
  | EmptyString => false
  | String _ s' => contains t s'
  end.

(** [sep.join(l)] *)
Fixpoint join (sep : string) (l : list string) : string :=
  match l with
  | [] => ""
  | [x] => x
  | x :: l' => x +:+ sep +:+ join sep l'
  end.

(** The truth value of a string in a condition: non-empty. *)
Definition truthy (s : string) : bool :=
  match s with
  | EmptyString => false
  | String _ _ => true
  end.

(** A string with no upper-case letter. *)
Definition is_lowered (s : string) : bool :=
  string_forallb (λ c, negb (is_upper c)) s.

(** Two strings that differ in case only. *)
Definition caseless (s t : string) : Prop := lower s = lower t.

(** A character of the class [\w] of regular expressions: a letter, a
    digit or the underscore. *)
Definition is_word_char (c : ascii) : bool :=
  is_upper c || is_lower c
  || ((48 <=? nat_of_ascii c)%nat && (nat_of_ascii c <=? 57)%nat)
  || bool_decide (c = "_"%char).

(** A word: a non-empty string of such characters. *)
Definition is_word (w : string) : bool :=
  truthy w && string_forallb is_word_char w.

Definition flush_run (cur : string) : list string :=
  if truthy cur then [cur] else [].

(** The matches of [\w+] in a text: its maximal runs of word characters,
    in order.  [cur] is the run being read. *)
Fixpoint word_runs (cur s : string) : list string :=
  match s with
  | EmptyString => flush_run cur
  | String c s' =>
      if is_word_char c then word_runs (cur +:+ String c "") s'
      else flush_run cur ++ word_runs "" s'
  end.

(** ** Characters *)

Lemma lower_char_idemp (c : ascii) : lower_char (lower_char c) = lower_char c.
Proof. by ascii_cases c. Qed.

Lemma lower_upper_char (c : ascii) : lower_char (upper_char c) = lower_char c.
Proof. by ascii_cases c. Qed.

Lemma upper_lower_char (c : ascii) : upper_char (lower_char c) = upper_char c.
Proof. by ascii_cases c. Qed.

Lemma lower_char_not_upper (c : ascii) : is_upper (lower_char c) = false.
Proof. by ascii_cases c. Qed.

Lemma lower_char_fixed (c : ascii) : is_upper c = false → lower_char c = c.
Proof. unfold lower_char. by intros ->. Qed.

(** ** [lower] and [upper] *)

Lemma lower_nil : lower "" = "".
Proof. reflexivity. Qed.

Lemma lower_cons (c : ascii) (s : string) :
  lower (String c s) = String (lower_char c) (lower s).
Proof. reflexivity. Qed.

Lemma lower_app (s t : string) : lower (s +:+ t) = lower s +:+ lower t.
Proof. apply string_map_app. Qed.

Lemma lower_length (s : string) : String.length (lower s) = String.length s.
Proof. apply string_map_length. Qed.

Lemma lower_idemp (s : string) : lower (lower s) = lower s.
Proof. apply string_map_idemp, lower_char_idemp. Qed.

Lemma lower_upper (s : string) : lower (upper s) = lower s.
Proof.
  unfold lower, upper. rewrite string_map_compose.
  apply string_map_ext, lower_upper_char.
Qed.

Lemma lower_is_lowered (s : string) : is_lowered (lower s) = true.
Proof.
  unfold is_lowered. string_ind s; [done|].
  by rewrite lower_char_not_upper.
Qed.

Lemma lower_fixed (s : string) : is_lowered s = true → lower s = s.
Proof.
  unfold is_lowered, lower. string_ind s; [done|].
  intros [Hc Hs]%andb_true_iff. apply negb_true_iff in Hc.
  rewrite lower_char_fixed by done. f_equal. auto.
Qed.

Lemma lower_eq_nil (s : string) : lower s = "" ↔ s = "".
Proof. by destruct s. Qed.

(** ** [capitalize] *)

Lemma capitalize_length (s : string) :
  String.length (capitalize s) = String.length s.
Proof. destruct s; [done|]. simpl. by rewrite lower_length. Qed.

Lemma lower_capitalize (s : string) : lower (capitalize s) = lower s.
Proof.
  destruct s; [done|]. simpl.
  by rewrite lower_cons, lower_upper_char, lower_idemp.
Qed.

Lemma capitalize_lower (s : string) : capitalize (lower s) = capitalize s.
Proof.
  destruct s; [done|]. simpl.
  by rewrite upper_lower_char, lower_idemp.
Qed.

(** ** Prefixes and the operator [in] *)

Lemma prefix_spec (t s : string) :
  String.prefix t s = true ↔ ∃ b, s = t +:+ b.
Proof.
  revert s. induction t as [|a t IH]; intros s.
  - split; [by exists s | by destruct s].
  - destruct s as [|c s]; simpl.
    + split; [done | by intros [b Hb]].
    + destruct (ascii_dec a c) as [Heq|Hne].
      * rewrite IH. split; intros [b Hb]; exists b.
        -- by rewrite Hb, Heq.
        -- change (String c s = String a (t +:+ b)) in Hb. congruence.
      * split; [done | intros [b Hb]].
        change (String c s = String a (t +:+ b)) in Hb. congruence.
Qed.

Lemma contains_nil_r (t : string) : contains t "" = true ↔ t = "".
Proof. destruct t; simpl; by split. Qed.

Lemma contains_cons (t : string) (c : ascii) (s : string) :
  contains t (String c s) = String.prefix t (String c s) || contains t s.
Proof. reflexivity. Qed.

Lemma contains_spec (t s : string) : contains t s = true ↔ t ≼ s.
Proof.
  induction s as [|c s IH].
  - rewrite contains_nil_r. split.
    + intros ->. apply occurs_in_nil.
    + intros (a & b & H). symmetry in H.
      apply string_app_eq_nil in H as [_ H].
      by apply string_app_eq_nil in H as [? _].
  - rewrite contains_cons, orb_true_iff, IH, prefix_spec. split.
    + intros [[b Hb] | (a & b & ->)].
      * by exists "", b.
      * by exists (String c a), b.
    + intros ([|c' a] & b & H).
      * left. by exists b.
      * right. injection H as -> ->. by exists a, b.
Qed.

#[export] Instance occurs_in_dec (t s : string) : Decision (t ≼ s).
Proof.
  destruct (contains t s) eqn:H.
  - left. by apply contains_spec.
  - right. intros H'%contains_spec. congruence.
Defined.

Lemma contains_false (t s : string) : contains t s = false ↔ ¬ t ≼ s.
Proof. rewrite <- contains_spec. by destruct (contains t s). Qed.

Lemma contains_refl (s : string) : contains s s = true.
Proof. apply contains_spec, occurs_in_refl. Qed.

Lemma contains_nil (s : string) : contains "" s = true.
Proof. apply contains_spec, occurs_in_nil. Qed.

Lemma contains_app (t s a b : string) :
  contains t s = true → contains t (a +:+ s +:+ b) = true.
Proof. rewrite !contains_spec. apply occurs_in_app. Qed.

Lemma contains_app_l (t s b : string) :
  contains t s = true → contains t (s +:+ b) = true.
Proof. rewrite !contains_spec. apply occurs_in_app_l. Qed.

Lemma contains_app_r (t s a : string) :
  contains t s = true → contains t (a +:+ s) = true.
Proof. rewrite !contains_spec. apply occurs_in_app_r. Qed.

Lemma contains_mono (t s s' : string) :
  s ≼ s' → contains t s = true → contains t s' = true.
Proof. rewrite !contains_spec. intros ? ?. by etrans. Qed.

Lemma contains_trans (t s u : string) :
  contains t s = true → contains s u = true → contains t u = true.
Proof. rewrite !contains_spec. apply occurs_in_trans. Qed.

Lemma contains_length (t s : string) :
  contains t s = true → String.length t ≤ String.length s.
Proof. rewrite contains_spec. apply occurs_in_length. Qed.

Lemma contains_lower (t s : string) :
  contains t s = true → contains (lower t) (lower s) = true.
Proof. rewrite !contains_spec. apply occurs_in_map. Qed.

(** A word written in lower case that occurs in a text occurs in its
    lowercased form. *)
Lemma contains_lowered (t s : string) :
  is_lowered t = true → contains t s = true → contains t (lower s) = true.
Proof. intros Ht H%contains_lower. by rewrite (lower_fixed t) in H. Qed.

(** ** [join] *)

Lemma str_join_nil (sep : string) : join sep [] = "".
Proof. reflexivity. Qed.

Lemma str_join_singleton (sep x : string) : join sep [x] = x.
Proof. reflexivity. Qed.

Lemma str_join_cons (sep x y : string) (l : list string) :
  join sep (x :: y :: l) = x +:+ sep +:+ join sep (y :: l).
Proof. reflexivity. Qed.

Lemma str_join_contains (sep x : string) (l : list string) :
  x ∈ l → contains x (join sep l) = true.
Proof.
  induction l as [|y [|z l] IH]; intros Hx.
  - by apply elem_of_nil in Hx.
  - apply list_elem_of_singleton in Hx as ->. apply contains_refl.
  - rewrite str_join_cons. apply elem_of_cons in Hx as [->|Hx].
    + apply contains_app_l, contains_refl.
    + rewrite <- string_app_assoc. by apply contains_app_r, IH.
Qed.

Lemma str_join_eq_nil (sep : string) (l : list string) :
  Forall (λ x, x ≠ "") l → join sep l = "" → l = [].
Proof.
  destruct l as [|x [|y l]]; [done| |]; intros [Hx Hl]%Forall_cons_1 H.
  - by simpl in H.
  - rewrite str_join_cons in H. by apply string_app_eq_nil in H as [? _].
Qed.

Lemma truthy_spec (s : string) : truthy s = true ↔ s ≠ "".
Proof. by destruct s. Qed.

Lemma lower_join (sep : string) (l : list string) :
  lower (join sep l) = join (lower sep) (lower <$> l).
Proof.
  induction l as [|x [|y l] IH]; [done..|].
  rewrite fmap_cons, !str_join_cons, !lower_app. by rewrite IH.
Qed.

(** ** Words *)

Lemma is_word_char_lower (c : ascii) : is_word_char (lower_char c) = is_word_char c.
Proof. by ascii_cases c. Qed.

Lemma is_word_lower (w : string) : is_word (lower w) = is_word w.
Proof.
  unfold is_word, lower. f_equal; [by destruct w|].
  apply string_forallb_map, is_word_char_lower.
Qed.

Lemma word_runs_word (cur w rest : string) :
  string_forallb is_word_char w = true →
  word_runs cur (w +:+ rest) = word_runs (cur +:+ w) rest.
Proof.
  revert cur. induction w as [|c w IH]; intros cur Hw.
  - by rewrite string_app_nil_l, string_app_nil_r.
  - apply andb_true_iff in Hw as [Hc Hw]. string_simpl.
    rewrite Hc, IH by done. by rewrite string_app_assoc.
Qed.

Lemma word_runs_space (cur rest : string) :
  word_runs cur (" " +:+ rest) = flush_run cur ++ word_runs "" rest.
Proof. reflexivity. Qed.

(** Joining words with spaces and reading the words back is the
    identity. *)
Lemma word_runs_join (ws : list string) :
  Forall (λ w, is_word w = true) ws → word_runs "" (join " " ws) = ws.
Proof.
  induction ws as [|w ws IH]; [done|].
  intros [[Hne Hw]%andb_true_iff Hws]%Forall_cons_1. destruct ws as [|w' ws].
  - pose proof (word_runs_word "" w "" Hw) as Hr.
    rewrite string_app_nil_r in Hr. rewrite str_join_singleton, Hr.
    string_simpl. unfold flush_run. by rewrite Hne.
  - rewrite str_join_cons, word_runs_word, word_runs_space, IH by done.
    change ("" +:+ w) with w. unfold flush_run. by rewrite Hne.
Qed.

(** Two lists of words joined with spaces into the same text are the
    same list. *)
Lemma join_words_inj (ws ws' : list string) :
  Forall (λ w, is_word w = true) ws → Forall (λ w, is_word w = true) ws' →
  join " " ws = join " " ws' → ws = ws'.
Proof.
  intros Hws Hws' Heq. by rewrite <- (word_runs_join ws), Heq, word_runs_join.
Qed.

(** ** Equality up to case

    Most of the program reads its texts through [lower]: two texts with
    the same lowercased form are the same text to it.  The components
    declare the functions that respect this equivalence as [Proper], so
    that a text can be replaced by another one of the same class by
    rewriting. *)

#[export] Instance caseless_equiv : Equivalence caseless.
Proof.
  unfold caseless. split; [done | by intros s t | by intros s t u -> ->].
Qed.

#[export] Instance caseless_dec (s t : string) : Decision (caseless s t).
Proof. unfold caseless. apply _. Defined.

#[export] Instance lower_caseless : Proper (caseless ==> eq) lower.
Proof. by intros s t. Qed.

#[export] Instance append_caseless :
  Proper (caseless ==> caseless ==> caseless) String.append.
Proof. unfold caseless. intros s s' Hs t t' Ht. by rewrite !lower_app, Hs, Ht. Qed.

#[export] Instance length_caseless : Proper (caseless ==> eq) String.length.
Proof. intros s t Hst. by rewrite <- (lower_length s), Hst, lower_length. Qed.

Lemma caseless_lower (s : string) : caseless (lower s) s.
Proof. apply lower_idemp. Qed.

Lemma caseless_upper (s : string) : caseless (upper s) s.
Proof. apply lower_upper. Qed.

Lemma caseless_capitalize (s : string) : caseless (capitalize s) s.
Proof. apply lower_capitalize. Qed.

End PyStr.

#[export] Hint Rewrite PyStr.lower_app PyStr.lower_idemp PyStr.lower_upper
  PyStr.lower_length PyStr.lower_capitalize : ats_rw.
#[export] Hint Resolve PyStr.contains_refl PyStr.contains_nil
  PyStr.contains_app_l PyStr.contains_app_r : ats.
