(* ===== verification/Structure.v ===== *)
(** * Structure: [analyze_resume_structure] ([src/app.py], l.57-87)

    The analyzer walks the section catalogue in its insertion order with two
    accumulators, the score and the feedback list.  A section whose name
    occurs in the lowercased resume adds its points; a section that is
    missing appends a header line and the line the [if]/[elif] cascade
    selects for it.

    The loop is [structure_loop], a left fold of [structure_step] over the
    catalogue.  The reference definitions [section_points] and
    [section_block] say what one section contributes; the main theorem shows
    that the loop computes their sum and their concatenation.  The bounds,
    the monotonicity and the case insensitivity of the analyzer follow from
    the reference form.  A longer text scores the points of the shorter
    one and of the sections it gains ([gained_sections]); a section name
    written after a resume brings exactly its own points when it is the
    only section gained, and more when it completes another name across
    the seam. *)

From Stdlib Require Import Ascii String.
From stdpp Require Import base tactics option list strings relations.
From S2P Require Import Prelude Loops PyStr.

Module Structure.
Import Loops PyStr.

(** ** The code *)

(** The dictionary [sections] (l.60-67), in insertion order. *)
Definition sections : list (string * nat) :=
  [ ("contact information", 10);
    ("summary", 15);
    ("education", 20);
    ("experience", 30);
    ("skills", 15);
    ("achievements", 10) ].

(** The header line of a missing section (l.73). *)
Definition missing_header (section : string) : string :=
  "Missing '" +:+ capitalize section +:+
  "' section. This section is important because:".

(** The [if]/[elif] cascade on the section name (l.74-85): the explanation
    appended after the header, none when no branch matches. *)
Definition section_reason (section : string) : option string :=
  if String.eqb section "contact information" then
    Some "  - It allows employers to easily reach you."
  else if String.eqb section "summary" then
    Some "  - It provides a quick overview of your qualifications and career objectives."
  else if String.eqb section "education" then
    Some "  - It showcases your academic background and qualifications."
  else if String.eqb section "experience" then
    Some "  - It demonstrates your relevant work history and accomplishments."
  else if String.eqb section "skills" then
    Some "  - It highlights your key abilities and competencies."
  else if String.eqb section "achievements" then
    Some "  - It emphasizes your notable accomplishments and recognition."
  else None.

(** The lines one missing section appends (l.73-85). *)
Definition missing_block (section : string) : list string :=
  missing_header section :: option_list (section_reason section).

(** The body of the loop (l.70-85) on the pair of accumulators. *)
Definition structure_step (resume_text : string)
    (acc : nat * list string) (entry : string * nat) : nat * list string :=
  let '(score, feedback) := acc in
  let '(section, points) := entry in
  if contains section (lower resume_text)
  then (score + points, feedback)
  else (score, feedback ++ missing_block section).

(** The loop (l.69-85) over a catalogue, from given accumulators. *)
Definition structure_loop (resume_text : string) (catalogue : list (string * nat))
    (acc : nat * list string) : nat * list string :=
  foldl (structure_step resume_text) acc catalogue.

(** [analyze_resume_structure] (l.57-87). *)
Definition analyze_resume_structure (resume_text : string) : nat * list string :=
  structure_loop resume_text sections (0, []).

(** ** Reference definitions *)

(** A section is present when its name occurs in the lowercased text. *)
Definition present (resume_text section : string) : Prop :=
  section ≼ lower resume_text.

#[export] Instance present_dec (t s : string) : Decision (present t s).
Proof. unfold present. apply _. Defined.

(** What one catalogue entry adds to the score. *)
Definition section_points (resume_text : string) (entry : string * nat) : nat :=
  if decide (present resume_text entry.1) then entry.2 else 0.

(** What one catalogue entry adds to the feedback. *)
Definition section_block (resume_text : string) (entry : string * nat) : list string :=
  if decide (present resume_text entry.1) then [] else missing_block entry.1.

Definition score_of (catalogue : list (string * nat)) (resume_text : string) : nat :=
  sum_list (section_points resume_text <$> catalogue).

Definition feedback_of (catalogue : list (string * nat)) (resume_text : string)
    : list string :=
  mjoin (section_block resume_text <$> catalogue).

(** The maximal score of a catalogue. *)
Definition total (catalogue : list (string * nat)) : nat :=
  sum_list (snd <$> catalogue).

(** The sections of a catalogue that a text lacks. *)
Definition missing_sections (catalogue : list (string * nat)) (resume_text : string)
    : list (string * nat) :=
  filter (λ e, ¬ present resume_text e.1) catalogue.

(** The sections of a catalogue that a text lacks and another text has. *)
Definition gained_sections (catalogue : list (string * nat)) (t t' : string)
    : list (string * nat) :=
  filter (λ e, present t' e.1) (missing_sections catalogue t).

(** An entry the analyzer handles as intended: its name is non-empty and
    written in lower case (the text is lowercased before the test), the
    cascade has an explanation for it, and it is worth something. *)
Definition entry_ok (entry : string * nat) : bool :=
  truthy entry.1 && is_lowered entry.1
  && bool_decide (is_Some (section_reason entry.1)) && (0 <? entry.2).

(** A catalogue of such entries with pairwise distinct names, as the keys
    of a dictionary are. *)
Definition catalogue_ok (catalogue : list (string * nat)) : bool :=
  forallb entry_ok catalogue && bool_decide (NoDup catalogue.*1).

(** ** The reference form *)

Lemma entry_ok_spec (entry : string * nat) :
  entry_ok entry = true ↔
  entry.1 ≠ "" ∧ is_lowered entry.1 = true ∧ is_Some (section_reason entry.1)
  ∧ 0 < entry.2.
Proof.
  unfold entry_ok.
  rewrite !andb_true_iff, truthy_spec, bool_decide_eq_true, Nat.ltb_lt. tauto.
Qed.

Lemma catalogue_ok_Forall (catalogue : list (string * nat)) :
  catalogue_ok catalogue = true → Forall (λ e, entry_ok e = true) catalogue.
Proof.
  unfold catalogue_ok. intros [H _]%andb_true_iff.
  apply Forall_forall. intros e He%list_elem_of_In.
  by apply (proj1 (forallb_forall _ _) H).
Qed.

Lemma catalogue_ok_NoDup (catalogue : list (string * nat)) :
  catalogue_ok catalogue = true → NoDup catalogue.*1.
Proof.
  unfold catalogue_ok. intros [_ H]%andb_true_iff. by apply bool_decide_eq_true in H.
Qed.

Lemma total_cons (entry : string * nat) (catalogue : list (string * nat)) :
  total (entry :: catalogue) = entry.2 + total catalogue.
Proof. reflexivity. Qed.

Section loop.
Context (resume_text : string).
Implicit Types (catalogue : list (string * nat)) (entry : string * nat).

Lemma structure_loop_app catalogue1 catalogue2 (acc : nat * list string) :
  structure_loop resume_text (catalogue1 ++ catalogue2) acc =
  structure_loop resume_text catalogue2 (structure_loop resume_text catalogue1 acc).
Proof. apply foldl_app. Qed.

(** *** One entry *)

Lemma section_points_le entry : section_points resume_text entry ≤ entry.2.
Proof. unfold section_points. case_decide; lia. Qed.

Lemma section_points_present entry :
  present resume_text entry.1 → section_points resume_text entry = entry.2.
Proof. unfold section_points. by intros; rewrite decide_True. Qed.

Lemma section_points_absent entry :
  ¬ present resume_text entry.1 → section_points resume_text entry = 0.
Proof. unfold section_points. by intros; rewrite decide_False. Qed.

Lemma section_block_length entry :
  is_Some (section_reason entry.1) →
  length (section_block resume_text entry) =
  if decide (present resume_text entry.1) then 0 else 2.
Proof. unfold section_block, missing_block. intros [r ->]. by case_decide. Qed.

(** *** Scores *)

Lemma score_of_cons entry catalogue :
  score_of (entry :: catalogue) resume_text =
  section_points resume_text entry + score_of catalogue resume_text.
Proof. reflexivity. Qed.

Lemma score_of_app catalogue1 catalogue2 :
  score_of (catalogue1 ++ catalogue2) resume_text =
  score_of catalogue1 resume_text + score_of catalogue2 resume_text.
Proof. unfold score_of. by rewrite fmap_app, sum_list_app. Qed.

Lemma score_of_le_total catalogue : score_of catalogue resume_text ≤ total catalogue.
Proof. apply sum_list_fmap_le. intros e _. apply section_points_le. Qed.

Lemma missing_sections_cons entry catalogue :
  missing_sections (entry :: catalogue) resume_text =
  if decide (present resume_text entry.1)
  then missing_sections catalogue resume_text
  else entry :: missing_sections catalogue resume_text.
Proof.
  unfold missing_sections. rewrite filter_cons.
  destruct (decide (present resume_text entry.1));
    [by rewrite decide_False by tauto | by rewrite decide_True].
Qed.

Lemma score_of_missing catalogue :
  score_of catalogue resume_text + total (missing_sections catalogue resume_text)
  = total catalogue.
Proof.
  induction catalogue as [|e c IH]; [done|].
  rewrite score_of_cons, total_cons, missing_sections_cons.
  unfold section_points. case_decide; rewrite ?total_cons; lia.
Qed.

(** *** Feedback *)

Lemma feedback_of_cons entry catalogue :
  feedback_of (entry :: catalogue) resume_text =
  section_block resume_text entry ++ feedback_of catalogue resume_text.
Proof. reflexivity. Qed.

Lemma feedback_of_missing catalogue :
  feedback_of catalogue resume_text =
  mjoin ((λ e, missing_block e.1) <$> missing_sections catalogue resume_text).
Proof.
  induction catalogue as [|e c IH]; [done|].
  rewrite feedback_of_cons, missing_sections_cons, IH.
  unfold section_block. by case_decide.
Qed.

Lemma feedback_of_length catalogue :
  catalogue_ok catalogue = true →
  length (feedback_of catalogue resume_text) =
  2 * length (missing_sections catalogue resume_text).
Proof.
  intros Hok%catalogue_ok_Forall.
  induction Hok as [|e c He _ IH]; [done|].
  apply entry_ok_spec in He as (_ & _ & Hr & _).
  rewrite feedback_of_cons, length_app, IH, missing_sections_cons.
  rewrite section_block_length by done. case_decide; simpl; lia.
Qed.

Lemma missing_total_zero catalogue :
  catalogue_ok catalogue = true →
  total (missing_sections catalogue resume_text) = 0 →
  missing_sections catalogue resume_text = [].
Proof.
  intros Hok%catalogue_ok_Forall.
  induction Hok as [|e c He _ IH]; [done|].
  apply entry_ok_spec in He as (_ & _ & _ & Hpos).
  rewrite missing_sections_cons. case_decide; [done|].
  rewrite total_cons. lia.
Qed.

Lemma missing_nil_iff_score catalogue :
  catalogue_ok catalogue = true →
  missing_sections catalogue resume_text = [] ↔
  score_of catalogue resume_text = total catalogue.
Proof.
  intros Hok. pose proof (score_of_missing catalogue) as Hsum. split.
  - intros Hnil. rewrite Hnil in Hsum. change (total []) with 0 in Hsum. lia.
  - intros Heq. apply missing_total_zero; [done | lia].
Qed.

End loop.

(** ** The catalogue of the program *)

Lemma sections_ok : catalogue_ok sections = true.
Proof. by vm_compute. Qed.

(** ** The loop computes the reference form *)

(** One iteration adds the points of the entry or appends its block: the
    two branches of the body. *)
Ltac step_cases :=
  intros [? ?] [? ?];
  unfold structure_step, section_points, section_block; cbn [fst snd];
  destruct (contains _ (lower _)) eqn:Hc;
  [ apply contains_spec in Hc; by rewrite !decide_True, app_nil_r
  | apply contains_false in Hc; rewrite !decide_False by done;
    by rewrite Nat.add_0_r ].

(** C2: the loop of [analyze_resume_structure] returns, for every resume
    text, the sum of the points of the catalogue's sections whose name
    occurs in the lowercased text, and the concatenation, in catalogue
    order, of the two-line blocks of the sections that are missing. *)
Theorem analyze_resume_structure_spec (resume_text : string) :
  analyze_resume_structure resume_text =
  (score_of sections resume_text,
   mjoin ((λ e, missing_block e.1) <$> missing_sections sections resume_text)).
Proof.
  unfold analyze_resume_structure, structure_loop.
  rewrite (foldl_sum_app _ (section_points resume_text) (section_block resume_text))
    by step_cases.
  f_equal. apply feedback_of_missing.
Qed.

(** C9: the structure score never exceeds 100, and together with the points
    of the missing sections it is exactly 100. *)
Theorem structure_score_bounds (resume_text : string) :
  (analyze_resume_structure resume_text).1 ≤ 100 ∧
  (analyze_resume_structure resume_text).1
    + total (missing_sections sections resume_text) = 100.
Proof.
  unfold analyze_resume_structure, structure_loop.
  rewrite (foldl_sum_app _ (section_points resume_text) (section_block resume_text))
    by step_cases.
  cbn [fst]. change 100 with (total sections).
  split; [apply score_of_le_total | apply score_of_missing].
Qed.

(** The step and the loop in reference form, for rewriting. *)
Lemma structure_step_spec (resume_text : string) (acc : nat * list string)
    (entry : string * nat) :
  structure_step resume_text acc entry =
  (acc.1 + section_points resume_text entry,
   acc.2 ++ section_block resume_text entry).
Proof. revert acc entry. step_cases. Qed.

Lemma structure_loop_spec (resume_text : string) (catalogue : list (string * nat))
    (score : nat) (feedback : list string) :
  structure_loop resume_text catalogue (score, feedback) =
  (score + score_of catalogue resume_text,
   feedback ++ feedback_of catalogue resume_text).
Proof.
  unfold structure_loop.
  by rewrite (foldl_sum_app _ (section_points resume_text) (section_block resume_text))
    by apply structure_step_spec.
Qed.

Lemma sections_total : total sections = 100.
Proof. reflexivity. Qed.

Lemma analyze_resume_structure_eq (resume_text : string) :
  analyze_resume_structure resume_text =
  (score_of sections resume_text, feedback_of sections resume_text).
Proof. unfold analyze_resume_structure. by rewrite structure_loop_spec. Qed.

(** The loop of the analyzer as the [for] statement runs it: six
    iterations and the exit, none of which can raise. *)
Lemma analyze_resume_structure_steps (resume_text : string) :
  nsteps (for_step (λ acc entry, Ok (structure_step resume_text acc entry))) 7
    (Iterating sections (0, [])) (Finished (analyze_resume_structure resume_text)).
Proof. apply (pure_loop_steps (structure_step resume_text) sections). Qed.

(** Every line of the feedback starts with the M of a header or with the
    blank of an explanation. *)
Lemma structure_feedback_starts (resume_text : string) :
  Forall (starts_in ["M"; " "]%char) (analyze_resume_structure resume_text).2.
Proof.
  rewrite analyze_resume_structure_eq. cbn [snd]. unfold feedback_of, sections.
  apply Forall_join, Forall_fmap, Forall_forall. intros entry Hentry.
  unfold section_block. cbn. case_decide; [constructor|].
  repeat (apply elem_of_cons in Hentry as [->|Hentry]); [by_compute..|].
  by apply elem_of_nil in Hentry.
Qed.

(** ** Monotonicity *)

Lemma present_mono (t t' section : string) :
  lower t ≼ lower t' → present t section → present t' section.
Proof. unfold present. intros Ht Hs. by etrans. Qed.

Lemma present_app (t a b section : string) :
  present t section → present (a +:+ t +:+ b) section.
Proof. apply present_mono. occurs. Qed.

Lemma present_lower_eq (t t' section : string) :
  lower t = lower t' → present t section ↔ present t' section.
Proof. unfold present. by intros ->. Qed.

Lemma present_self (section a b : string) :
  is_lowered section = true → present (a +:+ section +:+ b) section.
Proof.
  intros Hl. unfold present. rewrite <- (lower_fixed section Hl) at 1. occurs.
Qed.

Lemma section_points_mono (t t' : string) (entry : string * nat) :
  lower t ≼ lower t' →
  section_points t entry ≤ section_points t' entry.
Proof.
  intros Ht. unfold section_points.
  destruct (decide (present t entry.1)) as [Hp|Hp]; [|lia].
  by rewrite decide_True by by eapply present_mono.
Qed.

Lemma score_of_mono (catalogue : list (string * nat)) (t t' : string) :
  lower t ≼ lower t' →
  score_of catalogue t ≤ score_of catalogue t'.
Proof.
  intros Ht. induction catalogue as [|e c IH]; [done|].
  rewrite !score_of_cons. pose proof (section_points_mono t t' e Ht). lia.
Qed.

Lemma section_block_sublist (t t' : string) (entry : string * nat) :
  lower t ≼ lower t' →
  section_block t' entry `sublist_of` section_block t entry.
Proof.
  intros Ht. unfold section_block.
  destruct (decide (present t' entry.1)) as [Hp|Hp]; [apply sublist_nil_l|].
  rewrite decide_False; [done|]. intros Hp'. by eapply Hp, present_mono.
Qed.

Lemma feedback_of_sublist (catalogue : list (string * nat)) (t t' : string) :
  lower t ≼ lower t' →
  feedback_of catalogue t' `sublist_of` feedback_of catalogue t.
Proof.
  intros Ht. induction catalogue as [|e c IH]; [done|].
  rewrite !feedback_of_cons. by apply sublist_app; [apply section_block_sublist|].
Qed.

Lemma score_of_lower_eq (catalogue : list (string * nat)) (t t' : string) :
  lower t = lower t' → score_of catalogue t = score_of catalogue t'.
Proof.
  intros Heq. apply Nat.le_antisymm; apply score_of_mono; by rewrite Heq.
Qed.

Lemma feedback_of_lower_eq (catalogue : list (string * nat)) (t t' : string) :
  lower t = lower t' → feedback_of catalogue t = feedback_of catalogue t'.
Proof.
  intros Heq. unfold feedback_of. f_equal. apply list_fmap_ext; intros _ e _.
  unfold section_block.
  by destruct (decide (present t e.1)), (decide (present t' e.1));
    try done; exfalso; rewrite (present_lower_eq t t') in * by done.
Qed.

(** Adding the name of a missing section to a text. *)
Lemma score_of_add_section (catalogue : list (string * nat)) (t a b : string)
    (entry : string * nat) :
  entry ∈ catalogue →
  is_lowered entry.1 = true → ¬ present t entry.1 →
  score_of catalogue t + entry.2 ≤ score_of catalogue (a +:+ t +:+ b +:+ entry.1).
Proof.
  intros Hin Hl Hnp.
  apply list_elem_of_split in Hin as (c1 & c2 & ->).
  rewrite !score_of_app, !score_of_cons.
  assert (lower t ≼ lower (a +:+ t +:+ b +:+ entry.1)) as Hocc
    by occurs.
  pose proof (score_of_mono c1 _ _ Hocc). pose proof (score_of_mono c2 _ _ Hocc).
  rewrite (section_points_absent t) by done.
  rewrite section_points_present; [lia|].
  rewrite <- !string_app_assoc, <- (string_app_nil_r entry.1) at 1.
  by apply present_self.
Qed.

(** *** What a longer text gains *)

Lemma catalogue_ok_positive (catalogue : list (string * nat)) :
  catalogue_ok catalogue = true → Forall (λ e, 0 < e.2) catalogue.
Proof.
  intros Hok%catalogue_ok_Forall. eapply Forall_impl; [done|].
  by intros e (_ & _ & _ & ?)%entry_ok_spec.
Qed.

Lemma total_app (l1 l2 : list (string * nat)) : total (l1 ++ l2) = total l1 + total l2.
Proof. unfold total. by rewrite fmap_app, sum_list_app. Qed.

Lemma total_zero (l : list (string * nat)) :
  Forall (λ e, 0 < e.2) l → total l = 0 → l = [].
Proof. destruct 1 as [|e l He _]; [done|]. rewrite total_cons. lia. Qed.

(** Entries that are worth something add up to the points of one of them
    only when there is no other. *)
Lemma total_single (l : list (string * nat)) (entry : string * nat) :
  Forall (λ e, 0 < e.2) l → entry ∈ l → total l = entry.2 ↔ l = [entry].
Proof.
  intros Hpos (l1 & l2 & ->)%list_elem_of_split.
  apply Forall_app in Hpos as [H1 [_ H2]%Forall_cons_1].
  rewrite total_app, total_cons. split.
  - intros Heq. by rewrite (total_zero l1), (total_zero l2) by (done || lia).
  - intros Heq%(f_equal total). rewrite total_app, !total_cons in Heq.
    change (total []) with 0 in Heq. lia.
Qed.

(** The score of a longer text is the score of the shorter one and the
    points of the sections gained. *)
Lemma score_of_gain (catalogue : list (string * nat)) (t t' : string) :
  lower t ≼ lower t' →
  score_of catalogue t'
  = score_of catalogue t + total (gained_sections catalogue t t').
Proof.
  intros Ht. induction catalogue as [|e c IH]; [done|].
  unfold gained_sections in *. rewrite !score_of_cons, missing_sections_cons, IH.
  unfold section_points. destruct (decide (present t e.1)) as [Hp|Hp].
  - rewrite decide_True by by eapply present_mono. lia.
  - rewrite filter_cons. case_decide; rewrite ?total_cons; lia.
Qed.

Lemma gained_sections_positive (catalogue : list (string * nat)) (t t' : string) :
  catalogue_ok catalogue = true →
  Forall (λ e, 0 < e.2) (gained_sections catalogue t t').
Proof.
  intros Hok%catalogue_ok_positive. rewrite Forall_forall in Hok.
  apply Forall_forall. intros e (_ & (_ & He)%list_elem_of_filter)%list_elem_of_filter.
  by apply Hok.
Qed.

(** The two ends of the score: nothing is missing, or everything is. *)
Lemma missing_sections_nil_iff (catalogue : list (string * nat)) (t : string) :
  missing_sections catalogue t = [] ↔ Forall (λ e, present t e.1) catalogue.
Proof.
  unfold missing_sections. rewrite filter_nil_iff. apply Forall_iff. intros e.
  cbn. destruct (decide (present t e.1)); tauto.
Qed.

Lemma score_of_zero_iff (catalogue : list (string * nat)) (t : string) :
  catalogue_ok catalogue = true →
  score_of catalogue t = 0 ↔ Forall (λ e, ¬ present t e.1) catalogue.
Proof.
  intros Hok%catalogue_ok_positive.
  induction Hok as [|e c He _ IH]; [done|].
  rewrite score_of_cons, Forall_cons, <- IH. unfold section_points.
  cbn in He. case_decide; [split; [lia | by intros [? _]] | simpl; tauto].
Qed.

(** The name of a section of the catalogue, written at the end of a text,
    is found there. *)
Lemma present_added (t a b : string) (entry : string * nat) :
  entry ∈ sections → present (a +:+ t +:+ b +:+ entry.1) entry.1.
Proof.
  intros Hin. pose proof (catalogue_ok_Forall _ sections_ok) as Hok.
  rewrite Forall_forall in Hok. apply Hok, entry_ok_spec in Hin as (_ & Hl & _).
  rewrite <- !string_app_assoc, <- (string_app_nil_r entry.1) at 1.
  by apply present_self.
Qed.

Lemma missing_sections_length (catalogue : list (string * nat)) (t : string) :
  length (missing_sections catalogue t) ≤ length catalogue.
Proof. apply length_filter. Qed.

Lemma structure_feedback_length (resume_text : string) :
  length (analyze_resume_structure resume_text).2 ≤ 12.
Proof.
  rewrite analyze_resume_structure_eq. simpl.
  rewrite feedback_of_length by apply sections_ok.
  pose proof (missing_sections_length sections resume_text) as Hlen.
  change (length sections) with 6 in Hlen. lia.
Qed.

(** ** Score and feedback *)

Lemma structure_feedback_nil_iff (resume_text : string) :
  (analyze_resume_structure resume_text).2 = [] ↔
  (analyze_resume_structure resume_text).1 = 100.
Proof.
  rewrite analyze_resume_structure_eq, <- sections_total. simpl.
  pose proof (feedback_of_length resume_text sections sections_ok) as Hlen.
  rewrite <- missing_nil_iff_score by apply sections_ok.
  rewrite <- !length_zero_iff_nil. lia.
Qed.

(** C12: the feedback has two lines for each missing section, and it is
    empty exactly when the score is 100. *)
Theorem structure_feedback_complete (resume_text : string) :
  length (analyze_resume_structure resume_text).2
    = 2 * length (missing_sections sections resume_text) ∧
  ((analyze_resume_structure resume_text).2 = [] ↔
   (analyze_resume_structure resume_text).1 = 100).
Proof.
  split; [|apply structure_feedback_nil_iff].
  rewrite analyze_resume_structure_eq.
  apply (feedback_of_length resume_text sections sections_ok).
Qed.

(** C17: a text that contains another one, up to case, scores at least as
    much, and its feedback is what remains of the other's feedback after
    some lines are dropped. *)
Theorem structure_monotone (t t' : string) :
  lower t ≼ lower t' →
  (analyze_resume_structure t).1 ≤ (analyze_resume_structure t').1 ∧
  (analyze_resume_structure t').2 `sublist_of` (analyze_resume_structure t).2.
Proof.
  intros Ht. rewrite !analyze_resume_structure_eq. simpl.
  split; [by apply score_of_mono | by apply feedback_of_sublist].
Qed.

Lemma structure_monotone_witness :
  (analyze_resume_structure "Skills").1
    ≤ (analyze_resume_structure "My SKILLS and education").1 ∧
  (analyze_resume_structure "My SKILLS and education").2
    `sublist_of` (analyze_resume_structure "Skills").2.
Proof. apply structure_monotone. by apply contains_spec. Defined.

(** C18: writing the name of a missing section after a resume (with any text
    around the resume) raises the score by at least the points of that
    section. *)
Theorem structure_add_section (t a b : string) (entry : string * nat) :
  entry ∈ sections → ¬ present t entry.1 →
  (analyze_resume_structure t).1 + entry.2
    ≤ (analyze_resume_structure (a +:+ t +:+ b +:+ entry.1)).1.
Proof.
  intros Hin Hnp. rewrite !analyze_resume_structure_eq. simpl.
  apply score_of_add_section; [done| |done].
  pose proof (catalogue_ok_Forall _ sections_ok) as Hok.
  rewrite Forall_forall in Hok. apply Hok in Hin.
  by apply entry_ok_spec in Hin as (_ & ? & _).
Qed.

Lemma structure_add_section_witness :
  (analyze_resume_structure "Jane Doe").1 + 15
    ≤ (analyze_resume_structure ("" +:+ "Jane Doe" +:+ " " +:+ "skills")).1.
Proof.
  apply (structure_add_section "Jane Doe" "" " " ("skills", 15)).
  - by_compute.
  - by_compute.
Defined.

(** C19: writing the name of a missing section after a resume raises the
    score by the points of all the sections that the longer text has and
    the resume lacked ([gained_sections]); the raise is exactly the points
    of the section that was written when, and only when, it is the one
    section gained.  It is more when the name that is added completes the
    name of another section across the seam, or when the text around the
    resume names one. *)
Theorem structure_add_section_exact (t a b : string) (entry : string * nat) :
  entry ∈ sections → ¬ present t entry.1 →
  let t' := a +:+ t +:+ b +:+ entry.1 in
  (analyze_resume_structure t').1
  = (analyze_resume_structure t).1 + total (gained_sections sections t t') ∧
  ((analyze_resume_structure t').1 = (analyze_resume_structure t).1 + entry.2
   ↔ gained_sections sections t t' = [entry]).
Proof.
  intros Hin Hnp t'. rewrite !analyze_resume_structure_eq. cbn [fst].
  assert (lower t ≼ lower t') as Hocc by (unfold t'; occurs).
  rewrite (score_of_gain sections t t' Hocc). split; [done|].
  rewrite <- total_single; [lia | by apply gained_sections_positive, sections_ok |].
  apply list_elem_of_filter. split; [by apply present_added|].
  by apply list_elem_of_filter.
Qed.

(** After "Jane Doe", the name "skills" raises the score by its 15
    points.  After "skill", the name "summary" (15 points) completes
    "skills" across the seam: the score goes from 0 to 30. *)
Lemma structure_add_section_exact_witness :
  ((analyze_resume_structure ("" +:+ "Jane Doe" +:+ " " +:+ "skills")).1
   = (analyze_resume_structure "Jane Doe").1 + 15) ∧
  ((analyze_resume_structure ("" +:+ "skill" +:+ "" +:+ "summary")).1
   ≠ (analyze_resume_structure "skill").1 + 15).
Proof.
  split.
  - apply (structure_add_section_exact "Jane Doe" "" " " ("skills", 15));
      by_compute.
  - intros Hexact.
    apply (structure_add_section_exact "skill" "" "" ("summary", 15)) in Hexact;
      [done | by_compute..].
Defined.

Lemma structure_add_section_seam :
  (analyze_resume_structure "skill").1 = 0 ∧
  (analyze_resume_structure ("skill" +:+ "summary")).1 = 30.
Proof. done. Qed.

#[export] Instance analyze_resume_structure_caseless :
  Proper (caseless ==> eq) analyze_resume_structure.
Proof.
  intros t t' Ht. rewrite !analyze_resume_structure_eq.
  by rewrite (score_of_lower_eq _ t t' Ht), (feedback_of_lower_eq _ t t' Ht).
Qed.

(** The analyzer reads the text up to case only: two texts with the
    same lowercased form get the same score and the same feedback. *)
Theorem structure_case_insensitive (t t' : string) :
  lower t = lower t' → analyze_resume_structure t = analyze_resume_structure t'.
Proof.
  intros Heq. rewrite !analyze_resume_structure_eq.
  by rewrite (score_of_lower_eq _ t t'), (feedback_of_lower_eq _ t t').
Qed.

Lemma structure_case_insensitive_witness :
  analyze_resume_structure "EDUCATION and Skills"
  = analyze_resume_structure "education AND skills".
Proof. by apply structure_case_insensitive. Defined.

(** An empty resume scores 0 and gets the six blocks, in the order
    contact information, summary, education, experience, skills,
    achievements. *)
Theorem structure_empty :
  analyze_resume_structure "" =
  (0,
   [ "Missing 'Contact information' section. This section is important because:";
     "  - It allows employers to easily reach you.";
     "Missing 'Summary' section. This section is important because:";
     "  - It provides a quick overview of your qualifications and career objectives.";
     "Missing 'Education' section. This section is important because:";
     "  - It showcases your academic background and qualifications.";
     "Missing 'Experience' section. This section is important because:";
     "  - It demonstrates your relevant work history and accomplishments.";
     "Missing 'Skills' section. This section is important because:";
     "  - It highlights your key abilities and competencies.";
     "Missing 'Achievements' section. This section is important because:";
     "  - It emphasizes your notable accomplishments and recognition." ]).
Proof. reflexivity. Qed.

(** The full score is reachable: a text that names the six sections, in
    any case, scores 100 with no feedback. *)
Theorem structure_full_score :
  analyze_resume_structure
    "Contact Information. Summary. Education. Experience. Skills. Achievements."
  = (100, []).
Proof. reflexivity. Qed.

End Structure.
