(* ===== verification/Certification.v ===== *)
(** * Certification: [analyze_certifications] ([src/app.py], l.89-96)

    The analyzer looks for the words "certification" and "certified" in the
    lowercased resume: 10 points and no feedback when one of them occurs,
    no point and a fixed block of advice otherwise.

    The theorems give the two outcomes as an equivalence with the
    occurrence of a trigger word, the shape of the result (a header and
    three bullet lines, four lines in all), the boundary of the test ("certificate" is no
    trigger, the common stem "certifi" is necessary and not sufficient) and
    its stability under case changes and under text added around the
    resume. *)

From Stdlib Require Import Ascii String.
From stdpp Require Import base tactics option list strings.
From S2P Require Import Prelude PyStr.

Module Certification.
Import PyStr.

(** ** The code *)

(** The block returned when no trigger word occurs (l.93-96). *)
Definition certification_advice : list string :=
  [ "Consider adding relevant certifications:";
    "  - Certifications demonstrate specialized knowledge and skills.";
    "  - They can set you apart from other candidates.";
    "  - Look for industry-specific certifications that align with the job requirements." ].

(** The condition of l.90. *)
Definition mentions_certification (resume_text : string) : bool :=
  contains "certification" (lower resume_text)
  || contains "certified" (lower resume_text).

(** [analyze_certifications] (l.89-96). *)
Definition analyze_certifications (resume_text : string) : nat * list string :=
  if mentions_certification resume_text
  then (10, [])
  else (0, certification_advice).

(** ** Reference definition *)

(** A trigger word occurs in the lowercased text. *)
Definition certified (resume_text : string) : Prop :=
  "certification" ≼ lower resume_text ∨
  "certified" ≼ lower resume_text.

#[export] Instance certified_dec (t : string) : Decision (certified t).
Proof. unfold certified. apply _. Defined.

(** ** The analyzer *)

(** The condition of the code is the disjunction of two occurrences. *)
Ltac trigger_words :=
  unfold mentions_certification, certified; rewrite orb_true_iff, !contains_spec.

(** C5: [analyze_certifications] returns 10 and no feedback exactly when
    "certification" or "certified" occurs in the lowercased text, and 0 with
    the advice block exactly when neither does; the block has four lines,
    a header and three bullets.  At the boundary, the word "certificate"
    is no trigger, although it shares the stem of the two trigger
    words. *)
Theorem analyze_certifications_spec (resume_text : string) :
  (analyze_certifications resume_text = (10, []) ↔ certified resume_text) ∧
  (analyze_certifications resume_text = (0, certification_advice)
   ↔ ¬ certified resume_text) ∧
  length certification_advice = 4 ∧
  analyze_certifications "I hold a Certificate in welding" = (0, certification_advice).
Proof.
  assert (mentions_certification resume_text = true ↔ certified resume_text) as Hm
    by by trigger_words.
  unfold analyze_certifications at 1 2.
  destruct (mentions_certification resume_text);
    (split_and!; [| |done|by vm_compute]); intuition congruence.
Qed.

(** ** Lemmas *)

Lemma mentions_certification_spec (t : string) :
  mentions_certification t = true ↔ certified t.
Proof. by trigger_words. Qed.

Lemma mentions_certification_false (t : string) :
  mentions_certification t = false ↔ ¬ certified t.
Proof.
  rewrite <- mentions_certification_spec. by destruct (mentions_certification t).
Qed.

Lemma certified_mono (t t' : string) :
  lower t ≼ lower t' → certified t → certified t'.
Proof. intros Ht [H|H]; [left|right]; by etrans. Qed.

Lemma certified_lower_eq (t t' : string) :
  lower t = lower t' → certified t ↔ certified t'.
Proof. unfold certified. by intros ->. Qed.

Lemma certified_stem (t : string) :
  certified t → "certifi" ≼ lower t.
Proof.
  intros [H|H]; (etrans; [|exact H]).
  - by exists "", "cation".
  - by exists "", "ed".
Qed.

#[export] Instance analyze_certifications_caseless :
  Proper (caseless ==> eq) analyze_certifications.
Proof.
  intros t t' Ht. unfold analyze_certifications, mentions_certification.
  by rewrite Ht.
Qed.

Lemma analyze_certifications_certified (t : string) :
  certified t → analyze_certifications t = (10, []).
Proof.
  intros H%mentions_certification_spec. unfold analyze_certifications. by rewrite H.
Qed.

Lemma analyze_certifications_not_certified (t : string) :
  ¬ certified t → analyze_certifications t = (0, certification_advice).
Proof.
  intros H%mentions_certification_false. unfold analyze_certifications. by rewrite H.
Qed.

Lemma analyze_certifications_score (t : string) :
  (analyze_certifications t).1 = if decide (certified t) then 10 else 0.
Proof.
  case_decide; [by rewrite analyze_certifications_certified
               | by rewrite analyze_certifications_not_certified].
Qed.

Lemma certification_feedback_length (t : string) :
  length (analyze_certifications t).2 ≤ 4.
Proof. unfold analyze_certifications. case_match; simpl; lia. Qed.

Lemma certification_feedback_starts (t : string) :
  Forall (starts_in ["C"; " "]%char) (analyze_certifications t).2.
Proof. unfold analyze_certifications. case_match; by_compute. Qed.

(** ** Shape and boundary *)

(** The result has one of two shapes: 10 points and an empty feedback, or
    0 points and four lines. *)
Theorem analyze_certifications_shape (resume_text : string) :
  ((analyze_certifications resume_text).1 = 10 ∧
   (analyze_certifications resume_text).2 = []) ∨
  ((analyze_certifications resume_text).1 = 0 ∧
   length (analyze_certifications resume_text).2 = 4).
Proof. unfold analyze_certifications. case_match; [by left | by right]. Qed.

(** The word "certificate" is no trigger, although it shares the stem
    "certifi" with both trigger words; every text that scores contains the
    stem. *)
Theorem analyze_certifications_boundary (resume_text : string) :
  analyze_certifications "I hold a Certificate in welding"
    = (0, certification_advice) ∧
  ((analyze_certifications resume_text).1 = 10 →
   "certifi" ≼ lower resume_text).
Proof.
  split; [done|]. intros H. apply certified_stem, mentions_certification_spec.
  unfold analyze_certifications in H. by case_match.
Qed.

Lemma analyze_certifications_boundary_witness :
  analyze_certifications "I hold a Certificate in welding"
    = (0, certification_advice) ∧
  ((analyze_certifications "AWS Certified Developer").1 = 10 →
   "certifi" ≼ lower "AWS Certified Developer").
Proof. apply (analyze_certifications_boundary "AWS Certified Developer"). Defined.

(** Text added around a resume, and changes of case, never lose the
    certification points. *)
Theorem analyze_certifications_monotone (t t' : string) :
  lower t ≼ lower t' →
  (analyze_certifications t).1 ≤ (analyze_certifications t').1.
Proof.
  intros Ht. destruct (decide (certified t)) as [H|H].
  - rewrite !analyze_certifications_certified; [done| |done].
    by eapply certified_mono.
  - rewrite (analyze_certifications_not_certified t) by done. simpl. lia.
Qed.

Lemma analyze_certifications_monotone_witness :
  (analyze_certifications "certified").1
    ≤ (analyze_certifications "PMP CERTIFIED (2021)").1.
Proof. apply analyze_certifications_monotone. by apply contains_spec. Defined.

End Certification.
