(* ===== verification/Nlp.v ===== *)
(** * Nlp: the language model the analyzers call

    [src/app.py] loads a spaCy pipeline once (l.9) and calls it on a text to
    get a document (l.27, 38, 99).  It then reads, of a document, its tokens
    and its sentences; of a token, [text], [lemma_], [pos_], [is_stop] and
    [is_alpha]; of a sentence, its number of tokens and its text.

    The pipeline is a parameter of the development: [Class NLP] has the one
    operation [nlp].  A document is the list of its tokens; a token is a
    record of the attributes above, with the two attributes that sentences
    and texts are derived from ([is_sent_start], [whitespace_]).  The
    sentences of a document and the text of a span are computed from the
    tokens the way the library does it.

    [NLPLaws] states what the library promises of every pipeline: the
    tokens spell out the text they were cut from, and no token is empty.
    [LemmaLaws] is an assumption on the lemmatizer that the theorems on
    the terms of a normalized text make: the lemma of an alphabetic token
    is a word.

    Two instances serve the concrete runs: [char_nlp], which makes every
    character a token, and [lexicon_nlp], a tokenizer on spaces and
    punctuation that tags words by looking them up in a given lexicon.
    Both are proved to satisfy [NLPLaws], and [LemmaLaws] when the lemmas
    of the lexicon are words.  The tokenizer of [lexicon_nlp] cuts words
    of letters separated by single spaces at the spaces
    ([tokenize_join]).

    [WordLaws] describes a pipeline that analyses words one by one: a text
    of words of letters separated by single spaces gets one alphabetic
    token for each word, whose lemma and stop-word flag are functions of
    the word alone ([word_lemma], [word_stop]), and lemmas of alphabetic
    tokens are words of letters.  It is stated on [nlp] only; the
    normalizer's theorem on idempotence is proved against it, and
    [lexicon_nlp] satisfies it when the lemmas of the lexicon are words of
    letters ([lexicon_word_laws]). *)

From Stdlib Require Import Ascii String.
From stdpp Require Import base tactics option list strings.
From S2P Require Import Prelude PyStr.

Module Nlp.
Import PyStr.

(** ** Documents, tokens and spans *)

Record Token : Type := MkToken {
  text : string;          (* the token as written *)
  whitespace_ : string;   (* the blank that follows it, if any *)
  lemma_ : string;        (* its base form *)
  pos_ : string;          (* its coarse part of speech *)
  is_stop : bool;         (* it is a stop word *)
  is_alpha : bool;        (* it consists of letters *)
  is_sent_start : bool;   (* it starts a sentence *)
}.

#[export] Instance Token_eq_dec : EqDecision Token.
Proof. solve_decision. Defined.

Definition Doc : Type := list Token.
Definition Span : Type := list Token.

(** The loaded pipeline (l.9): a text to its document. *)
Class NLP : Type := { nlp : string → Doc }.

(** [token.text_with_ws] *)
Definition text_with_ws (tok : Token) : string := text tok +:+ whitespace_ tok.

(** [span.text_with_ws], also [doc.text]: the tokens with their blanks. *)
Fixpoint span_text_with_ws (span : list Token) : string :=
  match span with
  | [] => ""
  | tok :: span' => text_with_ws tok +:+ span_text_with_ws span'
  end.

(** [s[:-1]]: a string without its last character. *)
Fixpoint drop_last (s : string) : string :=
  match s with
  | EmptyString => EmptyString
  | String c EmptyString => EmptyString
  | String c s' => String c (drop_last s')
  end.

(** [span.text], what [str(span)] gives: the text with blanks, without the
    blank of the last token. *)
Definition span_text (span : Span) : string :=
  match last span with
  | Some tok =>
      if truthy (whitespace_ tok)
      then drop_last (span_text_with_ws span)
      else span_text_with_ws span
  | None => span_text_with_ws span
  end.

(** [doc.sents]: a sentence ends before each token, other than the first,
    that is flagged as a sentence start. *)
Fixpoint sents (doc : Doc) : list Span :=
  match doc with
  | [] => []
  | tok :: doc' =>
      match doc' with
      | [] => [[tok]]
      | next :: _ =>
          if is_sent_start next then [tok] :: sents doc'
          else match sents doc' with
               | sent :: rest => (tok :: sent) :: rest
               | [] => [[tok]]
               end
      end
  end.

(** What every pipeline guarantees: tokenization loses no character, and
    no token is empty. *)
Class NLPLaws `{NLP} : Prop := {
  nlp_text : ∀ s : string, span_text_with_ws (nlp s) = s;
  nlp_token_nonempty : ∀ (s : string) (tok : Token), tok ∈ nlp s → text tok ≠ "";
}.

(** What the theorems on the terms of a normalized text assume of the
    lemmatizer: the lemma of an alphabetic token is a word, a non-empty
    string of letters, digits and underscores. *)
Class LemmaLaws `{NLP} : Prop := {
  nlp_lemma_word : ∀ (s : string) (tok : Token),
    tok ∈ nlp s → is_alpha tok = true → is_word (lemma_ tok) = true;
}.

(** ** Sentences partition the document *)

Lemma sents_cons_cons (tok next : Token) (doc : Doc) :
  sents (tok :: next :: doc) =
  if is_sent_start next then [tok] :: sents (next :: doc)
  else match sents (next :: doc) with
       | sent :: rest => (tok :: sent) :: rest
       | [] => [[tok]]
       end.
Proof. reflexivity. Qed.

Lemma sents_nil_iff (doc : Doc) : sents doc = [] ↔ doc = [].
Proof.
  destruct doc as [|tok [|next doc]]; [done..|].
  rewrite sents_cons_cons.
  by destruct (is_sent_start next), (sents (next :: doc)).
Qed.

Lemma sents_cons_cases (tok : Token) (doc : Doc) :
  (sents (tok :: doc) = [tok] :: sents doc) ∨
  (∃ sent rest, sents doc = sent :: rest ∧ sents (tok :: doc) = (tok :: sent) :: rest).
Proof.
  destruct doc as [|next doc]; [by left|].
  rewrite sents_cons_cons. destruct (is_sent_start next); [by left|].
  destruct (sents (next :: doc)) as [|sent rest] eqn:Hs; [|right; eauto].
  by apply sents_nil_iff in Hs.
Qed.

Lemma sents_concat (doc : Doc) : mjoin (sents doc) = doc.
Proof.
  induction doc as [|tok doc IH]; [done|].
  destruct (sents_cons_cases tok doc) as [->|(sent & rest & Hs & ->)]; simpl.
  - by rewrite IH.
  - rewrite Hs in IH. simpl in IH. by rewrite IH.
Qed.

Lemma sents_nonempty (doc : Doc) : Forall (λ sent, sent ≠ []) (sents doc).
Proof.
  induction doc as [|tok doc IH]; [by constructor|].
  destruct (sents_cons_cases tok doc) as [->|(sent & rest & Hs & ->)].
  - by constructor.
  - rewrite Hs in IH. apply Forall_cons in IH as [_ IH]. by constructor.
Qed.

Lemma sents_length_sum (doc : Doc) :
  sum_list (length <$> sents doc) = length doc.
Proof. by rewrite <- length_join, sents_concat. Qed.

Lemma sents_length_le (doc : Doc) (sent : Span) :
  sent ∈ sents doc → length sent ≤ length doc.
Proof.
  intros Hin. rewrite <- (sents_length_sum doc).
  apply list_elem_of_split in Hin as (l1 & l2 & ->).
  rewrite fmap_app, fmap_cons, sum_list_app, sum_list_cons. lia.
Qed.

Lemma sents_count_le (doc : Doc) : length (sents doc) ≤ length doc.
Proof.
  rewrite <- (sents_length_sum doc). pose proof (sents_nonempty doc) as Hne.
  induction Hne as [|sent rest Hs _ IH]; [done|].
  rewrite fmap_cons, sum_list_cons. destruct sent; [done|]. simpl. lia.
Qed.

(** A document in which no token but the first starts a sentence is one
    sentence. *)
Lemma sents_single (tok : Token) (doc : Doc) :
  Forall (λ t, is_sent_start t = false) doc → sents (tok :: doc) = [tok :: doc].
Proof.
  revert tok. induction doc as [|next doc IH]; intros tok Hall; [done|].
  apply Forall_cons in Hall as [Hn Hall].
  by rewrite sents_cons_cons, Hn, IH.
Qed.

(** ** Texts *)

Lemma span_text_with_ws_app (s1 s2 : list Token) :
  span_text_with_ws (s1 ++ s2) = span_text_with_ws s1 +:+ span_text_with_ws s2.
Proof.
  induction s1 as [|tok s1 IH]; [done|].
  simpl. by rewrite IH, string_app_assoc.
Qed.

Lemma span_text_with_ws_join (spans : list (list Token)) (span : list Token) :
  span ∈ spans → span_text_with_ws span ≼ span_text_with_ws (mjoin spans).
Proof.
  intros (l1 & l2 & ->)%list_elem_of_split.
  rewrite join_app. change (mjoin (span :: l2)) with (span ++ mjoin l2).
  rewrite !span_text_with_ws_app. by eexists _, _.
Qed.

Lemma token_text_occurs (tok : Token) (span : list Token) :
  tok ∈ span → text tok ≼ span_text_with_ws span.
Proof.
  intros (l1 & l2 & ->)%list_elem_of_split.
  rewrite span_text_with_ws_app. simpl. unfold text_with_ws.
  exists (span_text_with_ws l1), (whitespace_ tok +:+ span_text_with_ws l2).
  by rewrite !string_app_assoc.
Qed.

Lemma drop_last_app_char (s : string) (c : ascii) :
  drop_last (s +:+ String c "") = s.
Proof.
  induction s as [|a s IH]; [done|]. string_simpl.
  destruct (s +:+ String c "") eqn:Hs; [|by rewrite IH].
  apply string_app_eq_nil in Hs as [_ ?]. done.
Qed.

Lemma drop_last_prefix (s : string) : ∃ b, s = drop_last s +:+ b.
Proof.
  induction s as [|a [|a' s] IH]; [by exists "" | by eexists |].
  destruct IH as [b Hb]. exists b. cbn [drop_last] in *. string_simpl. by f_equal.
Qed.

Lemma span_text_prefix (span : Span) :
  ∃ b, span_text_with_ws span = span_text span +:+ b.
Proof.
  unfold span_text. destruct (last span) as [tok|].
  - destruct (truthy (whitespace_ tok)); [apply drop_last_prefix|].
    exists "". by rewrite string_app_nil_r.
  - exists "". by rewrite string_app_nil_r.
Qed.

Lemma span_text_occurs (span : Span) :
  span_text span ≼ span_text_with_ws span.
Proof. destruct (span_text_prefix span) as [b Hb]. by exists "", b. Qed.

(** The text of a sentence of a document occurs in the text of the
    document. *)
Lemma sent_text_occurs (doc : Doc) (sent : Span) :
  sent ∈ sents doc → span_text sent ≼ span_text_with_ws doc.
Proof.
  intros Hin. etrans; [apply span_text_occurs|].
  rewrite <- (sents_concat doc) at 1. by apply span_text_with_ws_join.
Qed.

(** A pipeline that loses no character and makes no empty token finds no
    token in the empty text. *)
Lemma nlp_empty `{NLPLaws} : nlp "" = [].
Proof.
  destruct (nlp "") as [|tok doc] eqn:Hdoc; [done|].
  pose proof (nlp_text "") as Ht. rewrite Hdoc in Ht. cbn in Ht.
  apply string_app_eq_nil in Ht as [[Htok _]%string_app_eq_nil _].
  destruct (nlp_token_nonempty "" tok); [|done].
  rewrite Hdoc. apply list_elem_of_here.
Qed.

(** ** Instances for concrete runs *)

(** *** Every character a token *)

Definition char_token (c : ascii) : Token :=
  {| text := String c ""; whitespace_ := ""; lemma_ := String c "";
     pos_ := "NOUN"; is_stop := false;
     is_alpha := is_upper c || is_lower c; is_sent_start := false |}.

Fixpoint char_doc (s : string) : Doc :=
  match s with
  | EmptyString => []
  | String c s' => char_token c :: char_doc s'
  end.

Definition char_nlp : NLP := {| nlp := char_doc |}.

Lemma char_doc_text (s : string) : span_text_with_ws (char_doc s) = s.
Proof. induction s as [|c s IH]; [done|]. simpl. by rewrite IH. Qed.

Lemma char_doc_nonempty (s : string) (tok : Token) :
  tok ∈ char_doc s → text tok ≠ "".
Proof.
  induction s as [|c s IH]; simpl; [by intros ?%elem_of_nil|].
  intros [->|?]%elem_of_cons; [done | auto].
Qed.

Lemma char_nlp_laws : @NLPLaws char_nlp.
Proof. split; [apply char_doc_text | apply char_doc_nonempty]. Qed.

(** *** Words looked up in a lexicon *)

(** A lexicon entry: a word in lower case, its lemma, its part of speech
    and whether it is a stop word. *)
Record Entry : Type := MkEntry {
  word : string; entry_lemma : string; entry_pos : string; entry_stop : bool;
}.

Definition is_letter (c : ascii) : bool := is_upper c || is_lower c.

Definition is_digit (c : ascii) : bool :=
  (48 <=? nat_of_ascii c) && (nat_of_ascii c <=? 57).

Definition is_blank (c : ascii) : bool :=
  bool_decide (c = " "%char) || bool_decide (c = "010"%char).

Definition flush (cur ws : string) : list (string * string) :=
  if truthy cur then [(cur, ws)] else [].

(** Cut a text into (word, blank) pairs: runs of letters and digits are
    words, every other character is a word of its own, and one blank after
    a word belongs to it. *)
Fixpoint tokenize (cur s : string) : list (string * string) :=
  match s with
  | EmptyString => flush cur ""
  | String c s' =>
      if is_letter c || is_digit c then tokenize (cur +:+ String c "") s'
      else if is_blank c then
        (if truthy cur then (cur, String c "") else (String c "", ""))
        :: tokenize "" s'
      else
        flush cur "" ++
        match s' with
        | String b s'' =>
            if is_blank b then (String c "", String b "") :: tokenize "" s''
            else (String c "", "") :: tokenize "" s'
        | EmptyString => [(String c "", "")]
        end
  end.

Definition lookup_entry (lexicon : list Entry) (w : string) : option Entry :=
  list_find (λ e, word e = lower w) lexicon ≫= λ p, Some p.2.

Definition ends_sentence (w : string) : bool :=
  bool_decide (w ∈ ["."; "!"; "?"]).

(** Tag the words one after the other; [start] says whether the next word
    starts a sentence. *)
Fixpoint tag (lexicon : list Entry) (start : bool) (ws : list (string * string))
    : Doc :=
  match ws with
  | [] => []
  | (w, blank) :: ws' =>
      let alpha := truthy w && string_forallb is_letter w in
      let tok :=
        match lookup_entry lexicon w with
        | Some e =>
            MkToken w blank (entry_lemma e) (entry_pos e) (entry_stop e) alpha start
        | None =>
            MkToken w blank (lower w) (if alpha then "NOUN" else "X") false
              alpha start
        end in
      tok :: tag lexicon (ends_sentence w) ws'
  end.

Definition lexicon_nlp (lexicon : list Entry) : NLP :=
  {| nlp := λ s, tag lexicon true (tokenize "" s) |}.

(** The text that a list of (word, blank) pairs spells out. *)
Definition pairs_text (ws : list (string * string)) : string :=
  foldr (λ p acc, p.1 +:+ p.2 +:+ acc) "" ws.

Lemma pairs_text_cons (p : string * string) (ws : list (string * string)) :
  pairs_text (p :: ws) = p.1 +:+ p.2 +:+ pairs_text ws.
Proof. reflexivity. Qed.

Lemma pairs_text_app (ws1 ws2 : list (string * string)) :
  pairs_text (ws1 ++ ws2) = pairs_text ws1 +:+ pairs_text ws2.
Proof.
  induction ws1 as [|p ws1 IH]; [done|].
  by rewrite <- app_comm_cons, !pairs_text_cons, IH, !string_app_assoc.
Qed.

Lemma pairs_text_flush (cur : string) : pairs_text (flush cur "") = cur.
Proof.
  destruct cur; [done|]. unfold flush. cbn [truthy].
  rewrite pairs_text_cons. cbn [fst snd pairs_text foldr]. by rewrite !string_app_nil_r.
Qed.

(** The tokenizer loses no character.  The recursion skips a blank after
    a punctuation mark, so the induction is on a bound of the length. *)
Lemma tokenize_text_bounded (n : nat) (s cur : string) :
  String.length s ≤ n → pairs_text (tokenize cur s) = cur +:+ s.
Proof.
  revert s cur. induction n as [|n IH]; intros [|c s] cur Hlen; cbn [tokenize];
    try (cbn in Hlen; lia); try by rewrite pairs_text_flush, string_app_nil_r.
  cbn in Hlen. destruct (is_letter c || is_digit c).
  { rewrite IH by lia. by rewrite string_app_assoc. }
  destruct (is_blank c).
  { destruct cur; cbn [truthy]; rewrite pairs_text_cons, IH by lia;
      by rewrite ?string_app_assoc. }
  rewrite pairs_text_app, pairs_text_flush. f_equal.
  destruct s as [|b s]; [done|]. cbn in Hlen.
  by destruct (is_blank b); rewrite pairs_text_cons, IH by (cbn; lia).
Qed.

Lemma tokenize_text (s cur : string) : pairs_text (tokenize cur s) = cur +:+ s.
Proof. by apply (tokenize_text_bounded (String.length s)). Qed.

Lemma flush_nonempty (cur ws : string) : Forall (λ p, p.1 ≠ "") (flush cur ws).
Proof. destruct cur; by repeat constructor. Qed.

Lemma tokenize_nonempty_bounded (n : nat) (s cur : string) :
  String.length s ≤ n → Forall (λ p, p.1 ≠ "") (tokenize cur s).
Proof.
  revert s cur. induction n as [|n IH]; intros [|c s] cur Hlen; cbn [tokenize];
    try (cbn in Hlen; lia); try apply flush_nonempty.
  cbn in Hlen. destruct (is_letter c || is_digit c).
  { apply IH. lia. }
  destruct (is_blank c).
  { constructor; [by destruct cur | apply IH; lia]. }
  apply Forall_app. split; [apply flush_nonempty|].
  destruct s as [|b s]; [by repeat constructor|]. cbn in Hlen.
  destruct (is_blank b); (constructor; [done | apply IH; cbn; lia]).
Qed.

Lemma tag_text (lexicon : list Entry) (start : bool) (ws : list (string * string)) :
  span_text_with_ws (tag lexicon start ws) = pairs_text ws.
Proof.
  revert start. induction ws as [|[w blank] ws IH]; intros start; [done|].
  cbn [tag span_text_with_ws pairs_text foldr fst snd]. rewrite IH.
  unfold text_with_ws, pairs_text.
  by destruct (lookup_entry lexicon w); cbn; rewrite string_app_assoc.
Qed.

Lemma tag_nonempty (lexicon : list Entry) (start : bool)
    (ws : list (string * string)) (tok : Token) :
  Forall (λ p, p.1 ≠ "") ws → tok ∈ tag lexicon start ws → text tok ≠ "".
Proof.
  revert start. induction ws as [|[w blank] ws IH]; intros start Hws;
    [by intros ?%elem_of_nil|].
  apply Forall_cons_1 in Hws as [Hw Hws]. cbn [tag].
  intros [->|Hin]%elem_of_cons; [by destruct (lookup_entry lexicon w) | by eapply IH].
Qed.

(** The pipeline of a lexicon keeps the laws of tokenization. *)
Lemma lexicon_nlp_laws (lexicon : list Entry) : @NLPLaws (lexicon_nlp lexicon).
Proof.
  split; cbn.
  - intros s. by rewrite tag_text, tokenize_text.
  - intros s tok. apply tag_nonempty.
    by apply (tokenize_nonempty_bounded (String.length s)).
Qed.

(** *** Words separated by single spaces *)

(** What [str.isalpha] accepts: a non-empty string of letters. *)
Definition alpha_word (w : string) : bool := truthy w && string_forallb is_letter w.

(** Words with the blank that follows each of them but the last. *)
Fixpoint spaced (ws : list string) : list (string * string) :=
  match ws with
  | [] => []
  | [w] => [(w, "")]
  | w :: ws' => (w, " ") :: spaced ws'
  end.

Lemma is_letter_lower (c : ascii) : is_letter (lower_char c) = is_letter c.
Proof. by ascii_cases c. Qed.

Lemma alpha_word_lower (w : string) : alpha_word (lower w) = alpha_word w.
Proof.
  unfold alpha_word, lower. f_equal; [by destruct w|].
  apply string_forallb_map, is_letter_lower.
Qed.

Lemma spaced_bind {B : Type} (f : string → list B) (ws : list string) :
  spaced ws ≫= (λ p, f p.1) = ws ≫= f.
Proof.
  induction ws as [|w [|w' ws] IH]; [done..|].
  change (spaced (w :: w' :: ws)) with ((w, " ") :: spaced (w' :: ws)).
  by rewrite (bind_cons _ (w, " ")), (bind_cons f w), IH.
Qed.

(** The tokenizer reads a run of letters into the word it is reading. *)
Lemma tokenize_letters (cur w rest : string) :
  string_forallb is_letter w = true →
  tokenize cur (w +:+ rest) = tokenize (cur +:+ w) rest.
Proof.
  revert cur. induction w as [|c w IH]; intros cur; [by rewrite string_app_nil_r|].
  cbn [string_forallb]. intros [Hc Hw]%andb_true_iff.
  rewrite string_app_cons. cbn [tokenize]. rewrite Hc. cbn [orb].
  rewrite IH by done. f_equal. by rewrite string_app_assoc.
Qed.

(** Words of letters separated by single spaces are cut at the spaces. *)
Lemma tokenize_join (ws : list string) :
  Forall (λ w, alpha_word w = true) ws → tokenize "" (join " " ws) = spaced ws.
Proof.
  induction ws as [|w [|w' ws] IH]; [done|..];
    intros [[Hne Hw]%andb_true_iff Hws]%Forall_cons_1.
  - pose proof (tokenize_letters "" w "" Hw) as Ht. rewrite string_app_nil_r in Ht.
    rewrite str_join_singleton, Ht. cbn [tokenize]. unfold flush.
    by rewrite string_app_nil_l, Hne.
  - rewrite str_join_cons, tokenize_letters, string_app_nil_l by done.
    change (tokenize w (" " +:+ ?s)) with
      ((if truthy w then (w, " ") else (" ", "")) :: tokenize "" s).
    by rewrite Hne, IH.
Qed.

(** A lexicon whose lemmas are words. *)
Definition word_lexicon (lexicon : list Entry) : bool :=
  forallb (λ e, is_word (entry_lemma e)) lexicon.

Lemma lookup_entry_elem_of (lexicon : list Entry) (w : string) (e : Entry) :
  lookup_entry lexicon w = Some e → e ∈ lexicon.
Proof.
  unfold lookup_entry. destruct (list_find _ lexicon) as [[i e']|] eqn:Hfind; [|done].
  intros [= <-]. apply list_find_Some in Hfind as (Hi & _).
  by eapply list_elem_of_lookup_2.
Qed.

Lemma is_letter_word_char (c : ascii) : is_letter c = true → is_word_char c = true.
Proof. unfold is_letter, is_word_char. by intros ->. Qed.

Lemma tag_lemma_word (lexicon : list Entry) (start : bool)
    (ws : list (string * string)) (tok : Token) :
  word_lexicon lexicon = true →
  tok ∈ tag lexicon start ws → is_alpha tok = true → is_word (lemma_ tok) = true.
Proof.
  intros Hlex. revert start. induction ws as [|[w blank] ws IH]; intros start;
    [by intros ?%elem_of_nil|].
  cbn [tag]. intros [->|Hin]%elem_of_cons; [|by eapply IH].
  destruct (lookup_entry lexicon w) as [e|] eqn:He; cbn [is_alpha lemma_].
  - intros _. apply lookup_entry_elem_of, list_elem_of_In in He.
    unfold word_lexicon in Hlex. rewrite forallb_forall in Hlex. by apply Hlex.
  - rewrite is_word_lower. unfold is_word. rewrite !andb_true_iff.
    intros [Hne Hw]. split; [done|].
    by eapply string_forallb_impl; [apply is_letter_word_char|].
Qed.

Lemma lexicon_nlp_lemma_laws (lexicon : list Entry) :
  word_lexicon lexicon = true → @LemmaLaws (lexicon_nlp lexicon).
Proof. intros Hlex. split. intros s tok. by apply tag_lemma_word. Qed.

Lemma char_nlp_lemma_laws : @LemmaLaws char_nlp.
Proof.
  split. intros s tok. cbn. induction s as [|c s IH]; cbn;
    [by intros ?%elem_of_nil|].
  intros [->|Hin]%elem_of_cons; [|by apply IH]. cbn. unfold is_word. cbn.
  rewrite andb_true_r. apply is_letter_word_char.
Qed.

(** *** A pipeline that analyses words one by one *)

(** The lemma and the stop-word flag of a token are functions of its
    word: a text of words of letters separated by single spaces has one
    alphabetic token for each of its words, with the lemma and the flag of
    that word; and the lemma of an alphabetic token is a word of letters. *)
Class WordLaws `{NLP} : Type := {
  word_lemma : string → string;
  word_stop : string → bool;
  nlp_words : ∀ ws : list string,
    Forall (λ w, alpha_word w = true) ws →
    Forall2 (λ w token, is_alpha token = true ∧ is_stop token = word_stop w
                        ∧ lemma_ token = word_lemma w)
      ws (nlp (join " " ws));
  nlp_lemma_alpha : ∀ (s : string) (token : Token),
    token ∈ nlp s → is_alpha token = true → alpha_word (lemma_ token) = true;
}.

(** What the pipeline of a lexicon reads of a word. *)
Definition lexicon_lemma (lexicon : list Entry) (w : string) : string :=
  match lookup_entry lexicon w with Some e => entry_lemma e | None => lower w end.

Definition lexicon_stop (lexicon : list Entry) (w : string) : bool :=
  match lookup_entry lexicon w with Some e => entry_stop e | None => false end.

(** A lexicon whose lemmas are words of letters. *)
Definition alpha_lexicon (lexicon : list Entry) : bool :=
  forallb (λ e, alpha_word (entry_lemma e)) lexicon.

Lemma alpha_word_is_word (w : string) : alpha_word w = true → is_word w = true.
Proof.
  unfold alpha_word, is_word. rewrite !andb_true_iff. intros [Hne Hw]. split; [done|].
  by eapply string_forallb_impl; [apply is_letter_word_char|].
Qed.

Lemma word_laws_lemma_laws `{WordLaws} : LemmaLaws.
Proof. split. intros s tok Hin Ha. by eapply alpha_word_is_word, nlp_lemma_alpha. Qed.

Lemma tag_spaced (lexicon : list Entry) (start : bool) (ws : list string) :
  Forall (λ w, alpha_word w = true) ws →
  Forall2 (λ w token, is_alpha token = true ∧ is_stop token = lexicon_stop lexicon w
                      ∧ lemma_ token = lexicon_lemma lexicon w)
    ws (tag lexicon start (spaced ws)).
Proof.
  intros Hws. revert start.
  induction Hws as [|w ws Hw Hws IH]; intros start; [constructor|].
  assert (∃ blank, spaced (w :: ws) = (w, blank) :: spaced ws) as [blank ->]
    by (destruct ws; by eexists).
  cbn [tag]. constructor; [|apply IH].
  unfold lexicon_stop, lexicon_lemma. unfold alpha_word in Hw.
  by destruct (lookup_entry lexicon w); cbn [is_alpha is_stop lemma_].
Qed.

Lemma tag_lemma_alpha (lexicon : list Entry) (start : bool)
    (ws : list (string * string)) (tok : Token) :
  alpha_lexicon lexicon = true →
  tok ∈ tag lexicon start ws → is_alpha tok = true → alpha_word (lemma_ tok) = true.
Proof.
  intros Hlex. revert start. induction ws as [|[w blank] ws IH]; intros start;
    [by intros ?%elem_of_nil|].
  cbn [tag]. intros [->|Hin]%elem_of_cons; [|by eapply IH].
  destruct (lookup_entry lexicon w) as [e|] eqn:He; cbn [is_alpha lemma_].
  - intros _. apply lookup_entry_elem_of, list_elem_of_In in He.
    unfold alpha_lexicon in Hlex. rewrite forallb_forall in Hlex. by apply Hlex.
  - by rewrite alpha_word_lower.
Qed.

Lemma lexicon_nlp_words (lexicon : list Entry) (ws : list string) :
  Forall (λ w, alpha_word w = true) ws →
  Forall2 (λ w token, is_alpha token = true ∧ is_stop token = lexicon_stop lexicon w
                      ∧ lemma_ token = lexicon_lemma lexicon w)
    ws (@nlp (lexicon_nlp lexicon) (join " " ws)).
Proof.
  intros Hws. cbn [nlp lexicon_nlp]. rewrite tokenize_join by done. by apply tag_spaced.
Qed.

(** The pipeline of a lexicon whose lemmas are words of letters analyses
    words one by one. *)
Definition lexicon_word_laws (lexicon : list Entry)
    (Hlex : alpha_lexicon lexicon = true) : @WordLaws (lexicon_nlp lexicon) :=
  {| word_lemma := lexicon_lemma lexicon;
     word_stop := lexicon_stop lexicon;
     nlp_words := lexicon_nlp_words lexicon;
     nlp_lemma_alpha := λ s tok, tag_lemma_alpha lexicon true (tokenize "" s) tok Hlex |}.

End Nlp.
