(* ===== verification/Grammar.v ===== *)
(** * Grammar: [analyze_grammar] ([src/app.py], l.98-109)

    The analyzer asks the language model for the sentences of the resume
    and collects, in document order, one line for each sentence of more
    than 40 tokens.  With no such sentence it returns 10 points and no
    feedback; otherwise 5 points, a header and the first three lines.

    The loop is [grammar_issues], a left fold over the sentences.  The
    theorems relate it to the filter it computes, give the result on both
    branches, bound the feedback by four lines, and tie the analyzer to the
    document: a document of at most 40 tokens cannot lose points, and a
    quoted sentence is a piece of the resume. *)

From Stdlib Require Import Ascii String.
From stdpp Require Import base tactics option list strings relations.
From S2P Require Import Prelude Loops PyStr Nlp.

Module Grammar.
Import Loops PyStr Nlp.

(** ** The code *)

(** The line appended for a long sentence (l.104). *)
Definition long_sentence_issue (sent : Span) : string :=
  "Consider breaking up this long sentence: '" +:+ span_text sent +:+ "'".

(** The body of the loop (l.103-104). *)
Definition grammar_step (grammar_issues : list string) (sent : Span) : list string :=
  if 40 <? length sent
  then grammar_issues ++ [long_sentence_issue sent]
  else grammar_issues.

(** The loop over the sentences of a document (l.100-104). *)
Definition grammar_issues (doc : Doc) : list string :=
  foldl grammar_step [] (sents doc).

(** The header of the feedback (l.107). *)
Definition grammar_header : string := "Grammar and readability could be improved:".

(** [analyze_grammar] (l.98-109). *)
Definition analyze_grammar `{NLP} (resume_text : string) : nat * list string :=
  let doc := nlp resume_text in
  match grammar_issues doc with
  | [] => (10, [])
  | issues => (5, [grammar_header] ++ take 3 issues)
  end.

(** ** Reference definitions *)

(** A sentence of more than 40 tokens. *)
Definition long (sent : Span) : Prop := 40 < length sent.

#[export] Instance long_dec (sent : Span) : Decision (long sent).
Proof. unfold long. apply _. Defined.

(** The long sentences of a document, in document order. *)
Definition long_sentences (doc : Doc) : list Span := filter long (sents doc).

(** ** The loop *)

(** The loop keeps the long sentences: it is rewritten into the image of
    a filter. *)
Ltac issues_as_filter :=
  unfold grammar_issues;
  change grammar_step with
    (λ acc sent, if 40 <? length sent then acc ++ [long_sentence_issue sent] else acc);
  rewrite (@foldl_snoc_if _ _ (λ sent, 40 <? length sent) long_sentence_issue
             long long_dec)
    by (intros; apply Nat.ltb_lt);
  cbn [app];
  match goal with
  | |- context [filter long (sents ?doc)] =>
      change (filter long (sents doc)) with (long_sentences doc)
  end.

Lemma long_sentences_nil_iff (doc : Doc) :
  long_sentences doc = [] ↔ Forall (λ sent, length sent ≤ 40) (sents doc).
Proof.
  unfold long_sentences. rewrite filter_nil_iff. apply Forall_iff.
  intros sent. unfold long. lia.
Qed.

(** C4: [analyze_grammar] returns 10 and no feedback when no sentence of
    the document has more than 40 tokens; otherwise it returns 5 and, after
    the header, one line for each of the first three long sentences, in
    document order. *)
Theorem analyze_grammar_spec `{NLP} (resume_text : string) :
  (Forall (λ sent, length sent ≤ 40) (sents (nlp resume_text)) →
   analyze_grammar resume_text = (10, [])) ∧
  (¬ Forall (λ sent, length sent ≤ 40) (sents (nlp resume_text)) →
   analyze_grammar resume_text =
   (5, grammar_header ::
       (long_sentence_issue <$> take 3 (long_sentences (nlp resume_text))))).
Proof.
  rewrite <- long_sentences_nil_iff. unfold analyze_grammar. issues_as_filter.
  destruct (long_sentences (nlp resume_text)) as [|sent rest].
  - by split; [|intros []].
  - split; [done|]. intros _. by rewrite fmap_take.
Qed.

Lemma grammar_issues_spec (doc : Doc) :
  grammar_issues doc = long_sentence_issue <$> long_sentences doc.
Proof. by issues_as_filter. Qed.

(** The loop as the [for] statement runs it: one iteration for each
    sentence and the exit, none of which can raise. *)
Lemma grammar_issues_steps (doc : Doc) :
  nsteps (for_step (λ issues sent, Ok (grammar_step issues sent)))
    (S (length (sents doc))) (Iterating (sents doc) []) (Finished (grammar_issues doc)).
Proof. apply (pure_loop_steps grammar_step (sents doc)). Qed.

Lemma grammar_issues_nil_iff (doc : Doc) :
  grammar_issues doc = [] ↔ Forall (λ sent, length sent ≤ 40) (sents doc).
Proof. by rewrite grammar_issues_spec, fmap_nil_iff, long_sentences_nil_iff. Qed.

Lemma long_sentences_short_doc (doc : Doc) :
  length doc ≤ 40 → long_sentences doc = [].
Proof.
  intros Hlen. apply filter_nil_iff, Forall_forall. intros sent Hin.
  pose proof (sents_length_le doc sent Hin). unfold long. lia.
Qed.

(** Long sentences are disjoint pieces of the document: there are at most
    [length doc / 41] of them. *)
Lemma long_sentences_count (doc : Doc) :
  41 * length (long_sentences doc) ≤ length doc.
Proof.
  rewrite <- (sents_length_sum doc). unfold long_sentences.
  induction (sents doc) as [|sent rest IH]; [done|].
  rewrite filter_cons, fmap_cons, sum_list_cons.
  case_decide as Hl; [unfold long in Hl; simpl|]; lia.
Qed.

Section analyzer.
Context `{NLP}.

Lemma analyze_grammar_eq (resume_text : string) :
  analyze_grammar resume_text =
  match long_sentences (nlp resume_text) with
  | [] => (10, [])
  | sentences =>
      (5, grammar_header :: (long_sentence_issue <$> take 3 sentences))
  end.
Proof.
  unfold analyze_grammar. rewrite grammar_issues_spec.
  destruct (long_sentences (nlp resume_text)) as [|sent rest]; [done|].
  by rewrite fmap_take, fmap_cons.
Qed.

Lemma analyze_grammar_score (resume_text : string) :
  (analyze_grammar resume_text).1
  = if decide (long_sentences (nlp resume_text) = []) then 10 else 5.
Proof. rewrite analyze_grammar_eq. by destruct (long_sentences (nlp resume_text)). Qed.

Lemma grammar_feedback_length (resume_text : string) :
  length (analyze_grammar resume_text).2 ≤ 4.
Proof.
  rewrite analyze_grammar_eq.
  destruct (long_sentences (nlp resume_text)) as [|sent rest]; [simpl; lia|].
  cbn [snd length]. rewrite length_fmap, length_take. lia.
Qed.

Lemma grammar_feedback_starts (resume_text : string) :
  Forall (starts_in ["G"; "C"]%char) (analyze_grammar resume_text).2.
Proof.
  rewrite analyze_grammar_eq. case_match; [constructor|]. cbn [snd].
  constructor; [by_compute|]. apply Forall_fmap, Forall_forall. intros sent _.
  by_compute.
Qed.

(** The grammar score is 5 or 10, it is 10 exactly when the feedback is
    empty, and the feedback never has more than four lines: the header and
    as many lines as there are long sentences, three at most. *)
Theorem analyze_grammar_shape (resume_text : string) :
  ((analyze_grammar resume_text).1 = 10 ∧ (analyze_grammar resume_text).2 = []) ∨
  ((analyze_grammar resume_text).1 = 5 ∧
   length (analyze_grammar resume_text).2
     = 1 + 3 `min` length (long_sentences (nlp resume_text)) ∧
   length (analyze_grammar resume_text).2 ≤ 4).
Proof.
  rewrite analyze_grammar_eq.
  destruct (long_sentences (nlp resume_text)) as [|sent rest]; [by left|right].
  cbn [fst snd length]. rewrite length_fmap, length_take. split_and!; [done..|lia].
Qed.

(** A resume that the model cuts into at most 40 tokens gets the full
    grammar score, whatever its sentences are. *)
Theorem analyze_grammar_short (resume_text : string) :
  length (nlp resume_text) ≤ 40 → analyze_grammar resume_text = (10, []).
Proof.
  intros Hlen. by rewrite analyze_grammar_eq, long_sentences_short_doc.
Qed.

(** C25: every line after the header quotes a sentence of the document, and
    with a model that keeps every character the quoted sentence is a piece
    of the resume text. *)
Theorem analyze_grammar_quotes `{!NLPLaws} (resume_text line : string) :
  line ∈ drop 1 (analyze_grammar resume_text).2 →
  ∃ sent, sent ∈ sents (nlp resume_text) ∧ 40 < length sent ∧
    line = long_sentence_issue sent ∧
    span_text sent ≼ resume_text.
Proof.
  rewrite analyze_grammar_eq.
  destruct (long_sentences (nlp resume_text)) as [|s0 rest] eqn:Hl;
    [by intros ?%elem_of_nil|].
  cbn [snd drop]. rewrite <- Hl. clear Hl.
  intros (sent & -> & Hin%elem_of_take)%list_elem_of_fmap.
  apply list_elem_of_filter in Hin as [Hlong Hin].
  exists sent. split_and!; [done..|].
  rewrite <- (nlp_text resume_text) at 1. by apply sent_text_occurs.
Qed.

End analyzer.

(** ** Concrete runs *)

(** A resume of one sentence of 41 words. *)
Definition long_resume : string :=
  "I have worked on many projects and led many teams and shipped many " +:+
  "products and wrote many reports and fixed many bugs and trained many " +:+
  "people and gave many talks and built many tools and learned many things " +:+
  "and met good people.".

Lemma analyze_grammar_short_witness :
  @analyze_grammar (lexicon_nlp []) "Experience: built systems. Skills: coding."
  = (10, []).
Proof. apply (@analyze_grammar_short (lexicon_nlp [])). vm_compute. lia. Defined.

Lemma analyze_grammar_quotes_witness :
  ∃ sent, sent ∈ sents (@nlp char_nlp long_resume) ∧ 40 < length sent ∧
    "Consider breaking up this long sentence: '" +:+ long_resume +:+ "'"
      = long_sentence_issue sent ∧
    span_text sent ≼ long_resume.
Proof.
  apply (@analyze_grammar_quotes char_nlp char_nlp_laws long_resume).
  vm_compute. apply list_elem_of_here.
Defined.

(** On a resume of one sentence of 41 words (42 tokens with the full
    stop) the score is 5 and the feedback is the header and the sentence,
    quoted in full. *)
Theorem analyze_grammar_long_run :
  @analyze_grammar (lexicon_nlp []) long_resume =
  (5, [ grammar_header;
        "Consider breaking up this long sentence: '" +:+ long_resume +:+ "'" ]).
Proof. by vm_compute. Qed.

End Grammar.
