(* ===== verification/Keywords.v ===== *)
(** * Keywords: [extract_keywords] and [suggest_improvements]
    ([src/app.py], l.37-55)

    [extract_keywords] keeps the surface form of the tokens that are
    alphabetic, are no stop words and are tagged NOUN, PROPN, VERB or ADJ.
    [suggest_improvements] turns the keywords of the two lowercased texts
    into sets, takes their difference and, when it is not empty, lists at
    most five of its elements between a header and a closing line.

    Python leaves the order in which a set is enumerated open, so "the
    first five" are any five.  The enumeration is the operation [py_list]
    of [Class SetOrder], whose one law says that it lists the elements of
    the set once each; the theorems hold for every such enumeration.  A
    call of [suggest_improvements] enumerates one set once, so a theorem
    about one call that holds for every enumeration holds for what the
    interpreter does in that call. *)

From Stdlib Require Import Ascii String.
From stdpp Require Import base tactics option list strings gmap sets relations.
From S2P Require Import Prelude Loops PyStr Nlp.

Module Keywords.
Import Loops PyStr Nlp.

(** ** The code *)

(** The parts of speech that make a keyword (l.39). *)
Definition keyword_pos : list string := ["NOUN"; "PROPN"; "VERB"; "ADJ"].

(** The filter of the comprehension (l.39). *)
Definition is_keyword (token : Token) : bool :=
  negb (is_stop token) && is_alpha token && bool_decide (pos_ token ∈ keyword_pos).

(** [extract_keywords] (l.37-39). *)
Definition extract_keywords `{NLP} (text : string) : list string :=
  let doc := nlp text in
  Nlp.text <$> filter (λ token, is_keyword token = true) doc.

(** [list(s)] for a set [s]: its elements, once each, in some order. *)
Class SetOrder : Type := {
  py_list : gset string → list string;
  py_list_perm : ∀ X : gset string, py_list X ≡ₚ elements X;
}.

(** The first line of the suggestions (l.50). *)
Definition suggestions_header : string :=
  "Consider incorporating the following keywords from the job description:".

(** The line of one keyword (l.52). *)
Definition keyword_line (keyword : string) : string := "  - " +:+ keyword.

(** The last line of the suggestions (l.53). *)
Definition suggestions_footer : string :=
  "Try to naturally integrate these keywords into your experience and skills sections.".

(** [suggest_improvements] (l.41-55). *)
Definition suggest_improvements `{NLP} `{SetOrder}
    (resume_text job_description : string) : list string :=
  let resume_keywords : gset string :=
    list_to_set (extract_keywords (lower resume_text)) in
  let job_keywords : gset string :=
    list_to_set (extract_keywords (lower job_description)) in
  let missing_keywords := job_keywords ∖ resume_keywords in
  if decide (missing_keywords ≠ ∅) then
    let top_keywords := take 5 (py_list missing_keywords) in
    [suggestions_header] ++ (keyword_line <$> top_keywords) ++ [suggestions_footer]
  else [].

(** ** Reference definitions *)

(** The job keywords the resume lacks. *)
Definition missing_keywords `{NLP} (resume_text job_description : string)
    : gset string :=
  list_to_set (extract_keywords (lower job_description))
  ∖ list_to_set (extract_keywords (lower resume_text)).

(** The keywords that a call lists. *)
Definition top_keywords `{NLP} `{SetOrder} (resume_text job_description : string)
    : list string :=
  take 5 (py_list (missing_keywords resume_text job_description)).

(** The enumeration the model computes with. *)
#[export] Instance elements_order : SetOrder :=
  {| py_list := elements; py_list_perm := λ X, reflexivity (elements X) |}.

(** ** Enumerations *)

Section order.
Context `{SetOrder}.
Implicit Types X : gset string.

Lemma py_list_elem_of X (x : string) : x ∈ py_list X ↔ x ∈ X.
Proof. by rewrite py_list_perm, elem_of_elements. Qed.

Lemma py_list_NoDup X : NoDup (py_list X).
Proof. rewrite py_list_perm. apply NoDup_elements. Qed.

Lemma py_list_length X : length (py_list X) = size X.
Proof. by rewrite py_list_perm. Qed.

Lemma py_list_nil_iff X : py_list X = [] ↔ X = ∅.
Proof.
  rewrite <- length_zero_iff_nil, py_list_length, size_empty_iff. by fold_leibniz.
Qed.

End order.

(** ** Keywords of a text *)

Section keywords.
Context `{NLP}.

Lemma is_keyword_spec (token : Token) :
  is_keyword token = true ↔
  is_stop token = false ∧ is_alpha token = true ∧ pos_ token ∈ keyword_pos.
Proof.
  unfold is_keyword.
  rewrite !andb_true_iff, negb_true_iff, bool_decide_eq_true. tauto.
Qed.

Lemma elem_of_extract_keywords (text keyword : string) :
  keyword ∈ extract_keywords text ↔
  ∃ token, token ∈ nlp text ∧ Nlp.text token = keyword ∧ is_keyword token = true.
Proof.
  unfold extract_keywords. rewrite list_elem_of_fmap.
  setoid_rewrite list_elem_of_filter.
  split; [intros (token & -> & ? & ?) | intros (token & ? & <- & ?)]; by exists token.
Qed.

Lemma extract_keywords_length (text : string) :
  length (extract_keywords text) ≤ length (nlp text).
Proof. unfold extract_keywords. rewrite length_fmap. apply length_filter. Qed.

(** With a model that keeps every character, a keyword is a piece of the
    text it was extracted from. *)
Lemma extract_keywords_occurs `{!NLPLaws} (text keyword : string) :
  keyword ∈ extract_keywords text → keyword ≼ text.
Proof.
  intros (token & Hin & <- & _)%elem_of_extract_keywords.
  rewrite <- (nlp_text text) at 1. by apply token_text_occurs.
Qed.

Lemma elem_of_missing_keywords (resume_text job_description keyword : string) :
  keyword ∈ missing_keywords resume_text job_description ↔
  keyword ∈ extract_keywords (lower job_description) ∧
  keyword ∉ extract_keywords (lower resume_text).
Proof. unfold missing_keywords. set_solver. Qed.

Lemma missing_keywords_empty_iff (resume_text job_description : string) :
  missing_keywords resume_text job_description = ∅ ↔
  extract_keywords (lower job_description) ⊆ extract_keywords (lower resume_text).
Proof.
  rewrite elem_of_equiv_empty_L. setoid_rewrite elem_of_missing_keywords. split.
  - intros Hm keyword Hin.
    destruct (decide (keyword ∈ extract_keywords (lower resume_text))); [done|].
    by destruct (Hm keyword).
  - intros Hsub keyword [Hin Hnin]. by apply Hnin, Hsub.
Qed.

Context `{SetOrder}.

(** The loop over the listed keywords (l.51-52) as the [for] statement
    runs it, from the header: one line is appended for each keyword, and
    no iteration can raise. *)
Lemma suggestions_loop_steps (top_keywords : list string) :
  nsteps (for_step (λ suggestions keyword, Ok (suggestions ++ [keyword_line keyword])))
    (S (length top_keywords)) (Iterating top_keywords [suggestions_header])
    (Finished (suggestions_header :: (keyword_line <$> top_keywords))).
Proof.
  change (suggestions_header :: ?l) with ([suggestions_header] ++ l).
  rewrite <- (foldl_snoc keyword_line top_keywords [suggestions_header]).
  apply (pure_loop_steps (λ suggestions keyword, suggestions ++ [keyword_line keyword])).
Qed.

(** The advisor reads both texts up to case. *)
#[export] Instance suggest_improvements_caseless :
  Proper (caseless ==> caseless ==> eq) suggest_improvements.
Proof.
  intros r r' Hr j j' Hj. unfold suggest_improvements. by rewrite Hr, Hj.
Qed.

Lemma top_keywords_length (resume_text job_description : string) :
  length (top_keywords resume_text job_description)
  = 5 `min` size (missing_keywords resume_text job_description).
Proof. unfold top_keywords. by rewrite length_take, py_list_length. Qed.

Lemma top_keywords_NoDup (resume_text job_description : string) :
  NoDup (top_keywords resume_text job_description).
Proof. apply NoDup_take, py_list_NoDup. Qed.

Lemma elem_of_top_keywords (resume_text job_description keyword : string) :
  keyword ∈ top_keywords resume_text job_description →
  keyword ∈ missing_keywords resume_text job_description.
Proof. intros Hin%elem_of_take. by apply py_list_elem_of in Hin. Qed.

(** When at most five keywords are missing, all of them are listed. *)
Lemma top_keywords_all (resume_text job_description : string) :
  size (missing_keywords resume_text job_description) ≤ 5 →
  top_keywords resume_text job_description
  ≡ₚ elements (missing_keywords resume_text job_description).
Proof.
  intros Hsize. unfold top_keywords.
  rewrite take_ge by by rewrite py_list_length. apply py_list_perm.
Qed.

(** ** The advisor *)

(** C10: [suggest_improvements] returns no line exactly when every keyword
    of the lowercased job description is a keyword of the lowercased
    resume. *)
Theorem suggest_improvements_nil_iff (resume_text job_description : string) :
  suggest_improvements resume_text job_description = [] ↔
  extract_keywords (lower job_description) ⊆ extract_keywords (lower resume_text).
Proof.
  rewrite <- missing_keywords_empty_iff. unfold suggest_improvements. cbv zeta.
  change (list_to_set (extract_keywords (lower job_description))
          ∖ list_to_set (extract_keywords (lower resume_text)))
    with (missing_keywords resume_text job_description).
  by case_decide as Hm; split.
Qed.

(** C6: when keywords are missing the suggestions are the header, one line
    for each listed keyword and the closing line; the listed keywords are
    as many as the missing ones, five at most, so the suggestions have at
    most seven lines. *)
Theorem suggest_improvements_shape (resume_text job_description : string) :
  missing_keywords resume_text job_description ≠ ∅ →
  suggest_improvements resume_text job_description =
    suggestions_header ::
    (keyword_line <$> top_keywords resume_text job_description)
    ++ [suggestions_footer] ∧
  length (top_keywords resume_text job_description)
    = 5 `min` size (missing_keywords resume_text job_description) ∧
  length (suggest_improvements resume_text job_description) ≤ 7.
Proof.
  intros Hm.
  change (suggest_improvements resume_text job_description) with
    (if decide (missing_keywords resume_text job_description ≠ ∅)
     then suggestions_header ::
          (keyword_line <$> top_keywords resume_text job_description)
          ++ [suggestions_footer]
     else []).
  rewrite decide_True by done. split_and!; [done | apply top_keywords_length |].
  cbn [length]. rewrite length_app, length_fmap, top_keywords_length.
  cbn [length]. lia.
Qed.

(** The advisor in its reference form, for rewriting. *)
Lemma suggest_improvements_eq (resume_text job_description : string) :
  suggest_improvements resume_text job_description =
  if decide (missing_keywords resume_text job_description ≠ ∅)
  then suggestions_header ::
       (keyword_line <$> top_keywords resume_text job_description)
       ++ [suggestions_footer]
  else [].
Proof. reflexivity. Qed.

Lemma suggest_improvements_length (resume_text job_description : string) :
  length (suggest_improvements resume_text job_description) ≤ 7.
Proof.
  rewrite suggest_improvements_eq. case_decide; [|simpl; lia].
  cbn [length]. rewrite length_app, length_fmap, top_keywords_length.
  cbn [length]. lia.
Qed.

Lemma suggestions_starts (resume_text job_description : string) :
  Forall (starts_in ["C"; " "; "T"]%char)
    (suggest_improvements resume_text job_description).
Proof.
  rewrite suggest_improvements_eq. case_decide; [|constructor].
  constructor; [by_compute|]. apply Forall_app. split; [|by_compute].
  apply Forall_fmap, Forall_forall. intros keyword _. by_compute.
Qed.

(** C11: the listed keywords are pairwise distinct keywords of the
    lowercased job description that are no keywords of the lowercased
    resume; when at most five are missing, all of them are listed. *)
Theorem suggest_improvements_sound (resume_text job_description : string) :
  NoDup (top_keywords resume_text job_description) ∧
  (∀ keyword, keyword ∈ top_keywords resume_text job_description →
     keyword ∈ extract_keywords (lower job_description) ∧
     keyword ∉ extract_keywords (lower resume_text)) ∧
  (size (missing_keywords resume_text job_description) ≤ 5 →
   ∀ keyword, keyword ∈ missing_keywords resume_text job_description →
     keyword ∈ top_keywords resume_text job_description).
Proof.
  split_and!; [apply top_keywords_NoDup | |].
  - intros keyword Hin%elem_of_top_keywords.
    by apply elem_of_missing_keywords.
  - intros Hsize keyword Hin. rewrite top_keywords_all by done.
    by apply elem_of_elements.
Qed.

(** With a model that keeps every character, every listed keyword is
    written in the lowercased job description. *)
Theorem suggest_improvements_occurs `{!NLPLaws}
    (resume_text job_description keyword : string) :
  keyword ∈ top_keywords resume_text job_description →
  keyword ≼ lower job_description.
Proof.
  intros Hin%elem_of_top_keywords.
  apply elem_of_missing_keywords in Hin as [Hin _].
  by apply extract_keywords_occurs.
Qed.

End keywords.

(** ** Concrete runs *)

(** The function words of the example, as a lexicon. *)
Definition demo_lexicon : list Entry :=
  [ MkEntry "a" "a" "DET" true;
    MkEntry "for" "for" "ADP" true;
    MkEntry "with" "with" "ADP" true;
    MkEntry "and" "and" "CCONJ" true;
    MkEntry "looking" "look" "VERB" false;
    MkEntry "built" "build" "VERB" false ].

Definition demo_resume : string := "Experience: built systems. Skills: coding.".

Definition demo_job : string :=
  "Looking for a manager with leadership and certification.".

Lemma suggest_improvements_shape_witness :
  @suggest_improvements (lexicon_nlp demo_lexicon) elements_order demo_resume demo_job =
    suggestions_header ::
    (keyword_line <$>
       @top_keywords (lexicon_nlp demo_lexicon) elements_order demo_resume demo_job)
    ++ [suggestions_footer] ∧
  length (@top_keywords (lexicon_nlp demo_lexicon) elements_order demo_resume demo_job)
    = 5 `min` size (@missing_keywords (lexicon_nlp demo_lexicon) demo_resume demo_job) ∧
  length (@suggest_improvements (lexicon_nlp demo_lexicon) elements_order
            demo_resume demo_job) ≤ 7.
Proof.
  apply (@suggest_improvements_shape (lexicon_nlp demo_lexicon) elements_order).
  by_compute.
Defined.

Lemma suggest_improvements_occurs_witness :
  "z" ≼ lower "XYZ".
Proof.
  apply (@suggest_improvements_occurs char_nlp elements_order char_nlp_laws "xy" "XYZ").
  by_compute.
Defined.

(** On the resume "Experience: built systems. Skills: coding." and the
    job description "Looking for a manager with leadership and
    certification.", tagged with the demonstration lexicon, the four
    content words of the job description are missing and all four are
    listed. *)
Theorem suggest_improvements_demo :
  @missing_keywords (lexicon_nlp demo_lexicon) demo_resume demo_job
    = {[ "looking"; "manager"; "leadership"; "certification" ]} ∧
  @suggest_improvements (lexicon_nlp demo_lexicon) elements_order demo_resume demo_job
    ≡ₚ [ suggestions_header; "  - looking"; "  - manager"; "  - leadership";
         "  - certification"; suggestions_footer ].
Proof.
  split; [by_compute|]. apply (bool_decide_unpack _). by vm_compute.
Qed.

End Keywords.
