(* ===== verification/Normalizer.v ===== *)
(** * Normalizer: [preprocess_text] ([src/app.py], l.26-29)

    The text is lowercased and handed to the language model; the lemmas of
    the tokens that are alphabetic and no stop words are joined with single
    spaces.

    The theorems: the result depends on the text up to case only; every
    kept lemma is written in the result, and when lemmas are words the
    kept lemmas can be read back from it; a text with no alphabetic token
    (empty, digits, punctuation) normalizes to the empty string.

    Normalizing twice is not normalizing once in general, because a lemma
    can itself be a stop word, or have another lemma.  For a pipeline that
    analyses words one by one ([WordLaws], a law of the language model
    alone), [preprocess_text_idempotent] says for which texts it is: those
    whose kept lemmas, read again in lower case, are no stop words and are
    their own lemmas. *)

From Stdlib Require Import Ascii String.
From stdpp Require Import base tactics option list strings.
From S2P Require Import Prelude PyStr Nlp.

Module Normalizer.
Import PyStr Nlp.

(** ** The code *)

(** The filter of the comprehension (l.28). *)
Definition keep_token (token : Token) : bool :=
  negb (is_stop token) && is_alpha token.

(** The list [tokens] (l.27-28). *)
Definition kept_lemmas `{NLP} (text : string) : list string :=
  let doc := nlp (lower text) in
  lemma_ <$> filter (λ token, keep_token token = true) doc.

(** [preprocess_text] (l.26-29). *)
Definition preprocess_text `{NLP} (text : string) : string :=
  join " " (kept_lemmas text).

(** ** Lemmas *)

Section normalizer.
Context `{NLP}.

Lemma elem_of_kept_lemmas (text lemma : string) :
  lemma ∈ kept_lemmas text ↔
  ∃ token, token ∈ nlp (lower text) ∧ lemma_ token = lemma ∧
           is_stop token = false ∧ is_alpha token = true.
Proof.
  unfold kept_lemmas, keep_token. rewrite list_elem_of_fmap.
  setoid_rewrite list_elem_of_filter.
  setoid_rewrite andb_true_iff. setoid_rewrite negb_true_iff.
  split; [intros (token & -> & ? & ?) | intros (token & ? & <- & ?)];
    exists token; tauto.
Qed.

Lemma kept_lemmas_nil (text : string) :
  Forall (λ token, is_alpha token = false) (nlp (lower text)) →
  kept_lemmas text = [].
Proof.
  intros Hall. unfold kept_lemmas. apply fmap_nil_iff, filter_nil_iff.
  eapply Forall_impl; [exact Hall|]. intros token Ha. unfold keep_token.
  rewrite Ha, andb_false_r. done.
Qed.

(** [preprocess_text] reads its argument up to case: two texts with
    the same lowercased form have the same normal form. *)
#[export] Instance preprocess_text_caseless : Proper (caseless ==> eq) preprocess_text.
Proof. intros text text' Ht. unfold preprocess_text, kept_lemmas. by rewrite Ht. Qed.

Lemma kept_lemmas_words `{!LemmaLaws} (text : string) :
  Forall (λ w, is_word w = true) (kept_lemmas text).
Proof.
  apply Forall_forall. intros l (tok & Hin & <- & _ & Ha)%elem_of_kept_lemmas.
  by eapply nlp_lemma_word.
Qed.

(** C27: with a lemmatizer whose lemmas are words, the normal form can be
    read back: its runs of word characters are the lemmas that were kept,
    in order, so the join loses nothing and adds nothing. *)
Theorem preprocess_text_roundtrip `{!LemmaLaws} (text : string) :
  word_runs "" (preprocess_text text) = kept_lemmas text.
Proof. apply word_runs_join, kept_lemmas_words. Qed.

(** With a pipeline that analyses words one by one, the kept lemmas are
    words of letters. *)
Lemma kept_lemmas_alpha `{!WordLaws} (text : string) :
  Forall (λ w, alpha_word w = true) (kept_lemmas text).
Proof.
  apply Forall_forall. intros l (tok & Hin & <- & _ & Ha)%elem_of_kept_lemmas.
  by eapply nlp_lemma_alpha.
Qed.

(** The lemmas kept of a document that has one alphabetic token for each
    of the words [ws]: the lemmas of the words that are no stop words. *)
Lemma kept_of_words `{!WordLaws} (ws : list string) (doc : Doc) :
  Forall2 (λ w token, is_alpha token = true ∧ is_stop token = word_stop w
                      ∧ lemma_ token = word_lemma w) ws doc →
  lemma_ <$> filter (λ token, keep_token token = true) doc
  = word_lemma <$> filter (λ w, word_stop w = false) ws.
Proof.
  induction 1 as [|w token ws doc (Ha & Hs & Hl) _ IH]; [done|].
  assert (keep_token token = negb (word_stop w)) as Hk
    by (unfold keep_token; by rewrite Ha, Hs, andb_true_r).
  rewrite (filter_cons _ w), (filter_cons _ token), Hk.
  destruct (word_stop w); [by rewrite !decide_False | rewrite !decide_True by done].
  rewrite !fmap_cons, Hl. by f_equal.
Qed.

(** The lemmas kept of words of letters written with single spaces. *)
Lemma kept_lemmas_join `{!WordLaws} (ws : list string) :
  Forall (λ w, alpha_word w = true) ws →
  kept_lemmas (join " " ws)
  = word_lemma <$> filter (λ w, word_stop w = false) (lower <$> ws).
Proof.
  intros Hws. unfold kept_lemmas. rewrite lower_join. change (lower " ") with " ".
  apply kept_of_words, nlp_words, Forall_fmap.
  eapply Forall_impl; [done|]. intros w. cbn. by rewrite alpha_word_lower.
Qed.

(** C20: with a pipeline that analyses words one by one, normalizing a
    normal form gives it back exactly when every lemma that was kept of the
    text, read again in lower case, is no stop word and is its own lemma.
    The second pass filters and lemmatizes the lemmas of the first: a
    lemma that is a stop word is dropped, one that has another lemma is
    replaced, and then the two normal forms differ. *)
Theorem preprocess_text_idempotent `{!WordLaws} (text : string) :
  preprocess_text (preprocess_text text) = preprocess_text text ↔
  Forall (λ lemma, word_stop (lower lemma) = false ∧ word_lemma (lower lemma) = lemma)
    (kept_lemmas text).
Proof.
  rewrite <- (fmap_filter_fmap_id word_lemma lower (λ w, word_stop w = false)).
  rewrite <- kept_lemmas_join by apply kept_lemmas_alpha.
  split; [|unfold preprocess_text; by intros ->].
  apply join_words_inj; eapply Forall_impl;
    first [apply kept_lemmas_alpha | apply alpha_word_is_word].
Qed.

(** The lemma of every token of the lowercased text that is alphabetic
    and no stop word is written in the normal form. *)
Theorem preprocess_text_complete (text : string) (token : Token) :
  token ∈ nlp (lower text) → is_stop token = false → is_alpha token = true →
  lemma_ token ≼ preprocess_text text.
Proof.
  intros Hin Hstop Halpha. apply contains_spec, str_join_contains.
  apply elem_of_kept_lemmas. by exists token.
Qed.

(** A text in which the model finds no alphabetic token normalizes to
    the empty string: this is the case of a text of digits and
    punctuation. *)
Theorem preprocess_text_no_alpha (text : string) :
  Forall (λ token, is_alpha token = false) (nlp (lower text)) →
  preprocess_text text = "".
Proof. intros Hall. unfold preprocess_text. by rewrite kept_lemmas_nil. Qed.

End normalizer.

(** ** Concrete runs *)

(** A lexicon in which the lemma of a content word is a stop word. *)
Definition comparative_lexicon : list Entry :=
  [ MkEntry "better" "well" "ADV" false;
    MkEntry "well" "well" "ADV" true;
    MkEntry "teams" "team" "NOUN" false ].

(** A lexicon whose lemmas are no entries: "team" and "lead" are their
    own lemmas and no stop words. *)
Definition team_lexicon : list Entry :=
  [ MkEntry "teams" "team" "NOUN" false;
    MkEntry "led" "lead" "VERB" false;
    MkEntry "the" "the" "DET" true ].

(** With [team_lexicon] the normal form of a text is a normal form.  With
    [comparative_lexicon], which gives "better" the lemma "well" and counts
    "well" as a stop word, the normal form of "better teams" is none: it is
    "well team", which normalizes to "team". *)
Lemma preprocess_text_idempotent_witness :
  @preprocess_text (lexicon_nlp team_lexicon)
    (@preprocess_text (lexicon_nlp team_lexicon) "The TEAMS she led, the teams!")
  = @preprocess_text (lexicon_nlp team_lexicon) "The TEAMS she led, the teams!" ∧
  @preprocess_text (lexicon_nlp comparative_lexicon)
    (@preprocess_text (lexicon_nlp comparative_lexicon) "better teams")
  ≠ @preprocess_text (lexicon_nlp comparative_lexicon) "better teams".
Proof.
  split.
  - apply (@preprocess_text_idempotent (lexicon_nlp team_lexicon)
             (lexicon_word_laws team_lexicon eq_refl)).
    by_compute.
  - intros Hfix%(@preprocess_text_idempotent (lexicon_nlp comparative_lexicon)
                   (lexicon_word_laws comparative_lexicon eq_refl)).
    by apply Forall_cons_1 in Hfix as [[Hstop _] _].
Defined.

(** The two normal forms of the second case. *)
Lemma preprocess_text_twice :
  let normalize := @preprocess_text (lexicon_nlp comparative_lexicon) in
  normalize "better teams" = "well team" ∧
  normalize (normalize "better teams") = "team".
Proof. by vm_compute. Qed.

Lemma preprocess_text_roundtrip_witness :
  word_runs "" (@preprocess_text (lexicon_nlp comparative_lexicon)
                  "Better TEAMS, well led!")
  = ["well"; "team"; "led"].
Proof.
  rewrite (@preprocess_text_roundtrip (lexicon_nlp comparative_lexicon)
             (lexicon_nlp_lemma_laws comparative_lexicon eq_refl)).
  by vm_compute.
Defined.

Lemma preprocess_text_complete_witness :
  "team" ≼ @preprocess_text (lexicon_nlp comparative_lexicon) "Better TEAMS".
Proof.
  apply (@preprocess_text_complete (lexicon_nlp comparative_lexicon) "Better TEAMS"
           (MkToken "teams" "" "team" "NOUN" false true false)); [|done..].
  by_compute.
Defined.

Lemma preprocess_text_no_alpha_witness :
  @preprocess_text (lexicon_nlp comparative_lexicon) "2021-2024: 42 %" = "".
Proof.
  apply (@preprocess_text_no_alpha (lexicon_nlp comparative_lexicon)). by_compute.
Defined.

End Normalizer.
