(* ===== verification/Similarity.v ===== *)
(** * Similarity: [calculate_similarity_tfidf] ([src/app.py], l.31-35)

    The function fits a TF-IDF vectorizer on the two texts, turns the
    result into an array, computes the matrix of cosine similarities of its
    rows and returns the entry of the two texts, times 100.

    The vectorizer and the cosine are library code; they are modelled here
    from the library's documented behaviour with its default parameters:

    - a text is lowercased and cut into its maximal runs of word characters
      (letters, digits, underscore); runs of one character are dropped;
    - the vocabulary is the set of the terms of the two texts; fitting
      raises [ValueError] when it is empty;
    - the weight of a term in a text is its number of occurrences times
      [ln ((1 + n) / (1 + df)) + 1], where [n] is the number of texts and
      [df] the number of texts the term occurs in;
    - the row of a text is divided by its Euclidean norm, unless the norm is
      zero;
    - the cosine normalizes the rows once more and takes their dot product.

    The numbers are real numbers: the model is the exact value that the
    floating-point computation approximates, and the theorems are about
    that value.  The vocabulary is kept as a duplicate-free list in order
    of first occurrence; the library sorts it, and no result depends on the
    order (sums over the vocabulary are invariant under permutation).

    The theorems: the function raises exactly when neither text has a
    term; otherwise its result is 100 times the cosine of the two rows of
    weights ([cosine], the dot product over the product of the norms: the
    two normalizations of the library change nothing), lies between 0 and
    100, is symmetric in the two texts, depends on each text through its
    bag of terms only ([same_terms]) and does not change when a text is
    repeated ([calculate_similarity_tfidf_repeat]), is 0 exactly for texts with no
    common term and 100 exactly for texts whose terms are in proportion
    ([proportional]): the equality case of the inequality of Cauchy and
    Schwarz, read on the counts of the terms.  The terms of a text of
    words joined by spaces are these words, lowercased, without those of
    one character.  [near_match] is a pair of texts whose similarity is
    below 100 by less than 0.005, and [far_match] a pair of texts with a
    common term whose similarity is below 0.005. *)

From Stdlib Require Import Ascii String Reals Lra.
From stdpp Require Import base tactics option list strings.
From S2P Require Import Prelude PyStr.

Module Similarity.
Import PyStr.

(** ** Tokens and counts *)

(** The analyzer of the vectorizer: lowercase, then the runs of at least
    two word characters (the matches of [\b\w\w+\b]). *)
Definition sk_tokenize (doc : string) : list string :=
  filter (λ w, (2 ≤ String.length w)%nat) (word_runs "" (lower doc)).

(** Two texts with the same terms, each as many times. *)
Definition same_terms (a b : string) : Prop := sk_tokenize a ≡ₚ sk_tokenize b.

(** The number of occurrences of a term in a tokenized text. *)
Definition term_count (term : string) (tokens : list string) : nat :=
  length (filter (λ w, w = term) tokens).

(** The number of texts a term occurs in. *)
Definition doc_freq (term : string) (docs : list (list string)) : nat :=
  length (filter (λ tokens, term ∈ tokens) docs).

(** The terms of the texts, once each. *)
Definition vocabulary (docs : list (list string)) : list string :=
  remove_dups (mjoin docs).

Local Open Scope R_scope.

(** ** Weights and vectors

    A vector is a function from terms to numbers, read on the vocabulary. *)

(** The smoothed inverse document frequency. *)
Definition idf (n df : nat) : R := ln ((1 + INR n) / (1 + INR df)) + 1.

(** The weight of a term in a text before normalization. *)
Definition tfidf (docs : list (list string)) (tokens : list string)
    (term : string) : R :=
  INR (term_count term tokens) * idf (length docs) (doc_freq term docs).

(** The sum of the values of a function over the vocabulary. *)
Definition Rsum (V : list string) (f : string → R) : R :=
  foldr (λ term acc, f term + acc) 0 V.

Definition sq_norm (V : list string) (f : string → R) : R :=
  Rsum V (λ term, f term * f term).

Definition l2_norm (V : list string) (f : string → R) : R := sqrt (sq_norm V f).

(** Division of a row by its norm; a row of norm zero is left as it is. *)
Definition normalize (V : list string) (f : string → R) : string → R :=
  λ term, if Req_dec_T (l2_norm V f) 0 then f term else f term / l2_norm V f.

(** The row of a text in the matrix the vectorizer returns. *)
Definition tfidf_vector (docs : list (list string)) (V : list string)
    (tokens : list string) : string → R :=
  normalize V (tfidf docs tokens).

(** The entry of two rows in the matrix of cosine similarities. *)
Definition cosine_similarity (V : list string) (u v : string → R) : R :=
  Rsum V (λ term, normalize V u term * normalize V v term).

(** The reference: the cosine of the angle of two vectors, their dot
    product over the product of their norms, and 0 when one of them is
    zero. *)
Definition cosine (V : list string) (u v : string → R) : R :=
  if Req_dec_T (l2_norm V u * l2_norm V v) 0 then 0
  else Rsum V (λ term, u term * v term) / (l2_norm V u * l2_norm V v).

(** The exception of fitting on texts without terms. *)
Definition empty_vocabulary : exn :=
  Exn "ValueError" "empty vocabulary; perhaps the documents only contain stop words".

(** ** The code *)

(** [calculate_similarity_tfidf] (l.31-35). *)
Definition calculate_similarity_tfidf (resume job_desc : string) : result R :=
  let docs := [sk_tokenize resume; sk_tokenize job_desc] in
  let V := vocabulary docs in
  if decide (V = []) then Raise empty_vocabulary
  else
    let vectors := tfidf_vector docs V <$> docs in
    match vectors with
    | [row0; row1] => Ok (cosine_similarity V row0 row1 * 100)
    | _ => Raise (Exn "IndexError" "index out of bounds")
    end.

(** ** Sums over the vocabulary *)

Lemma Rsum_nil (f : string → R) : Rsum [] f = 0.
Proof. reflexivity. Qed.

Lemma Rsum_cons (t : string) (V : list string) (f : string → R) :
  Rsum (t :: V) f = f t + Rsum V f.
Proof. reflexivity. Qed.

Lemma Rsum_ext (V : list string) (f g : string → R) :
  (∀ t, t ∈ V → f t = g t) → Rsum V f = Rsum V g.
Proof.
  induction V as [|t V IH]; intros Hfg; [done|].
  rewrite !Rsum_cons, (Hfg t) by apply list_elem_of_here.
  rewrite IH; [done|]. intros t' Ht'. by apply Hfg, list_elem_of_further.
Qed.

Lemma Rsum_perm (V V' : list string) (f : string → R) :
  V ≡ₚ V' → Rsum V f = Rsum V' f.
Proof.
  induction 1 as [|t V V' _ IH|t t' V|V V' V'' _ IH1 _ IH2];
    rewrite ?Rsum_cons; [done | by rewrite IH | lra | congruence].
Qed.

#[export] Instance Rsum_proper :
  Proper ((≡ₚ) ==> pointwise_relation string (=) ==> (=)) Rsum.
Proof.
  intros V V' HV f g Hfg. rewrite (Rsum_perm V V') by done.
  apply Rsum_ext. intros t _. apply Hfg.
Qed.

Lemma Rsum_nonneg (V : list string) (f : string → R) :
  (∀ t, t ∈ V → 0 <= f t) → 0 <= Rsum V f.
Proof.
  induction V as [|t V IH]; intros Hf; [rewrite Rsum_nil; lra|].
  rewrite Rsum_cons.
  pose proof (Hf t (list_elem_of_here t V)).
  pose proof (IH (λ t' Ht', Hf t' (list_elem_of_further t' t V Ht'))). lra.
Qed.

Lemma Rsum_scal (V : list string) (c : R) (f : string → R) :
  Rsum V (λ t, c * f t) = c * Rsum V f.
Proof.
  induction V as [|t V IH]; [rewrite !Rsum_nil; lra|].
  rewrite !Rsum_cons, IH. lra.
Qed.

Lemma Rsum_zero (V : list string) (f : string → R) :
  (∀ t, t ∈ V → f t = 0) → Rsum V f = 0.
Proof.
  induction V as [|t V IH]; intros Hf; [done|].
  rewrite Rsum_cons, (Hf t) by apply list_elem_of_here.
  rewrite IH; [lra|]. intros t' Ht'. by apply Hf, list_elem_of_further.
Qed.

Lemma Rsum_pos (V : list string) (f : string → R) (t0 : string) :
  (∀ t, t ∈ V → 0 <= f t) → t0 ∈ V → 0 < f t0 → 0 < Rsum V f.
Proof.
  intros Hf Hin Hpos. apply list_elem_of_split in Hin as (V1 & V2 & ->).
  rewrite (Rsum_perm _ (t0 :: V1 ++ V2)) by by rewrite Permutation_middle.
  rewrite Rsum_cons.
  assert (0 <= Rsum (V1 ++ V2) f); [|lra].
  apply Rsum_nonneg.
  intros t [Ht|Ht]%elem_of_app; apply Hf; rewrite elem_of_app, elem_of_cons; auto.
Qed.

Lemma Rsum_eq_0 (V : list string) (f : string → R) :
  (∀ t, t ∈ V → 0 <= f t) → Rsum V f = 0 → ∀ t, t ∈ V → f t = 0.
Proof.
  intros Hf Hsum t Hin. destruct (Rle_lt_or_eq_dec _ _ (Hf t Hin)) as [Hpos|]; [|done].
  pose proof (Rsum_pos V f t Hf Hin Hpos). lra.
Qed.

Lemma sq_nonneg (x : R) : 0 <= x * x.
Proof. nra. Qed.

Lemma sq_le (x y : R) : 0 <= y → x * x <= y * y → x <= y.
Proof. intros. nra. Qed.

(** The inequality of Cauchy and Schwarz, one more term at a time. *)
Lemma cauchy_schwarz_step (A B C a b : R) :
  0 <= A → 0 <= B → C * C <= A * B →
  (a * b + C) * (a * b + C) <= (a * a + A) * (b * b + B).
Proof.
  intros HA HB HC.
  pose proof (sq_nonneg a). pose proof (sq_nonneg b).
  pose proof (sq_nonneg (a * b)) as H1.
  pose proof (Rmult_le_compat_l _ _ _ H1 HC).
  pose proof (sq_nonneg (A * (b * b) - (a * a) * B)).
  assert (2 * (a * b) * C <= A * (b * b) + (a * a) * B).
  { apply sq_le; [nra | lra]. }
  lra.
Qed.

Lemma sq_norm_nonneg (V : list string) (f : string → R) : 0 <= sq_norm V f.
Proof. apply Rsum_nonneg. intros t _. apply sq_nonneg. Qed.

Lemma cauchy_schwarz (V : list string) (f g : string → R) :
  Rsum V (λ t, f t * g t) * Rsum V (λ t, f t * g t) <= sq_norm V f * sq_norm V g.
Proof.
  unfold sq_norm. induction V as [|t V IH]; [rewrite !Rsum_nil; lra|].
  rewrite !Rsum_cons.
  apply cauchy_schwarz_step; [apply sq_norm_nonneg .. | exact IH].
Qed.

(** ** Norms *)

Lemma l2_norm_nonneg (V : list string) (f : string → R) : 0 <= l2_norm V f.
Proof. apply sqrt_pos. Qed.

Lemma l2_norm_sq (V : list string) (f : string → R) :
  l2_norm V f * l2_norm V f = sq_norm V f.
Proof. apply sqrt_sqrt, sq_norm_nonneg. Qed.

Lemma l2_norm_0_sq (V : list string) (f : string → R) :
  l2_norm V f = 0 ↔ sq_norm V f = 0.
Proof.
  split; [intros H0; rewrite <- l2_norm_sq, H0; lra|].
  unfold l2_norm. intros ->. apply sqrt_0.
Qed.

Lemma l2_norm_0_iff (V : list string) (f : string → R) :
  l2_norm V f = 0 ↔ ∀ t, t ∈ V → f t = 0.
Proof.
  rewrite l2_norm_0_sq. split.
  - intros Hsq t Hin.
    pose proof (Rsum_eq_0 V _ (λ t _, sq_nonneg (f t)) Hsq t Hin) as Ht.
    simpl in Ht. nra.
  - intros Hf. apply Rsum_zero. intros t Hin. rewrite (Hf t Hin). lra.
Qed.

Lemma l2_norm_perm (V V' : list string) (f : string → R) :
  V ≡ₚ V' → l2_norm V f = l2_norm V' f.
Proof. intros HV. unfold l2_norm, sq_norm. by rewrite (Rsum_perm V V'). Qed.

Lemma normalize_zero (V : list string) (f : string → R) (t : string) :
  l2_norm V f = 0 → normalize V f t = f t.
Proof. intros H0. unfold normalize. by destruct (Req_dec_T (l2_norm V f) 0). Qed.

Lemma normalize_nonzero (V : list string) (f : string → R) (t : string) :
  l2_norm V f ≠ 0 → normalize V f t = f t / l2_norm V f.
Proof. intros H0. unfold normalize. by destruct (Req_dec_T (l2_norm V f) 0). Qed.

Lemma normalize_perm (V V' : list string) (f : string → R) (t : string) :
  V ≡ₚ V' → normalize V f t = normalize V' f t.
Proof. intros HV. unfold normalize. by rewrite (l2_norm_perm V V'). Qed.

Lemma normalize_nonneg (V : list string) (f : string → R) (t : string) :
  0 <= f t → 0 <= normalize V f t.
Proof.
  intros Hf. unfold normalize. destruct (Req_dec_T (l2_norm V f) 0); [done|].
  pose proof (l2_norm_nonneg V f). unfold Rdiv.
  apply Rmult_le_pos; [done|]. left. apply Rinv_0_lt_compat. lra.
Qed.

Lemma normalize_eq_0 (V : list string) (f : string → R) (t : string) :
  f t = 0 → normalize V f t = 0.
Proof.
  intros Hf. unfold normalize. rewrite Hf.
  destruct (Req_dec_T (l2_norm V f) 0); [done|]. unfold Rdiv. lra.
Qed.

(** A normalized row has norm 1, or 0 when the row itself had norm 0. *)
Lemma sq_norm_normalize (V : list string) (f : string → R) :
  sq_norm V (normalize V f) = if Req_dec_T (l2_norm V f) 0 then 0 else 1.
Proof.
  destruct (Req_dec_T (l2_norm V f) 0) as [H0|H0].
  - apply l2_norm_0_sq. apply l2_norm_0_iff. intros t Hin.
    rewrite normalize_zero by done. by apply l2_norm_0_iff with V.
  - unfold sq_norm.
    rewrite (Rsum_ext _ _ (λ t, / (l2_norm V f * l2_norm V f) * (f t * f t))).
    + rewrite Rsum_scal. fold (sq_norm V f). rewrite l2_norm_sq.
      apply Rinv_l. rewrite <- l2_norm_sq. nra.
    + intros t _. rewrite normalize_nonzero by done. by field.
Qed.

Lemma sq_norm_normalize_le (V : list string) (f : string → R) :
  sq_norm V (normalize V f) <= 1.
Proof. rewrite sq_norm_normalize. destruct (Req_dec_T _ _); lra. Qed.

(** Normalizing twice is normalizing once. *)
Lemma normalize_idemp (V : list string) (f : string → R) (t : string) :
  normalize V (normalize V f) t = normalize V f t.
Proof.
  destruct (Req_dec_T (l2_norm V (normalize V f)) 0) as [H0|H0];
    [by apply normalize_zero|].
  rewrite (normalize_nonzero V (normalize V f)) by done.
  assert (l2_norm V (normalize V f) = 1) as ->; [|by field].
  unfold l2_norm in *. rewrite sq_norm_normalize in *.
  destruct (Req_dec_T _ _); [by rewrite sqrt_0 in H0 | apply sqrt_1].
Qed.

Lemma normalize_ext (V : list string) (f g : string → R) (t : string) :
  (∀ t', f t' = g t') → normalize V f t = normalize V g t.
Proof.
  intros Hfg. unfold normalize, l2_norm, sq_norm.
  rewrite (Rsum_ext V _ (λ t', g t' * g t')) by (intros; by rewrite Hfg).
  by rewrite Hfg.
Qed.

(** ** Cosines *)

Lemma normalize_pos (V : list string) (f : string → R) (t : string) :
  0 < f t → 0 < normalize V f t.
Proof.
  intros Hpos. destruct (Req_dec_T (l2_norm V f) 0) as [H0|Hne].
  - by rewrite normalize_zero.
  - rewrite normalize_nonzero by done. pose proof (l2_norm_nonneg V f).
    apply Rmult_lt_0_compat; [done|]. apply Rinv_0_lt_compat. lra.
Qed.

Lemma cosine_similarity_ext (V : list string) (u u' v v' : string → R) :
  (∀ t, u t = u' t) → (∀ t, v t = v' t) →
  cosine_similarity V u v = cosine_similarity V u' v'.
Proof.
  intros Hu Hv. apply Rsum_ext. intros t _.
  by rewrite (normalize_ext V u u'), (normalize_ext V v v').
Qed.

Lemma cosine_similarity_sym (V : list string) (u v : string → R) :
  cosine_similarity V u v = cosine_similarity V v u.
Proof. apply Rsum_ext. intros t _. lra. Qed.

Lemma cosine_similarity_perm (V V' : list string) (u v : string → R) :
  V ≡ₚ V' → cosine_similarity V u v = cosine_similarity V' u v.
Proof.
  intros HV. unfold cosine_similarity. rewrite (Rsum_perm V V') by done.
  apply Rsum_ext. intros t _. by rewrite !(normalize_perm V V').
Qed.

Lemma cosine_similarity_range (V : list string) (u v : string → R) :
  (∀ t, 0 <= u t) → (∀ t, 0 <= v t) → 0 <= cosine_similarity V u v <= 1.
Proof.
  intros Hu Hv. unfold cosine_similarity.
  assert (0 <= Rsum V (λ t, normalize V u t * normalize V v t)) as Hpos.
  { apply Rsum_nonneg. intros t _. apply Rmult_le_pos; by apply normalize_nonneg. }
  split; [done|]. apply sq_le; [lra|].
  pose proof (cauchy_schwarz V (normalize V u) (normalize V v)).
  pose proof (sq_norm_normalize_le V u). pose proof (sq_norm_normalize_le V v).
  pose proof (sq_norm_nonneg V (normalize V u)).
  pose proof (sq_norm_nonneg V (normalize V v)). nra.
Qed.

Lemma cosine_similarity_self (V : list string) (w : string → R) :
  l2_norm V w ≠ 0 → cosine_similarity V (normalize V w) (normalize V w) = 1.
Proof.
  intros H0. unfold cosine_similarity.
  rewrite (Rsum_ext _ _ (λ t, normalize V w t * normalize V w t))
    by (intros t _; by rewrite normalize_idemp).
  fold (sq_norm V (normalize V w)). rewrite sq_norm_normalize.
  by destruct (Req_dec_T _ _).
Qed.

Lemma cosine_similarity_0 (V : list string) (u v : string → R) :
  (∀ t, t ∈ V → u t = 0 ∨ v t = 0) → cosine_similarity V u v = 0.
Proof.
  intros Huv. apply Rsum_zero. intros t Hin.
  destruct (Huv t Hin) as [H0|H0];
    rewrite (normalize_eq_0 _ _ _ H0); lra.
Qed.

(** The two normalizations, of the vectorizer and of the cosine
    similarity, give the cosine of the rows of weights. *)
Lemma cosine_similarity_normalize (V : list string) (u v : string → R) :
  cosine_similarity V (normalize V u) (normalize V v) = cosine V u v.
Proof.
  unfold cosine_similarity, cosine.
  destruct (Req_dec_T (l2_norm V u * l2_norm V v) 0) as [H0|H0].
  - apply Rsum_zero. intros t Hin. rewrite !normalize_idemp.
    apply Rmult_integral in H0 as [H0|H0];
      rewrite (normalize_zero _ _ _ H0), (proj1 (l2_norm_0_iff _ _) H0 t Hin); lra.
  - assert (l2_norm V u ≠ 0 ∧ l2_norm V v ≠ 0) as [Hu Hv] by (split; intros Hz; nra).
    rewrite (Rsum_ext _ _ (λ t, / (l2_norm V u * l2_norm V v) * (u t * v t))).
    + rewrite Rsum_scal. by field.
    + intros t _. rewrite !normalize_idemp, !normalize_nonzero by done. by field.
Qed.

(** ** The terms of a text of words

    The normalizer joins words with single spaces; the analyzer of the
    vectorizer finds these words again, lowercased, and drops those of one
    character. *)

Lemma sk_tokenize_join (ws : list string) :
  Forall (λ w, is_word w = true) ws →
  sk_tokenize (join " " ws)
  = filter (λ w, (2 ≤ String.length w)%nat) (lower <$> ws).
Proof.
  intros Hws. unfold sk_tokenize. rewrite lower_join. f_equal.
  apply word_runs_join, Forall_fmap. eapply Forall_impl; [exact Hws|].
  intros w Hw. cbn. by rewrite is_word_lower.
Qed.

(** ** Counts and weights *)

Lemma term_count_0 (t : string) (tokens : list string) :
  t ∉ tokens → term_count t tokens = 0%nat.
Proof.
  intros Hnin. unfold term_count. apply length_zero_iff_nil, filter_nil_iff.
  apply Forall_forall. by intros w Hw ->.
Qed.

Lemma term_count_pos (t : string) (tokens : list string) :
  t ∈ tokens → (1 ≤ term_count t tokens)%nat.
Proof.
  intros (l1 & l2 & ->)%list_elem_of_split. unfold term_count.
  rewrite filter_app, filter_cons, decide_True, length_app by done. simpl. lia.
Qed.

Lemma doc_freq_le (t : string) (docs : list (list string)) :
  (doc_freq t docs ≤ length docs)%nat.
Proof. apply length_filter. Qed.

Lemma doc_freq_perm (t : string) (docs docs' : list (list string)) :
  docs ≡ₚ docs' → doc_freq t docs = doc_freq t docs'.
Proof. intros Hd. unfold doc_freq. by rewrite Hd. Qed.

Lemma idf_ge_1 (n df : nat) : (df ≤ n)%nat → 1 <= idf n df.
Proof.
  intros Hle%le_INR. unfold idf. pose proof (pos_INR df).
  assert (1 <= (1 + INR n) / (1 + INR df)) as H1.
  { apply (Rmult_le_reg_r (1 + INR df)); [lra|]. field_simplify; lra. }
  destruct (Req_dec_T ((1 + INR n) / (1 + INR df)) 1) as [->|Hne].
  - rewrite ln_1. lra.
  - assert (ln 1 < ln ((1 + INR n) / (1 + INR df))); [|rewrite ln_1 in *; lra].
    apply ln_increasing; lra.
Qed.

Lemma tfidf_nonneg (docs : list (list string)) (tokens : list string) (t : string) :
  0 <= tfidf docs tokens t.
Proof.
  unfold tfidf. pose proof (idf_ge_1 _ _ (doc_freq_le t docs)).
  apply Rmult_le_pos; [apply pos_INR | lra].
Qed.

Lemma tfidf_eq_0 (docs : list (list string)) (tokens : list string) (t : string) :
  t ∉ tokens → tfidf docs tokens t = 0.
Proof. intros Hnin. unfold tfidf. rewrite term_count_0 by done. simpl. lra. Qed.

Lemma tfidf_pos (docs : list (list string)) (tokens : list string) (t : string) :
  t ∈ tokens → 1 <= tfidf docs tokens t.
Proof.
  intros Hin%term_count_pos%le_INR. unfold tfidf.
  pose proof (idf_ge_1 _ _ (doc_freq_le t docs)).
  change (INR 1) with 1 in Hin. nra.
Qed.

Lemma tfidf_perm (docs docs' : list (list string)) (tokens : list string) (t : string) :
  docs ≡ₚ docs' → tfidf docs tokens t = tfidf docs' tokens t.
Proof.
  intros Hd. unfold tfidf. by rewrite (doc_freq_perm t docs docs'), Hd.
Qed.

Lemma elem_of_vocabulary (t : string) (docs : list (list string)) :
  t ∈ vocabulary docs ↔ ∃ tokens, tokens ∈ docs ∧ t ∈ tokens.
Proof.
  unfold vocabulary. rewrite elem_of_remove_dups, list_elem_of_join.
  split; intros (tokens & ? & ?); by exists tokens.
Qed.

Lemma vocabulary_nil_iff (tokens0 tokens1 : list string) :
  vocabulary [tokens0; tokens1] = [] ↔ tokens0 = [] ∧ tokens1 = [].
Proof.
  unfold vocabulary. simpl. rewrite app_nil_r. split.
  - intros Hnil. apply app_eq_nil.
    destruct (tokens0 ++ tokens1) as [|t l] eqn:Heq; [done|].
    assert (t ∈ remove_dups (t :: l)) as Hin
      by (apply elem_of_remove_dups, list_elem_of_here).
    rewrite Hnil in Hin. by apply elem_of_nil in Hin.
  - by intros [-> ->].
Qed.

Lemma vocabulary_perm (docs docs' : list (list string)) :
  docs ≡ₚ docs' → vocabulary docs ≡ₚ vocabulary docs'.
Proof.
  intros Hd. apply NoDup_Permutation; [apply NoDup_remove_dups..|].
  intros t. rewrite !elem_of_vocabulary. by setoid_rewrite Hd.
Qed.

Lemma l2_norm_tfidf_pos (docs : list (list string)) (tokens : list string)
    (t : string) :
  t ∈ tokens → t ∈ vocabulary docs → l2_norm (vocabulary docs) (tfidf docs tokens) ≠ 0.
Proof.
  intros Hin HV H0. rewrite l2_norm_0_iff in H0.
  pose proof (tfidf_pos docs tokens t Hin). rewrite (H0 t HV) in *. lra.
Qed.

Lemma l2_norm_tfidf_nonempty (docs : list (list string)) (tokens : list string) :
  tokens ≠ [] → tokens ∈ docs → l2_norm (vocabulary docs) (tfidf docs tokens) ≠ 0.
Proof.
  intros Hne Hin. destruct tokens as [|t rest]; [done|].
  apply (l2_norm_tfidf_pos _ _ t); [apply list_elem_of_here|].
  apply elem_of_vocabulary. exists (t :: rest). split; [done | apply list_elem_of_here].
Qed.

(** ** The function *)

(** C7: [calculate_similarity_tfidf] raises [ValueError] exactly when
    neither text has a term of two word characters or more; otherwise it
    returns a number between 0 and 100. *)
Theorem calculate_similarity_tfidf_total (resume job_desc : string) :
  match calculate_similarity_tfidf resume job_desc with
  | Raise e =>
      e = empty_vocabulary ∧ sk_tokenize resume = [] ∧ sk_tokenize job_desc = []
  | Ok score =>
      0 <= score <= 100 ∧ ¬ (sk_tokenize resume = [] ∧ sk_tokenize job_desc = [])
  end.
Proof.
  unfold calculate_similarity_tfidf. cbv zeta.
  case_decide as HV; rewrite vocabulary_nil_iff in HV; [done|].
  cbn [fmap list_fmap]. split; [|done].
  match goal with
  | |- context [cosine_similarity ?V ?u ?v] =>
      destruct (cosine_similarity_range V u v) as [? ?];
        [intros; apply normalize_nonneg, tfidf_nonneg ..|]
  end. lra.
Qed.

(** The function in the form the lemmas rewrite with. *)
Lemma calculate_similarity_tfidf_eq (resume job_desc : string) :
  calculate_similarity_tfidf resume job_desc =
  let docs := [sk_tokenize resume; sk_tokenize job_desc] in
  let V := vocabulary docs in
  if decide (V = []) then Raise empty_vocabulary
  else Ok (cosine_similarity V (tfidf_vector docs V (sk_tokenize resume))
                               (tfidf_vector docs V (sk_tokenize job_desc)) * 100).
Proof. reflexivity. Qed.

Lemma tfidf_vector_perm (docs docs' : list (list string)) (tokens : list string)
    (t : string) :
  docs ≡ₚ docs' →
  tfidf_vector docs (vocabulary docs) tokens t
  = tfidf_vector docs' (vocabulary docs') tokens t.
Proof.
  intros Hd. unfold tfidf_vector.
  rewrite (normalize_perm _ _ _ _ (vocabulary_perm _ _ Hd)).
  apply normalize_ext. intros t'. by apply tfidf_perm.
Qed.

Lemma tfidf_vector_nonneg (docs : list (list string)) (V tokens : list string)
    (t : string) :
  0 <= tfidf_vector docs V tokens t.
Proof. apply normalize_nonneg, tfidf_nonneg. Qed.

(** *** Bags of words

    The weights count the terms of a text and never look at their order:
    texts with the same terms, each as many times, are the same text to the
    function. *)

#[export] Instance same_terms_equiv : Equivalence same_terms.
Proof.
  unfold same_terms.
  split; [by intros a | by intros a b ? | intros a b c ? ?; by etrans].
Qed.

Lemma same_terms_lower (text : string) : same_terms (lower text) text.
Proof. unfold same_terms, sk_tokenize. by rewrite lower_idemp. Qed.

#[export] Instance term_count_perm (t : string) :
  Proper ((≡ₚ) ==> eq) (term_count t).
Proof. intros a a' Ha. unfold term_count. by rewrite Ha. Qed.

Lemma doc_freq_bags (t : string) (docs docs' : list (list string)) :
  Forall2 (≡ₚ) docs docs' → doc_freq t docs = doc_freq t docs'.
Proof.
  unfold doc_freq. induction 1 as [|a a' docs docs' Ha _ IH]; [done|].
  rewrite !filter_cons.
  destruct (decide (t ∈ a)) as [Hin|Hnin];
    [rewrite decide_True by by rewrite <- Ha
    |rewrite decide_False by by rewrite <- Ha]; simpl; by rewrite IH.
Qed.

Lemma vocabulary_bags (docs docs' : list (list string)) :
  Forall2 (≡ₚ) docs docs' → vocabulary docs ≡ₚ vocabulary docs'.
Proof.
  intros Hd. apply NoDup_Permutation; [apply NoDup_remove_dups..|].
  intros t. unfold vocabulary. rewrite !elem_of_remove_dups.
  assert (mjoin docs ≡ₚ mjoin docs') as ->; [|done].
  induction Hd as [|a a' docs docs' Ha _ IH]; [done|].
  change (a ++ mjoin docs ≡ₚ a' ++ mjoin docs'). by rewrite Ha, IH.
Qed.

Lemma tfidf_bags (docs docs' : list (list string)) (tokens tokens' : list string)
    (t : string) :
  Forall2 (≡ₚ) docs docs' → tokens ≡ₚ tokens' →
  tfidf docs tokens t = tfidf docs' tokens' t.
Proof.
  intros Hd Ht. unfold tfidf.
  by rewrite (doc_freq_bags t docs docs' Hd), (Forall2_length _ _ _ Hd), Ht.
Qed.

Lemma tfidf_vector_bags (docs docs' : list (list string))
    (tokens tokens' : list string) (t : string) :
  Forall2 (≡ₚ) docs docs' → tokens ≡ₚ tokens' →
  tfidf_vector docs (vocabulary docs) tokens t
  = tfidf_vector docs' (vocabulary docs') tokens' t.
Proof.
  intros Hd Ht. unfold tfidf_vector.
  rewrite (normalize_perm _ _ _ _ (vocabulary_bags _ _ Hd)).
  apply normalize_ext. intros t'. by apply tfidf_bags.
Qed.

#[export] Instance calculate_similarity_tfidf_bags :
  Proper (same_terms ==> same_terms ==> eq) calculate_similarity_tfidf.
Proof.
  intros a a' Ha b b' Hb. rewrite !calculate_similarity_tfidf_eq. cbv zeta.
  assert (Forall2 (≡ₚ) [sk_tokenize a; sk_tokenize b]
            [sk_tokenize a'; sk_tokenize b']) as Hd by by repeat constructor.
  pose proof (vocabulary_bags _ _ Hd) as HV.
  destruct (decide (vocabulary [sk_tokenize a; sk_tokenize b] = [])) as [Hnil|Hne].
  - rewrite decide_True; [done|]. rewrite Hnil in HV.
    by apply Permutation_nil_l in HV.
  - rewrite decide_False.
    2:{ intros Hnil. rewrite Hnil in HV. by apply Permutation_nil_r in HV. }
    do 2 f_equal. rewrite (cosine_similarity_perm _ _ _ _ HV).
    apply cosine_similarity_ext; intros t; by apply tfidf_vector_bags.
Qed.

(** A text against itself. *)
Lemma similarity_self (text : string) :
  sk_tokenize text ≠ [] → calculate_similarity_tfidf text text = Ok 100.
Proof.
  intros Hne. rewrite calculate_similarity_tfidf_eq. cbv zeta.
  rewrite decide_False by (rewrite vocabulary_nil_iff; tauto).
  unfold tfidf_vector. rewrite cosine_similarity_self; [f_equal; lra|].
  apply l2_norm_tfidf_nonempty; [done | apply list_elem_of_here].
Qed.

Lemma calculate_similarity_tfidf_dec (resume job_desc : string) :
  match calculate_similarity_tfidf resume job_desc with
  | Raise e =>
      e = empty_vocabulary ∧ sk_tokenize resume = [] ∧ sk_tokenize job_desc = []
  | Ok _ => ¬ (sk_tokenize resume = [] ∧ sk_tokenize job_desc = [])
  end.
Proof.
  rewrite calculate_similarity_tfidf_eq. cbv zeta.
  by case_decide as HV; rewrite vocabulary_nil_iff in HV.
Qed.

(** A similarity is a percentage. *)
Lemma similarity_range (resume job_desc : string) (score : R) :
  calculate_similarity_tfidf resume job_desc = Ok score → 0 <= score <= 100.
Proof.
  rewrite calculate_similarity_tfidf_eq. cbv zeta. case_decide; [done|].
  intros [= <-].
  match goal with
  | |- context [cosine_similarity ?V ?u ?v] =>
      destruct (cosine_similarity_range V u v) as [? ?];
        [intros; apply tfidf_vector_nonneg ..|]
  end. lra.
Qed.

(** The two texts can change places. *)
Lemma similarity_sym (resume job_desc : string) :
  calculate_similarity_tfidf resume job_desc
  = calculate_similarity_tfidf job_desc resume.
Proof.
  rewrite !calculate_similarity_tfidf_eq. cbv zeta.
  set (a := sk_tokenize resume). set (b := sk_tokenize job_desc).
  assert ([a; b] ≡ₚ [b; a]) as Hd by apply perm_swap.
  pose proof (vocabulary_perm _ _ Hd) as HV.
  destruct (decide (vocabulary [a; b] = [])) as [Hnil|Hne].
  - rewrite decide_True; [done|].
    apply vocabulary_nil_iff. apply vocabulary_nil_iff in Hnil. tauto.
  - rewrite decide_False.
    2:{ rewrite vocabulary_nil_iff in *. tauto. }
    f_equal. f_equal.
    rewrite cosine_similarity_sym, (cosine_similarity_perm _ _ _ _ HV).
    apply cosine_similarity_ext; intros t; by apply tfidf_vector_perm.
Qed.

(** C28: the similarity is symmetric in the two texts, the exception
    included. *)
Theorem calculate_similarity_tfidf_sym (resume job_desc : string) :
  calculate_similarity_tfidf resume job_desc
  = calculate_similarity_tfidf job_desc resume.
Proof. apply similarity_sym. Qed.

(** The similarity is 100 times the cosine of the rows of weights. *)
Lemma similarity_cosine (resume job_desc : string) :
  calculate_similarity_tfidf resume job_desc =
  let docs := [sk_tokenize resume; sk_tokenize job_desc] in
  let V := vocabulary docs in
  if decide (V = []) then Raise empty_vocabulary
  else Ok (cosine V (tfidf docs (sk_tokenize resume))
                    (tfidf docs (sk_tokenize job_desc)) * 100).
Proof.
  rewrite calculate_similarity_tfidf_eq. cbv zeta. case_decide; [done|].
  unfold tfidf_vector. by rewrite cosine_similarity_normalize.
Qed.

(** C15: the function computes the cosine of the textbook.  The
    vectorizer divides each row of weights by its norm and the cosine
    similarity of the library normalizes the rows once more; the result is
    100 times the dot product of the two rows of weights over the product
    of their norms, and 0 when one text has no term. *)
Theorem calculate_similarity_tfidf_cosine (resume job_desc : string) (score : R) :
  calculate_similarity_tfidf resume job_desc = Ok score →
  let docs := [sk_tokenize resume; sk_tokenize job_desc] in
  let V := vocabulary docs in
  let u := tfidf docs (sk_tokenize resume) in
  let v := tfidf docs (sk_tokenize job_desc) in
  (l2_norm V u = 0 ∨ l2_norm V v = 0 → score = 0) ∧
  (l2_norm V u ≠ 0 → l2_norm V v ≠ 0 →
   score = 100 * Rsum V (λ term, u term * v term) / (l2_norm V u * l2_norm V v)).
Proof.
  rewrite similarity_cosine. cbv zeta. case_decide; [done|]. intros [= <-].
  unfold cosine. destruct (Req_dec_T _ _) as [H0|H0]; split.
  - intros _. lra.
  - intros Hu Hv. apply Rmult_integral in H0. tauto.
  - intros [Hz|Hz]; rewrite Hz in H0; lra.
  - intros _ _. unfold Rdiv. lra.
Qed.

(** Two texts with the same terms, each as many times, in whatever
    order and case, have similarity 100, provided they have a term: in
    particular a text with a term has similarity 100 with itself. *)
Theorem calculate_similarity_tfidf_self (resume job_desc : string) :
  same_terms resume job_desc → sk_tokenize resume ≠ [] →
  calculate_similarity_tfidf resume job_desc = Ok 100.
Proof. intros <- Hne. by apply similarity_self. Qed.

(** Two texts with no common term, one of which has a term. *)
Lemma similarity_no_common_term (resume job_desc : string) :
  (∀ t, t ∈ sk_tokenize resume → t ∉ sk_tokenize job_desc) →
  ¬ (sk_tokenize resume = [] ∧ sk_tokenize job_desc = []) →
  calculate_similarity_tfidf resume job_desc = Ok 0.
Proof.
  intros Hdisj Hne. rewrite calculate_similarity_tfidf_eq. cbv zeta.
  rewrite decide_False by by rewrite vocabulary_nil_iff.
  rewrite cosine_similarity_0; [f_equal; lra|].
  intros t _. unfold tfidf_vector.
  destruct (decide (t ∈ sk_tokenize resume)) as [Hin|Hnin].
  - right. apply normalize_eq_0, tfidf_eq_0. by apply Hdisj.
  - left. by apply normalize_eq_0, tfidf_eq_0.
Qed.

(** Closes [calculate_similarity_tfidf a b = Ok 0] for two closed texts
    without a common term. *)
Ltac no_common_term :=
  apply similarity_no_common_term;
  [apply (proj1 (Forall_forall _ _)); by_compute | by_compute].

(** Two texts with a common term. *)
Lemma similarity_common_term (resume job_desc t : string) (score : R) :
  t ∈ sk_tokenize resume → t ∈ sk_tokenize job_desc →
  calculate_similarity_tfidf resume job_desc = Ok score → 0 < score.
Proof.
  intros Ha Hb. rewrite calculate_similarity_tfidf_eq. cbv zeta.
  case_decide as HV; [done|]. intros [= <-].
  apply Rmult_lt_0_compat; [|lra]. apply (Rsum_pos _ _ t).
  - intros t' _. apply Rmult_le_pos; apply normalize_nonneg, tfidf_vector_nonneg.
  - apply elem_of_vocabulary. exists (sk_tokenize resume).
    split; [apply list_elem_of_here | done].
  - unfold tfidf_vector.
    pose proof (tfidf_pos [sk_tokenize resume; sk_tokenize job_desc] _ t Ha).
    pose proof (tfidf_pos [sk_tokenize resume; sk_tokenize job_desc] _ t Hb).
    apply Rmult_lt_0_compat; do 2 apply normalize_pos; lra.
Qed.

(** *** Texts in proportion *)

Lemma Rsum_sq_diff (V : list string) (x y : string → R) :
  Rsum V (λ t, (x t - y t) * (x t - y t))
  = sq_norm V x - 2 * Rsum V (λ t, x t * y t) + sq_norm V y.
Proof.
  unfold sq_norm. induction V as [|t V IH]; [rewrite !Rsum_nil; lra|].
  rewrite !Rsum_cons, IH. lra.
Qed.

Lemma l2_norm_scal (V : list string) (c : R) (f : string → R) :
  0 <= c → l2_norm V (λ t, c * f t) = c * l2_norm V f.
Proof.
  intros Hc. unfold l2_norm, sq_norm.
  rewrite (Rsum_ext _ _ (λ t, (c * c) * (f t * f t))) by (intros; lra).
  rewrite Rsum_scal, sqrt_mult by (try apply sq_nonneg; apply sq_norm_nonneg).
  by rewrite sqrt_square.
Qed.

(** Normalization forgets a positive factor. *)
Lemma normalize_scal (V : list string) (c : R) (f : string → R) (t : string) :
  0 < c → l2_norm V f ≠ 0 → normalize V (λ t, c * f t) t = normalize V f t.
Proof.
  intros Hc H0. pose proof (l2_norm_nonneg V f).
  assert (l2_norm V (λ t, c * f t) ≠ 0) as H1 by (rewrite l2_norm_scal by lra; nra).
  rewrite !normalize_nonzero by done. rewrite l2_norm_scal by lra. field. lra.
Qed.

(** Rows whose cosine is 1 have the same direction. *)
Lemma cosine_similarity_1_inv (V : list string) (u v : string → R) :
  cosine_similarity V u v = 1 →
  l2_norm V u ≠ 0 ∧ l2_norm V v ≠ 0 ∧
  ∀ t, t ∈ V → normalize V u t = normalize V v t.
Proof.
  unfold cosine_similarity. intros Hcos.
  pose proof (cauchy_schwarz V (normalize V u) (normalize V v)) as Hcs.
  pose proof (Rsum_sq_diff V (normalize V u) (normalize V v)) as Hdiff.
  rewrite Hcos in Hcs, Hdiff. rewrite !sq_norm_normalize in Hcs, Hdiff.
  destruct (Req_dec_T (l2_norm V u) 0), (Req_dec_T (l2_norm V v) 0); try lra.
  split_and!; [done..|]. intros t Hin.
  assert ((normalize V u t - normalize V v t) * (normalize V u t - normalize V v t) = 0)
    as Ht; [|nra].
  apply (Rsum_eq_0 V (λ t, (normalize V u t - normalize V v t)
                           * (normalize V u t - normalize V v t)));
    [intros; apply sq_nonneg | lra | done].
Qed.

Lemma term_count_cons_pos (t : string) (tokens : list string) :
  (0 < term_count t (t :: tokens))%nat.
Proof. apply (term_count_pos t (t :: tokens)), list_elem_of_here. Qed.

Lemma term_count_nil (t : string) : term_count t [] = 0%nat.
Proof. reflexivity. Qed.

Lemma ratio_cross (x y na nb i : R) :
  na ≠ 0 → nb ≠ 0 → 0 < i → x * i / na = y * i / nb → x * nb = y * na.
Proof.
  intros Ha Hb Hi Heq. apply (f_equal (λ z, z * (na * nb))) in Heq.
  field_simplify in Heq; [|done..]. apply (Rmult_eq_reg_r i); lra.
Qed.

Lemma cross_trans (x y x0 y0 na nb : R) :
  nb ≠ 0 → x0 * nb = y0 * na → x * nb = y * na → y0 * x = x0 * y.
Proof.
  intros Hnb H0 H. apply (Rmult_eq_reg_r nb); [|done].
  transitivity (y0 * (x * nb)); [ring|]. rewrite H.
  transitivity (y * (y0 * na)); [ring|]. rewrite <- H0. ring.
Qed.

Section proportional.
Context (a b : list string).

(** Counts in proportion give rows in proportion, hence the same
    direction. *)
Lemma proportional_rows (p q : nat) (t : string) :
  (0 < p)%nat → (0 < q)%nat → b ≠ [] →
  (∀ t, p * term_count t a = q * term_count t b)%nat →
  tfidf_vector [a; b] (vocabulary [a; b]) a t
  = tfidf_vector [a; b] (vocabulary [a; b]) b t.
Proof.
  intros Hp%lt_INR Hq%lt_INR Hb Hpq. simpl in Hp, Hq. unfold tfidf_vector.
  rewrite (normalize_ext _ _ (λ t, (INR q / INR p) * tfidf [a; b] b t)).
  - apply normalize_scal; [by apply Rdiv_lt_0_compat|].
    apply l2_norm_tfidf_nonempty; [done | apply list_elem_of_further, list_elem_of_here].
  - intros t'. unfold tfidf. pose proof (f_equal INR (Hpq t')) as Ht.
    rewrite !mult_INR in Ht.
    replace (INR (term_count t' a)) with (INR q / INR p * INR (term_count t' b)); [lra|].
    apply (Rmult_eq_reg_l (INR p)); [|lra]. rewrite Ht. field. lra.
Qed.

(** Rows with the same direction have their counts in the ratio of
    their norms. *)
Lemma same_direction_cross (t : string) :
  l2_norm (vocabulary [a; b]) (tfidf [a; b] a) ≠ 0 →
  l2_norm (vocabulary [a; b]) (tfidf [a; b] b) ≠ 0 →
  tfidf_vector [a; b] (vocabulary [a; b]) a t
  = tfidf_vector [a; b] (vocabulary [a; b]) b t →
  INR (term_count t a) * l2_norm (vocabulary [a; b]) (tfidf [a; b] b)
  = INR (term_count t b) * l2_norm (vocabulary [a; b]) (tfidf [a; b] a).
Proof.
  intros Ha Hb. unfold tfidf_vector. rewrite !normalize_nonzero by done. intros Hrow.
  pose proof (idf_ge_1 _ _ (doc_freq_le t [a; b])) as Hidf.
  apply (ratio_cross _ _ _ _ (idf (length [a; b]) (doc_freq t [a; b])));
    [done | done | lra | exact Hrow].
Qed.

(** Rows with the same direction come from counts in proportion: the
    ratio is read from any term of the second text. *)
Lemma same_direction_counts (t0 : string) :
  t0 ∈ b →
  l2_norm (vocabulary [a; b]) (tfidf [a; b] a) ≠ 0 →
  l2_norm (vocabulary [a; b]) (tfidf [a; b] b) ≠ 0 →
  (∀ t, t ∈ vocabulary [a; b] →
        tfidf_vector [a; b] (vocabulary [a; b]) a t
        = tfidf_vector [a; b] (vocabulary [a; b]) b t) →
  (0 < term_count t0 a)%nat ∧
  ∀ t, (term_count t0 b * term_count t a = term_count t0 a * term_count t b)%nat.
Proof.
  intros Ht0 Ha Hb Hrows.
  pose proof (l2_norm_nonneg (vocabulary [a; b]) (tfidf [a; b] a)) as Hna.
  pose proof (l2_norm_nonneg (vocabulary [a; b]) (tfidf [a; b] b)) as Hnb.
  assert (t0 ∈ vocabulary [a; b]) as HV0.
  { apply elem_of_vocabulary. exists b.
    split; [apply list_elem_of_further, list_elem_of_here | done]. }
  pose proof (same_direction_cross t0 Ha Hb (Hrows t0 HV0)) as H0.
  pose proof (le_INR _ _ (term_count_pos t0 b Ht0)) as Hb0. simpl in Hb0.
  split; [apply INR_lt; simpl; nra|].
  intros t. destruct (decide (t ∈ vocabulary [a; b])) as [Hin|Hnin].
  - apply INR_eq. rewrite !mult_INR.
    pose proof (same_direction_cross t Ha Hb (Hrows t Hin)) as Ht.
    exact (cross_trans _ _ _ _ _ _ Hb H0 Ht).
  - rewrite !(term_count_0 t); [lia|..]; intros Hin; apply Hnin, elem_of_vocabulary;
      [exists b | exists a]; (split; [|done]);
      [apply list_elem_of_further|]; apply list_elem_of_here.
Qed.

End proportional.

(** Two bags of terms in proportion: the counts of every term are in one
    ratio. *)
Definition proportional (a b : list string) : Prop :=
  ∃ p q : nat, (0 < p)%nat ∧ (0 < q)%nat ∧
    ∀ t, (p * term_count t a = q * term_count t b)%nat.

Lemma proportional_nonempty (a b : list string) :
  proportional a b → a = [] → b = [].
Proof.
  intros (p & q & Hp & Hq & Hpq) ->. destruct b as [|t b]; [done|].
  specialize (Hpq t). pose proof (term_count_cons_pos t b). rewrite term_count_nil in Hpq.
  nia.
Qed.

Lemma proportional_refl (a : list string) : proportional a a.
Proof. exists 1%nat, 1%nat. split_and!; [lia..|done]. Qed.

Lemma proportional_sym (a b : list string) : proportional a b → proportional b a.
Proof. intros (p & q & Hp & Hq & Hpq). exists q, p. by split_and!. Qed.

Lemma term_count_app (t : string) (l k : list string) :
  term_count t (l ++ k) = (term_count t l + term_count t k)%nat.
Proof. unfold term_count. by rewrite filter_app, length_app. Qed.

Lemma term_count_repeat (t : string) (p : nat) (l : list string) :
  term_count t (mjoin (replicate p l)) = (p * term_count t l)%nat.
Proof.
  induction p as [|p IH]; [done|].
  change (mjoin (replicate (S p) l)) with (l ++ mjoin (replicate p l)).
  rewrite term_count_app, IH. lia.
Qed.

(** Texts which, repeated, have the same terms are in proportion. *)
Lemma proportional_repeat (p q : nat) (a b : list string) :
  (0 < p)%nat → (0 < q)%nat →
  mjoin (replicate p a) ≡ₚ mjoin (replicate q b) → proportional a b.
Proof.
  intros Hp Hq Hperm. exists p, q. split_and!; [done..|]. intros t.
  by rewrite <- !term_count_repeat, Hperm.
Qed.

Lemma l2_norm_normalize_0 (V : list string) (f : string → R) :
  l2_norm V (normalize V f) = 0 ↔ l2_norm V f = 0.
Proof.
  rewrite (l2_norm_0_sq V (normalize V f)), sq_norm_normalize.
  destruct (Req_dec_T (l2_norm V f) 0); split; (done || lra).
Qed.

Lemma l2_norm_tfidf_nil (docs : list (list string)) (V : list string) :
  l2_norm V (tfidf docs []) = 0.
Proof. apply l2_norm_0_iff. intros t _. apply tfidf_eq_0, not_elem_of_nil. Qed.

(** The cosine of the rows of two texts is 1 exactly when their terms
    are in proportion. *)
Lemma cosine_rows_1_iff (a b : list string) :
  ¬ (a = [] ∧ b = []) →
  cosine_similarity (vocabulary [a; b])
    (tfidf_vector [a; b] (vocabulary [a; b]) a)
    (tfidf_vector [a; b] (vocabulary [a; b]) b) = 1
  ↔ proportional a b.
Proof.
  intros Hne. unfold tfidf_vector. split.
  - intros (Ha & Hb & Hrows)%cosine_similarity_1_inv.
    rewrite l2_norm_normalize_0 in Ha, Hb.
    destruct b as [|t0 b'] eqn:Heq; [by rewrite l2_norm_tfidf_nil in Hb|].
    rewrite <- Heq in *.
    assert (t0 ∈ b) as Ht0 by (rewrite Heq; apply list_elem_of_here).
    destruct (same_direction_counts a b t0 Ht0 Ha Hb) as [Hq Hpq].
    { intros t Hin. specialize (Hrows t Hin). by rewrite !normalize_idemp in Hrows. }
    exists (term_count t0 b), (term_count t0 a).
    split_and!; [by apply term_count_pos | done..].
  - intros Hprop. pose proof Hprop as (p & q & Hp & Hq & Hpq).
    assert (b ≠ []) as Hb.
    { intros ->. apply Hne. split; [|done].
      exact (proportional_nonempty [] a (proportional_sym _ _ Hprop) eq_refl). }
    rewrite (cosine_similarity_ext _ _ (normalize (vocabulary [a; b]) (tfidf [a; b] b))
               _ (normalize (vocabulary [a; b]) (tfidf [a; b] b)));
      [|intros t; by apply (proportional_rows a b p q) | done].
    apply cosine_similarity_self.
    apply l2_norm_tfidf_nonempty; [done | apply list_elem_of_further, list_elem_of_here].
Qed.

(** Texts in proportion. *)
Lemma similarity_proportional (resume job_desc : string) :
  proportional (sk_tokenize resume) (sk_tokenize job_desc) →
  sk_tokenize resume ≠ [] →
  calculate_similarity_tfidf resume job_desc = Ok 100.
Proof.
  intros Hprop Hne. rewrite calculate_similarity_tfidf_eq. cbv zeta.
  rewrite decide_False by (rewrite vocabulary_nil_iff; tauto).
  rewrite (proj2 (cosine_rows_1_iff _ _ (λ H, Hne (proj1 H))) Hprop). f_equal. lra.
Qed.

(** *** Repetition

    A text in proportion to another has the same terms with the same
    document frequencies, and its row of weights is the row of the other
    times a positive factor, which the cosine forgets. *)

Lemma term_count_pos_iff (t : string) (tokens : list string) :
  t ∈ tokens ↔ (0 < term_count t tokens)%nat.
Proof.
  split; [apply term_count_pos|]. intros Hpos.
  destruct (decide (t ∈ tokens)) as [|Hnin]; [done|].
  rewrite term_count_0 in Hpos by done. lia.
Qed.

Lemma proportional_elem_of (a a' : list string) (t : string) :
  proportional a a' → t ∈ a ↔ t ∈ a'.
Proof.
  intros (p & q & Hp & Hq & Hpq). rewrite !term_count_pos_iff.
  specialize (Hpq t). nia.
Qed.

Lemma doc_freq_proportional (t : string) (a a' b : list string) :
  proportional a a' → doc_freq t [a; b] = doc_freq t [a'; b].
Proof.
  intros Hin%(proportional_elem_of _ _ t). unfold doc_freq.
  rewrite !(filter_cons _ a), !(filter_cons _ a').
  by destruct (decide (t ∈ a)), (decide (t ∈ a')); try tauto.
Qed.

Lemma vocabulary_proportional (a a' b : list string) :
  proportional a a' → vocabulary [a; b] ≡ₚ vocabulary [a'; b].
Proof.
  intros Hprop. apply NoDup_Permutation; [apply NoDup_remove_dups..|].
  intros t. unfold vocabulary. cbn [mjoin list_join].
  rewrite !elem_of_remove_dups, !elem_of_app.
  by rewrite (proportional_elem_of a a' t).
Qed.

Lemma tfidf_proportional (p q : nat) (a a' b : list string) (t : string) :
  (0 < p)%nat → (0 < q)%nat →
  (∀ t, (p * term_count t a = q * term_count t a')%nat) →
  tfidf [a; b] a t = INR q / INR p * tfidf [a'; b] a' t.
Proof.
  intros Hp Hq Hpq. pose proof (lt_INR _ _ Hp) as Hp'. unfold tfidf.
  rewrite (doc_freq_proportional t a a' b) by by exists p, q.
  pose proof (f_equal INR (Hpq t)) as Ht. rewrite !mult_INR in Ht.
  cbn [length]. change (INR 0) with 0 in Hp'. set (i := idf _ _).
  replace (INR (term_count t a)) with (INR q * INR (term_count t a') / INR p).
  - field. lra.
  - rewrite <- Ht. field. lra.
Qed.

Lemma cosine_ext (V : list string) (u u' v v' : string → R) :
  (∀ t, u t = u' t) → (∀ t, v t = v' t) → cosine V u v = cosine V u' v'.
Proof.
  intros Hu Hv. unfold cosine, l2_norm, sq_norm.
  rewrite (Rsum_ext V (λ t, u t * u t) (λ t, u' t * u' t)),
    (Rsum_ext V (λ t, v t * v t) (λ t, v' t * v' t)),
    (Rsum_ext V (λ t, u t * v t) (λ t, u' t * v' t));
    [done | intros; by rewrite ?Hu, ?Hv..].
Qed.

Lemma cosine_perm (V V' : list string) (u v : string → R) :
  V ≡ₚ V' → cosine V u v = cosine V' u v.
Proof.
  intros HV. unfold cosine.
  by rewrite (l2_norm_perm V V'), (l2_norm_perm V V' v), (Rsum_perm V V') by done.
Qed.

(** The cosine forgets a positive factor. *)
Lemma cosine_scal (V : list string) (c : R) (u v : string → R) :
  0 < c → cosine V (λ t, c * u t) v = cosine V u v.
Proof.
  intros Hc. unfold cosine. rewrite l2_norm_scal by lra.
  rewrite (Rsum_ext V _ (λ t, c * (u t * v t))) by (intros; lra). rewrite Rsum_scal.
  destruct (Req_dec_T (l2_norm V u * l2_norm V v) 0) as [H0|H0].
  - destruct (Req_dec_T _ _) as [|Hne]; [done|]. destruct Hne. nra.
  - destruct (Req_dec_T _ _) as [He|]; [nra|]. field. split; nra.
Qed.

Lemma similarity_repeat_l (resume resume' job_desc : string) :
  proportional (sk_tokenize resume) (sk_tokenize resume') →
  calculate_similarity_tfidf resume job_desc
  = calculate_similarity_tfidf resume' job_desc.
Proof.
  intros Hprop. rewrite !similarity_cosine. cbv zeta.
  set (a := sk_tokenize resume) in *. set (a' := sk_tokenize resume') in *.
  set (b := sk_tokenize job_desc).
  pose proof (vocabulary_proportional a a' b Hprop) as HV.
  destruct Hprop as (p & q & Hp & Hq & Hpq).
  destruct (decide (vocabulary [a; b] = [])) as [Hnil|Hne].
  { rewrite decide_True; [done|]. rewrite Hnil in HV. by apply Permutation_nil_l in HV. }
  rewrite decide_False.
  2:{ intros Hnil. rewrite Hnil in HV. by apply Permutation_nil_r in HV. }
  do 2 f_equal. rewrite (cosine_perm _ _ _ _ HV).
  rewrite (cosine_ext _ _ (λ t, INR q / INR p * tfidf [a'; b] a' t) _ (tfidf [a'; b] b)).
  - apply cosine_scal. apply Rdiv_lt_0_compat; by apply (lt_INR 0).
  - intros t. by apply tfidf_proportional.
  - intros t. unfold tfidf. by rewrite (doc_freq_proportional t a a' b) by by exists p, q.
Qed.

(** C37: repeating a text does not change its score.  The similarity
    depends on each text through the proportions of its terms only: when
    the counts of the terms of [resume'] are those of [resume] in one
    ratio, and the same for the job descriptions, the function returns the
    same number, or raises in both cases.  A resume pasted twice, or a
    resume whose every keyword is repeated ten times, matches a job
    description exactly as well as the original. *)
Theorem calculate_similarity_tfidf_repeat
    (resume resume' job_desc job_desc' : string) :
  proportional (sk_tokenize resume) (sk_tokenize resume') →
  proportional (sk_tokenize job_desc) (sk_tokenize job_desc') →
  calculate_similarity_tfidf resume job_desc
  = calculate_similarity_tfidf resume' job_desc'.
Proof.
  intros Hr Hj. rewrite (similarity_repeat_l resume resume') by done.
  rewrite (similarity_sym resume'), (similarity_repeat_l job_desc job_desc') by done.
  apply similarity_sym.
Qed.

(** What a similarity says of the terms of the two texts: the two ends
    of its range. *)
Lemma similarity_ends (resume job_desc : string) (score : R) :
  calculate_similarity_tfidf resume job_desc = Ok score →
  (score = 0 ↔ ∀ t, t ∈ sk_tokenize resume → t ∉ sk_tokenize job_desc) ∧
  (score = 100 ↔ proportional (sk_tokenize resume) (sk_tokenize job_desc)).
Proof.
  intros Hs. pose proof (calculate_similarity_tfidf_dec resume job_desc) as Hdec.
  rewrite Hs in Hdec. split; [split|].
  - intros -> t Ha Hb. pose proof (similarity_common_term _ _ t 0 Ha Hb Hs). lra.
  - intros Hdisj. rewrite (similarity_no_common_term _ _ Hdisj Hdec) in Hs.
    by injection Hs.
  - revert Hs. rewrite calculate_similarity_tfidf_eq. cbv zeta.
    rewrite decide_False by by rewrite vocabulary_nil_iff. intros [= <-].
    rewrite <- (cosine_rows_1_iff _ _ Hdec). split; lra.
Qed.

(** C13: the similarity of two texts is 0 exactly when they have no term
    in common; a single common term makes it positive, whatever else the
    texts say. *)
Theorem calculate_similarity_tfidf_zero_iff (resume job_desc : string) (score : R) :
  calculate_similarity_tfidf resume job_desc = Ok score →
  score = 0 ↔ ∀ t, t ∈ sk_tokenize resume → t ∉ sk_tokenize job_desc.
Proof. intros Hs. apply (similarity_ends _ _ _ Hs). Qed.

(** C21: the similarity of two texts is 100 exactly when their terms are
    in proportion: some number of copies of the one has the same terms,
    each as many times, as some number of copies of the other.  The order
    of the terms and the length of the texts play no part; a text that
    repeats the job description scores 100, and nothing else does. *)
Theorem calculate_similarity_tfidf_100_iff (resume job_desc : string) (score : R) :
  calculate_similarity_tfidf resume job_desc = Ok score →
  score = 100 ↔ proportional (sk_tokenize resume) (sk_tokenize job_desc).
Proof. intros Hs. apply (similarity_ends _ _ _ Hs). Qed.

(** C16: a text without terms has similarity 0 with every text that has a
    term, on either side, and no exception is raised: the degenerate case
    of one empty text is a zero row, not a division by zero. *)
Theorem calculate_similarity_tfidf_one_empty (empty text : string) :
  sk_tokenize empty = [] → sk_tokenize text ≠ [] →
  calculate_similarity_tfidf empty text = Ok 0 ∧
  calculate_similarity_tfidf text empty = Ok 0.
Proof.
  intros He Ht. split; apply similarity_no_common_term; rewrite He;
    try tauto; intros t Hin; [by apply elem_of_nil in Hin | apply not_elem_of_nil].
Qed.

Lemma calculate_similarity_tfidf_self_witness :
  calculate_similarity_tfidf "Python developer" "Developer (PYTHON)" = Ok 100.
Proof.
  apply calculate_similarity_tfidf_self; [|by vm_compute].
  unfold same_terms. by_compute.
Defined.

Lemma calculate_similarity_tfidf_cosine_witness :
  let docs := [sk_tokenize "Python developer"; sk_tokenize "PYTHON developer"] in
  let V := vocabulary docs in
  let u := tfidf docs (sk_tokenize "Python developer") in
  let v := tfidf docs (sk_tokenize "PYTHON developer") in
  (l2_norm V u = 0 ∨ l2_norm V v = 0 → 100 = 0) ∧
  (l2_norm V u ≠ 0 → l2_norm V v ≠ 0 →
   100 = 100 * Rsum V (λ term, u term * v term) / (l2_norm V u * l2_norm V v)).
Proof.
  apply calculate_similarity_tfidf_cosine.
  assert (same_terms "PYTHON developer" "Python developer") as Hsame
    by (unfold same_terms; by_compute).
  rewrite Hsame. by apply similarity_self.
Defined.

Lemma calculate_similarity_tfidf_zero_iff_witness :
  0 = 0 ↔
  ∀ t, t ∈ sk_tokenize "Python developer" → t ∉ sk_tokenize "Java engineer".
Proof. apply calculate_similarity_tfidf_zero_iff. no_common_term. Defined.

Lemma developer_twice :
  proportional (sk_tokenize "Python developer")
    (sk_tokenize "Developer, Python developer: PYTHON!").
Proof. apply (proportional_repeat 2 1); [lia..|]. by_compute. Qed.

Lemma calculate_similarity_tfidf_100_iff_witness :
  100 = 100 ↔
  proportional (sk_tokenize "Python developer")
    (sk_tokenize "Developer, Python developer: PYTHON!").
Proof.
  apply calculate_similarity_tfidf_100_iff.
  apply similarity_proportional; [apply developer_twice | by vm_compute].
Defined.

Lemma calculate_similarity_tfidf_repeat_witness :
  calculate_similarity_tfidf "Python developer" "Senior Python engineer"
  = calculate_similarity_tfidf "Developer, Python developer: PYTHON!"
      "Senior Python engineer".
Proof.
  apply calculate_similarity_tfidf_repeat;
    [apply developer_twice | apply proportional_refl].
Defined.

Lemma calculate_similarity_tfidf_one_empty_witness :
  calculate_similarity_tfidf "1 + 7 = ?" "Python developer" = Ok 0 ∧
  calculate_similarity_tfidf "Python developer" "1 + 7 = ?" = Ok 0.
Proof. apply calculate_similarity_tfidf_one_empty; by vm_compute. Defined.

(** *** A near match

    A resume that says "python" 201 times and "java" once, against the job
    description "python": the similarity is less than 100, and at most
    0.005 away from it. *)

Lemma ln_le_minus_1 (x : R) : 0 < x → ln x <= x - 1.
Proof.
  intros Hx. pose proof (exp_ineq1_le (ln x)) as Hexp.
  rewrite exp_ln in Hexp by done. lra.
Qed.

Lemma idf_same (n : nat) : idf n n = 1.
Proof.
  unfold idf. pose proof (pos_INR n).
  replace ((1 + INR n) / (1 + INR n)) with 1 by (field; lra). rewrite ln_1. lra.
Qed.

Lemma idf_2_1 : 1 <= idf 2 1 <= 3 / 2.
Proof.
  split; [apply idf_ge_1; lia|]. unfold idf.
  replace ((1 + INR 2) / (1 + INR 1)) with (3 / 2) by (cbn; field).
  pose proof (ln_le_minus_1 (3 / 2)). lra.
Qed.

Lemma tfidf_value (docs : list (list string)) (tokens : list string) (t : string)
    (k d : nat) :
  term_count t tokens = k → doc_freq t docs = d →
  tfidf docs tokens t = INR k * idf (length docs) d.
Proof. unfold tfidf. by intros -> ->. Qed.

Definition near_resume : string := join " " (replicate 201 "python" ++ ["java"]).

Lemma near_match :
  ∃ score, calculate_similarity_tfidf near_resume "python" = Ok score ∧
           99995 / 1000 <= score < 100.
Proof.
  rewrite similarity_cosine. cbv zeta.
  set (a := sk_tokenize near_resume). set (b := sk_tokenize "python").
  assert (vocabulary [a; b] = ["java"; "python"]) as -> by by_compute.
  rewrite decide_False by done. eexists. split; [reflexivity|].
  unfold cosine, l2_norm, sq_norm, Rsum. cbn [foldr].
  rewrite (tfidf_value [a; b] a "java" 1 1), (tfidf_value [a; b] a "python" 201 2),
    (tfidf_value [a; b] b "java" 0 1), (tfidf_value [a; b] b "python" 1 2)
    by by_compute.
  cbn [length]. rewrite idf_same. pose proof idf_2_1 as Hc. set (c := idf 2 1) in *.
  rewrite (INR_IZR_INZ 201). change (Z.of_nat 201) with 201%Z.
  change (INR 0) with 0. change (INR 1) with 1.
  replace (1 * c * (1 * c) + (201 * 1 * (201 * 1) + 0)) with (40401 + c * c) by lra.
  replace (0 * c * (0 * c) + (1 * 1 * (1 * 1) + 0)) with 1 by lra.
  replace (1 * c * (0 * c) + (201 * 1 * (1 * 1) + 0)) with 201 by lra.
  rewrite sqrt_1. set (r := sqrt (40401 + c * c)).
  assert (r * r = 40401 + c * c) as Hr2 by (apply sqrt_sqrt; nra).
  assert (0 <= r) as Hr0 by apply sqrt_pos.
  assert (201 < r <= 20101 / 100) as Hr by (split; nra).
  destruct (Req_dec_T (r * 1) 0); [lra|].
  assert (201 / (r * 1) * r = 201) as Hq by (field; lra).
  set (q := 201 / (r * 1)) in *. split; nra.
Qed.

(** *** A far match

    A resume that says "java" 142 times and "team" once, against a job
    description that says "rust" 142 times and "team" once: the texts have
    a term in common, so the similarity is not 0, and it is less than
    0.005. *)

Definition far_resume : string := join " " (replicate 142 "java" ++ ["team"]).
Definition far_job : string := join " " (replicate 142 "rust" ++ ["team"]).

Lemma far_match :
  ∃ score, calculate_similarity_tfidf far_resume far_job = Ok score ∧
           0 < score < 1 / 200.
Proof.
  rewrite similarity_cosine. cbv zeta.
  set (a := sk_tokenize far_resume). set (b := sk_tokenize far_job).
  assert (vocabulary [a; b] = ["java"; "rust"; "team"]) as -> by by_compute.
  rewrite decide_False by done. eexists. split; [reflexivity|].
  unfold cosine, l2_norm, sq_norm, Rsum. cbn [foldr].
  rewrite (tfidf_value [a; b] a "java" 142 1), (tfidf_value [a; b] a "rust" 0 1),
    (tfidf_value [a; b] a "team" 1 2), (tfidf_value [a; b] b "java" 0 1),
    (tfidf_value [a; b] b "rust" 142 1), (tfidf_value [a; b] b "team" 1 2)
    by by_compute.
  cbn [length]. rewrite idf_same. pose proof idf_2_1 as Hc. set (c := idf 2 1) in *.
  rewrite (INR_IZR_INZ 142). change (Z.of_nat 142) with 142%Z.
  change (INR 0) with 0. change (INR 1) with 1.
  replace (142 * c * (142 * c) + (0 * c * (0 * c) + (1 * 1 * (1 * 1) + 0)))
    with (1 + 20164 * (c * c)) by lra.
  replace (0 * c * (0 * c) + (142 * c * (142 * c) + (1 * 1 * (1 * 1) + 0)))
    with (1 + 20164 * (c * c)) by lra.
  replace (142 * c * (0 * c) + (0 * c * (142 * c) + (1 * 1 * (1 * 1) + 0)))
    with 1 by lra.
  rewrite sqrt_sqrt by nra. set (n := 1 + 20164 * (c * c)).
  assert (20165 <= n) by (unfold n; nra).
  destruct (Req_dec_T n 0); [lra|].
  assert (1 / n * n = 1) as Hq by (field; lra).
  set (q := 1 / n) in *. split; nra.
Qed.

End Similarity.
