(* ===== verification/Evaluator.v ===== *)
(** * Evaluator: [ats_resume_checker] ([src/app.py], l.111-135)

    The orchestrator normalizes the two texts, computes their similarity,
    runs the three analyzers on the raw resume and the keyword advisor on
    the two raw texts, adds the three sub-scores and concatenates the four
    feedback lists, in that order.

    The similarity is computed first and can raise; the analyzers are pure,
    so an exception of the vectorizer is the only way the call fails, and
    then nothing is returned.

    [breakdown] is the abstract view of a run: the three sub-scores with
    the values each may take.  The refinement theorem shows that every
    successful run returns the sum of a well-formed breakdown, from which
    the range of the final score follows.

    Further theorems: the run is invariant under changes of case that the
    grammar analysis does not see; a resume equal to the job description
    gets the similarity 100 and no keyword suggestion; an empty resume
    gets the final score 10; the two ends of the range, 5 and 120, are
    reached exactly by the resumes that have nothing and everything
    ([final_score_extremes]); text added to a resume costs five points or
    nothing, and five exactly when it makes the first long sentence
    ([ats_resume_checker_extend]); the feedback has at most 27 lines, each
    starting with one of five characters, and [worst_resume_run] has 27;
    and the failure of a run and the two ends of its matching score are
    read off the lemmas the normalizer keeps ([terms]). *)

From Stdlib Require Import Ascii String Reals.
From stdpp Require Import base tactics option list strings gmap.
From S2P Require Import Prelude PyStr Structure Certification Nlp Grammar.
From S2P Require Import Keywords Normalizer Similarity.

Module Evaluator.
Import PyStr Structure Certification Nlp Grammar Keywords Normalizer Similarity.

(** ** The code *)

(** [ats_resume_checker] (l.111-135). *)
Definition ats_resume_checker `{NLP} `{SetOrder}
    (resume_text job_description : string) : result (R * nat * list string) :=
  let resume_cleaned := preprocess_text resume_text in
  let job_desc_cleaned := preprocess_text job_description in
  similarity_score ← calculate_similarity_tfidf resume_cleaned job_desc_cleaned;
  let '(structure_score, structure_feedback) :=
    analyze_resume_structure resume_text in
  let '(certification_score, certification_feedback) :=
    analyze_certifications resume_text in
  let '(grammar_score, grammar_feedback) := analyze_grammar resume_text in
  let keyword_suggestions := suggest_improvements resume_text job_description in
  let final_score := structure_score + certification_score + grammar_score in
  let all_feedback :=
    structure_feedback ++ certification_feedback ++ grammar_feedback
    ++ keyword_suggestions in
  mret (similarity_score, final_score, all_feedback).

(** ** The abstract view *)

(** The three sub-scores of a run. *)
Record breakdown : Type := Breakdown {
  structure_score : nat;
  certification_score : nat;
  grammar_score : nat;
}.

(** The values the sub-scores can take: the structure score is a sum of
    points of the catalogue, hence a multiple of 5 up to 100; the
    certification score is 0 or 10; the grammar score is 5 or 10. *)
Definition breakdown_ok (b : breakdown) : Prop :=
  (structure_score b ≤ 100 ∧ (5 | structure_score b)) ∧
  (certification_score b = 0 ∨ certification_score b = 10) ∧
  (grammar_score b = 5 ∨ grammar_score b = 10).

Definition final_score (b : breakdown) : nat :=
  structure_score b + certification_score b + grammar_score b.

(** The breakdown of a resume. *)
Definition breakdown_of `{NLP} (resume_text : string) : breakdown :=
  {| structure_score := (analyze_resume_structure resume_text).1;
     certification_score := (analyze_certifications resume_text).1;
     grammar_score := (analyze_grammar resume_text).1 |}.

(** The feedback of a run, in the order of the four sources. *)
Definition feedback_of_run `{NLP} `{SetOrder}
    (resume_text job_description : string) : list string :=
  (analyze_resume_structure resume_text).2
  ++ (analyze_certifications resume_text).2
  ++ (analyze_grammar resume_text).2
  ++ suggest_improvements resume_text job_description.

(** The terms of a text that the vectorizer sees after normalization, read
    on the language model: the kept lemmas of two characters or more, in
    lower case. *)
Definition terms `{NLP} (text : string) : list string :=
  filter (λ w, 2 ≤ String.length w) (lower <$> kept_lemmas text).

(** The first characters of the lines of feedback: the M of "Missing", the
    blank of a bullet, the C of "Consider", the G of "Grammar" and the T
    of "Try". *)
Definition feedback_heads : list ascii := ["M"; " "; "C"; "G"; "T"]%char.

(** ** Lemmas *)

Lemma score_of_divide (catalogue : list (string * nat)) (text : string) :
  Forall (λ e : string * nat, (5 | e.2)) catalogue →
  (5 | Structure.score_of catalogue text).
Proof.
  induction 1 as [|e c He _ IH]; [by exists 0|].
  rewrite Structure.score_of_cons. apply Nat.divide_add_r; [|done].
  unfold section_points. case_decide; [done | by exists 0].
Qed.

Lemma sections_divide :
  Forall (λ e : string * nat, (5 | e.2)) sections.
Proof. repeat constructor; by_compute. Qed.

Section evaluator.
Context `{NLP} `{SetOrder}.

Lemma breakdown_of_ok (resume_text : string) : breakdown_ok (breakdown_of resume_text).
Proof.
  unfold breakdown_ok, breakdown_of; simpl. split_and!.
  - rewrite analyze_resume_structure_eq, <- sections_total.
    apply Structure.score_of_le_total.
  - rewrite analyze_resume_structure_eq. apply score_of_divide, sections_divide.
  - unfold analyze_certifications. case_match; auto.
  - rewrite analyze_grammar_eq. case_match; auto.
Qed.

Lemma final_score_range (b : breakdown) :
  breakdown_ok b → 5 ≤ final_score b ≤ 120 ∧ (5 | final_score b).
Proof.
  unfold breakdown_ok, final_score.
  intros [[Hle [k Hk]] [[Hc|Hc] [Hg|Hg]]]; rewrite Hc, Hg; split; try lia;
    [exists (k + 1) | exists (k + 2) | exists (k + 3) | exists (k + 4)]; lia.
Qed.

(** ** The function *)

(** Unfolds a run: the similarity was computed or has raised, and the
    results of the three analyzers are pairs. *)
Ltac unfold_run :=
  unfold ats_resume_checker, final_score, breakdown_of, feedback_of_run;
  cbn [structure_score certification_score grammar_score];
  destruct (calculate_similarity_tfidf _ _);
  cbn [mbind result_mbind result_bind mret result_ret];
  try destruct (analyze_resume_structure _), (analyze_certifications _),
    (analyze_grammar _).

(** C8: [ats_resume_checker] fails exactly when neither normalized text
    has a term for the vectorizer, with the vectorizer's [ValueError]; no
    score and no feedback is returned then. *)
Theorem ats_resume_checker_raises (resume_text job_description : string) (e : exn) :
  ats_resume_checker resume_text job_description = Raise e ↔
  e = empty_vocabulary ∧
  sk_tokenize (preprocess_text resume_text) = [] ∧
  sk_tokenize (preprocess_text job_description) = [].
Proof.
  pose proof (calculate_similarity_tfidf_dec (preprocess_text resume_text)
                (preprocess_text job_description)) as Hdec.
  unfold_run.
  - split; [done | tauto].
  - destruct Hdec as (-> & ? & ?). split; [by intros [= <-] | by intros (-> & _)].
Qed.

(** C3: every successful run returns the final score of a well-formed
    breakdown of the resume: the final score is a multiple of 5 between 5
    and 120. *)
Theorem ats_resume_checker_refines (resume_text job_description : string)
    (similarity : R) (score : nat) (feedback : list string) :
  ats_resume_checker resume_text job_description = Ok (similarity, score, feedback) →
  ∃ b : breakdown,
    breakdown_ok b ∧ score = final_score b ∧ 5 ≤ score ≤ 120 ∧ (5 | score).
Proof.
  intros Hrun. exists (breakdown_of resume_text).
  pose proof (breakdown_of_ok resume_text) as Hok.
  pose proof (final_score_range _ Hok).
  assert (score = final_score (breakdown_of resume_text)) as ->; [|tauto].
  revert Hrun. unfold_run; [|done]. by intros [= _ <- _].
Qed.

(** C1: when the similarity is computed, [ats_resume_checker] returns it
    unchanged, with the sum of the three sub-scores and with the feedback
    of the structure, certification and grammar analyzers and the keyword
    suggestions, in this order. *)
Theorem ats_resume_checker_ok (resume_text job_description : string) (similarity : R) :
  calculate_similarity_tfidf (preprocess_text resume_text)
    (preprocess_text job_description) = Ok similarity →
  ats_resume_checker resume_text job_description =
  Ok (similarity,
      (analyze_resume_structure resume_text).1
      + (analyze_certifications resume_text).1
      + (analyze_grammar resume_text).1,
      (analyze_resume_structure resume_text).2
      ++ (analyze_certifications resume_text).2
      ++ (analyze_grammar resume_text).2
      ++ suggest_improvements resume_text job_description).
Proof. unfold_run; [|done]. by intros [= ->]. Qed.

(** The run as a function of the similarity, for rewriting. *)
Lemma ats_resume_checker_eq (resume_text job_description : string) :
  ats_resume_checker resume_text job_description =
  (λ similarity_score,
     (similarity_score, final_score (breakdown_of resume_text),
      feedback_of_run resume_text job_description))
  <$> calculate_similarity_tfidf (preprocess_text resume_text)
        (preprocess_text job_description).
Proof. by unfold_run. Qed.

(** The job description is read through [lower] only. *)
#[export] Instance ats_resume_checker_caseless :
  Proper (eq ==> caseless ==> eq) ats_resume_checker.
Proof.
  intros resume_text ? <- job job' Hjob. rewrite !ats_resume_checker_eq.
  unfold feedback_of_run.
  by rewrite (preprocess_text_caseless job job' Hjob),
    (suggest_improvements_caseless resume_text _ eq_refl job job' Hjob).
Qed.

(** A run fails or succeeds with the vectorizer. *)
Lemma ats_resume_checker_dec (resume_text job_description : string) :
  match ats_resume_checker resume_text job_description with
  | Raise e =>
      e = empty_vocabulary ∧
      sk_tokenize (preprocess_text resume_text) = [] ∧
      sk_tokenize (preprocess_text job_description) = []
  | Ok _ =>
      ¬ (sk_tokenize (preprocess_text resume_text) = [] ∧
         sk_tokenize (preprocess_text job_description) = [])
  end.
Proof.
  rewrite ats_resume_checker_eq.
  pose proof (calculate_similarity_tfidf_dec (preprocess_text resume_text)
                (preprocess_text job_description)) as Hdec.
  by destruct (calculate_similarity_tfidf _ _).
Qed.

(** The matching score of a run is a percentage. *)
Lemma ats_resume_checker_similarity (resume_text job_description : string)
    (similarity : R) (score : nat) (feedback : list string) :
  ats_resume_checker resume_text job_description = Ok (similarity, score, feedback) →
  (0 <= similarity <= 100)%R.
Proof.
  rewrite ats_resume_checker_eq.
  destruct (calculate_similarity_tfidf _ _) as [s|] eqn:Hs; [|done].
  intros [= <- _ _]. by eapply similarity_range.
Qed.

(** The score and the feedback of a run that returns. *)
Lemma ats_resume_checker_score (resume_text job_description : string)
    (similarity : R) (score : nat) (feedback : list string) :
  ats_resume_checker resume_text job_description = Ok (similarity, score, feedback) →
  score = final_score (breakdown_of resume_text) ∧
  feedback = feedback_of_run resume_text job_description.
Proof.
  rewrite ats_resume_checker_eq.
  destruct (calculate_similarity_tfidf _ _); [|done]. by intros [= _ <- <-].
Qed.

(** The final score, read on the text: the points of the sections found,
    10 for a certification, and 10 or 5 for the grammar. *)
Lemma final_score_closed (resume_text : string) :
  final_score (breakdown_of resume_text)
  = score_of sections resume_text
    + (if decide (certified resume_text) then 10 else 0)
    + (if decide (long_sentences (nlp resume_text) = []) then 10 else 5).
Proof.
  unfold final_score, breakdown_of.
  cbn [structure_score certification_score grammar_score].
  by rewrite analyze_resume_structure_eq, analyze_certifications_score,
    analyze_grammar_score.
Qed.

(** A run without feedback has the highest score and no missing keyword:
    each analyzer gives its full score exactly when it has nothing to say. *)
Lemma feedback_of_run_nil (resume_text job_description : string) :
  feedback_of_run resume_text job_description = [] →
  final_score (breakdown_of resume_text) = 120 ∧
  missing_keywords resume_text job_description = ∅.
Proof.
  unfold feedback_of_run, final_score, breakdown_of. cbn [structure_score
    certification_score grammar_score].
  intros (Hs%structure_feedback_nil_iff
          & (Hc & (Hg & Hk)%app_eq_nil)%app_eq_nil)%app_eq_nil.
  rewrite Hs. rewrite suggest_improvements_eq in Hk.
  rewrite analyze_grammar_eq in Hg |- *. unfold analyze_certifications in Hc |- *.
  split; [by destruct (mentions_certification _), (long_sentences _)|].
  destruct (decide (missing_keywords resume_text job_description = ∅)); [done|].
  by rewrite decide_True in Hk.
Qed.

(** Conversely, the highest score and no missing keyword leave nothing to
    say. *)
Lemma feedback_of_run_full (resume_text job_description : string) :
  final_score (breakdown_of resume_text) = 120 →
  missing_keywords resume_text job_description = ∅ →
  feedback_of_run resume_text job_description = [].
Proof.
  intros Hn Hm. destruct (breakdown_of_ok resume_text) as ((Hs & _) & Hc & Hg).
  unfold final_score, breakdown_of in *.
  cbn [structure_score certification_score grammar_score] in *.
  assert ((analyze_resume_structure resume_text).1 = 100
          ∧ (analyze_certifications resume_text).1 = 10
          ∧ (analyze_grammar resume_text).1 = 10) as (Hs' & Hc' & Hg') by lia.
  unfold feedback_of_run.
  rewrite (proj2 (structure_feedback_nil_iff resume_text) Hs'),
    suggest_improvements_eq, decide_False by (intros Hne; by apply Hne).
  rewrite analyze_grammar_eq in Hg' |- *. unfold analyze_certifications in Hc' |- *.
  by destruct (mentions_certification _), (long_sentences _).
Qed.

Lemma ats_resume_checker_no_feedback (resume_text job_description : string)
    (similarity : R) (score : nat) (feedback : list string) :
  ats_resume_checker resume_text job_description = Ok (similarity, score, feedback) →
  feedback = [] ↔ score = 120 ∧ missing_keywords resume_text job_description = ∅.
Proof.
  rewrite ats_resume_checker_eq.
  destruct (calculate_similarity_tfidf _ _) as [s|]; [|done].
  intros [= _ <- <-].
  split; [apply feedback_of_run_nil | intros [? ?]; by apply feedback_of_run_full].
Qed.

(** The characters that the lines of the feedback start with. *)
Lemma feedback_of_run_starts (resume_text job_description : string) :
  Forall (starts_in feedback_heads) (feedback_of_run resume_text job_description).
Proof.
  unfold feedback_of_run. rewrite !Forall_app.
  split_and!;
    (eapply Forall_starts_in_mono;
      [|first [ apply structure_feedback_starts | apply certification_feedback_starts
              | apply grammar_feedback_starts | apply suggestions_starts ]]);
    by_compute.
Qed.

Lemma ats_resume_checker_feedback_starts (resume_text job_description : string)
    (similarity : R) (score : nat) (feedback : list string) :
  ats_resume_checker resume_text job_description = Ok (similarity, score, feedback) →
  Forall (starts_in feedback_heads) feedback.
Proof.
  rewrite ats_resume_checker_eq.
  destruct (calculate_similarity_tfidf _ _) as [s|]; [|done].
  intros [= _ _ <-]. apply feedback_of_run_starts.
Qed.

(** The feedback of the three analyzers, without keyword suggestions. *)
Lemma same_text_run (resume_text job_description : string) :
  caseless resume_text job_description →
  sk_tokenize (preprocess_text resume_text) ≠ [] →
  ats_resume_checker resume_text job_description =
  Ok (100%R, final_score (breakdown_of resume_text),
      (analyze_resume_structure resume_text).2
      ++ (analyze_certifications resume_text).2
      ++ (analyze_grammar resume_text).2).
Proof.
  intros Hc Hne. rewrite <- (ats_resume_checker_caseless _ _ eq_refl _ _ Hc).
  rewrite ats_resume_checker_eq, similarity_self by done.
  cbn [fmap result_fmap result_map]. unfold feedback_of_run.
  rewrite suggest_improvements_eq, decide_False, app_nil_r; [done|].
  intros Hm. apply Hm. by apply missing_keywords_empty_iff.
Qed.

(** The final score depends on the resume only: two runs on the same
    resume with different job descriptions return the same final score. *)
Theorem ats_resume_checker_score_independent
    (resume_text job1 job2 : string) (r1 r2 : R * nat * list string) :
  ats_resume_checker resume_text job1 = Ok r1 →
  ats_resume_checker resume_text job2 = Ok r2 →
  r1.1.2 = r2.1.2.
Proof.
  rewrite !ats_resume_checker_eq.
  destruct (calculate_similarity_tfidf _ _); [|done].
  destruct (calculate_similarity_tfidf _ _); [|done].
  by intros [= <-] [= <-].
Qed.

(** The feedback of a successful run has at most 27 lines: 12 for the
    structure, 4 for the certifications, 4 for the grammar and 7 for the
    keywords. *)
Theorem ats_resume_checker_feedback_length
    (resume_text job_description : string) (r : R * nat * list string) :
  ats_resume_checker resume_text job_description = Ok r → length r.2 ≤ 27.
Proof.
  rewrite ats_resume_checker_eq.
  destruct (calculate_similarity_tfidf _ _); [|done]. intros [= <-].
  cbn [snd]. unfold feedback_of_run. rewrite !length_app.
  pose proof (structure_feedback_length resume_text).
  pose proof (certification_feedback_length resume_text).
  pose proof (grammar_feedback_length resume_text).
  pose proof (suggest_improvements_length resume_text job_description). lia.
Qed.

(** C32: the feedback of a run that returns has at most 27 lines (12 for
    the structure, 4 for the certifications, 4 for the grammar and 7 for
    the keywords), and each line starts with the M of "Missing", the blank
    of a bullet, the C of "Consider", the G of "Grammar" or the T of "Try":
    no line is empty. *)
Theorem ats_resume_checker_feedback_shape
    (resume_text job_description : string) (similarity : R) (score : nat)
    (feedback : list string) :
  ats_resume_checker resume_text job_description = Ok (similarity, score, feedback) →
  length feedback ≤ 27 ∧ Forall (starts_in feedback_heads) feedback.
Proof.
  intros Hrun. split; [|by eapply ats_resume_checker_feedback_starts].
  apply (ats_resume_checker_feedback_length _ _ _ Hrun).
Qed.

(** C33: the two ends of the range of the final score.  A run returns 120
    exactly when the resume names every section of the catalogue and a
    certification and has no long sentence; it returns 5 exactly when the
    resume names no section and no certification and has a long
    sentence. *)
Theorem final_score_extremes (resume_text job_description : string)
    (similarity : R) (score : nat) (feedback : list string) :
  ats_resume_checker resume_text job_description = Ok (similarity, score, feedback) →
  (score = 120 ↔
   Forall (λ entry, present resume_text entry.1) sections ∧
   certified resume_text ∧ long_sentences (nlp resume_text) = []) ∧
  (score = 5 ↔
   Forall (λ entry, ¬ present resume_text entry.1) sections ∧
   ¬ certified resume_text ∧ long_sentences (nlp resume_text) ≠ []).
Proof.
  intros [-> _]%ats_resume_checker_score. rewrite final_score_closed.
  rewrite <- missing_sections_nil_iff, <- (score_of_zero_iff _ _ sections_ok),
    (missing_nil_iff_score _ _ sections_ok), sections_total.
  pose proof (score_of_le_total resume_text sections) as Hle.
  rewrite sections_total in Hle.
  repeat case_decide; split; split; intros; split_and?; try done; try lia;
    intuition lia.
Qed.

(** C29: text added to a resume, before or after it, costs at most five
    points, whatever the job descriptions of the two runs: the sections
    and the certification that were found are still found.  The score
    drops only when the shorter text has no long sentence and the longer
    one has, and then by five points exactly. *)
Theorem ats_resume_checker_extend (resume_text resume_text' job job' : string)
    (similarity similarity' : R) (score score' : nat)
    (feedback feedback' : list string) :
  lower resume_text ≼ lower resume_text' →
  ats_resume_checker resume_text job = Ok (similarity, score, feedback) →
  ats_resume_checker resume_text' job' = Ok (similarity', score', feedback') →
  score ≤ score' + 5 ∧
  (score' < score →
   score = score' + 5 ∧
   long_sentences (nlp resume_text) = [] ∧ long_sentences (nlp resume_text') ≠ []).
Proof.
  intros Ht [-> _]%ats_resume_checker_score [-> _]%ats_resume_checker_score.
  rewrite !final_score_closed.
  pose proof (score_of_mono sections _ _ Ht) as Hs.
  destruct (score_of_divide sections resume_text sections_divide) as [k Hk].
  destruct (score_of_divide sections resume_text' sections_divide) as [k' Hk'].
  pose proof (certified_mono _ _ Ht) as Hc.
  repeat case_decide; try tauto; split; try lia; intros; split_and?; try done; lia.
Qed.

(** The two texts are read up to case, the grammar analysis of the
    resume apart: a job description can be replaced by one that differs in
    case only, and so can a resume when the language model finds the same
    long sentences in both. *)
Theorem ats_resume_checker_case (resume_text resume_text' job job' : string) :
  caseless resume_text resume_text' → caseless job job' →
  analyze_grammar resume_text = analyze_grammar resume_text' →
  ats_resume_checker resume_text job = ats_resume_checker resume_text' job'.
Proof.
  intros Hr Hj Hg. rewrite (ats_resume_checker_caseless _ _ eq_refl job job' Hj).
  rewrite !ats_resume_checker_eq.
  unfold final_score, breakdown_of, feedback_of_run.
  cbn [structure_score certification_score grammar_score]. rewrite Hg.
  by rewrite (preprocess_text_caseless _ _ Hr),
    (analyze_resume_structure_caseless _ _ Hr),
    (analyze_certifications_caseless _ _ Hr),
    (suggest_improvements_caseless _ _ Hr job' job' eq_refl).
Qed.

(** C23: a resume that is the job description, up to case, and has a term
    gets the similarity 100 and no keyword suggestion: the feedback is
    that of the three analyzers. *)
Theorem ats_resume_checker_same_text (resume_text job_description : string) :
  caseless resume_text job_description →
  sk_tokenize (preprocess_text resume_text) ≠ [] →
  ats_resume_checker resume_text job_description =
  Ok (100%R,
      (analyze_resume_structure resume_text).1
      + (analyze_certifications resume_text).1
      + (analyze_grammar resume_text).1,
      (analyze_resume_structure resume_text).2
      ++ (analyze_certifications resume_text).2
      ++ (analyze_grammar resume_text).2).
Proof. intros Hc Hne. by rewrite (same_text_run _ _ Hc Hne). Qed.

(** C24: with a language model that loses no character, an empty resume
    against a job description with a term gets the similarity 0 and the
    final score 10: nothing for the structure, with the six blocks,
    nothing for the certifications, with the advice, and 10 for the
    grammar; the keyword suggestions follow. *)
Theorem ats_resume_checker_empty_resume `{!NLPLaws} (job_description : string) :
  sk_tokenize (preprocess_text job_description) ≠ [] →
  ats_resume_checker "" job_description =
  Ok (0%R, 10,
      mjoin ((λ e, missing_block e.1) <$> sections)
      ++ certification_advice
      ++ suggest_improvements "" job_description).
Proof.
  intros Hne. rewrite ats_resume_checker_eq.
  assert (preprocess_text "" = "") as Hp.
  { unfold preprocess_text, kept_lemmas. cbn [lower string_map]. by rewrite nlp_empty. }
  rewrite Hp, similarity_no_common_term;
    [|by intros t ?%elem_of_nil | by intros [_ ?]].
  cbn [fmap result_fmap result_map]. unfold final_score, breakdown_of, feedback_of_run.
  cbn [structure_score certification_score grammar_score].
  unfold analyze_grammar. by rewrite nlp_empty.
Qed.

End evaluator.

(** ** The terms of the normalized texts

    With a lemmatizer whose lemmas are words, the vectorizer finds in a
    normalized text the lemmas the normalizer kept, lowercased, but for
    those of one character ([terms]): the failure of a run and the two
    ends of the matching score can be read off the tokens of the two
    texts. *)

Section terms.
Context `{NLP} `{!LemmaLaws} `{SetOrder}.

Lemma sk_tokenize_preprocess (text : string) :
  sk_tokenize (preprocess_text text) = terms text.
Proof. apply sk_tokenize_join, kept_lemmas_words. Qed.

Lemma terms_nil_iff (text : string) :
  terms text = [] ↔ Forall (λ l, String.length l < 2) (kept_lemmas text).
Proof.
  unfold terms. rewrite filter_nil_iff, Forall_fmap.
  apply Forall_iff. intros l. cbn. rewrite lower_length. lia.
Qed.

Lemma sk_tokenize_preprocess_nil (text : string) :
  sk_tokenize (preprocess_text text) = [] ↔
  Forall (λ l, String.length l < 2) (kept_lemmas text).
Proof. rewrite sk_tokenize_preprocess. apply terms_nil_iff. Qed.

(** C34: with a lemmatizer whose lemmas are words, the matching score is
    read on the lemmas that the normalizer keeps of the two texts, those of
    two characters or more.  A run fails exactly when neither text has
    such a lemma; otherwise the matching score is 0 exactly when the texts
    have none in common, and 100 exactly when their counts are in
    proportion. *)
Theorem ats_resume_checker_matching_score (resume_text job_description : string) :
  match ats_resume_checker resume_text job_description with
  | Raise e =>
      e = empty_vocabulary ∧ terms resume_text = [] ∧ terms job_description = []
  | Ok (similarity_score, _, _) =>
      ¬ (terms resume_text = [] ∧ terms job_description = []) ∧
      (similarity_score = 0%R ↔
       ∀ t, t ∈ terms resume_text → t ∉ terms job_description) ∧
      (similarity_score = 100%R ↔
       proportional (terms resume_text) (terms job_description))
  end.
Proof.
  rewrite ats_resume_checker_eq, <- !sk_tokenize_preprocess.
  pose proof (calculate_similarity_tfidf_dec (preprocess_text resume_text)
                (preprocess_text job_description)) as Hdec.
  destruct (calculate_similarity_tfidf _ _) as [score|e] eqn:Hs; [|done].
  split; [done | exact (similarity_ends _ _ _ Hs)].
Qed.

(** With a lemmatizer whose lemmas are words, a run fails exactly when
    every lemma that the normalizer keeps, of the resume and of the job
    description, has fewer than two characters: in particular when no
    token of the two texts is alphabetic and no stop word. *)
Theorem ats_resume_checker_raises_lemmas
    (resume_text job_description : string) (e : exn) :
  ats_resume_checker resume_text job_description = Raise e ↔
  e = empty_vocabulary ∧
  Forall (λ l, String.length l < 2) (kept_lemmas resume_text) ∧
  Forall (λ l, String.length l < 2) (kept_lemmas job_description).
Proof.
  rewrite <- !sk_tokenize_preprocess_nil.
  pose proof (ats_resume_checker_dec resume_text job_description) as Hdec.
  destruct (ats_resume_checker _ _) as [r|e'].
  - split; [done | tauto].
  - destruct Hdec as (-> & ? & ?). split; [by intros [= <-] | by intros (-> & _)].
Qed.

End terms.

(** ** Concrete runs *)

Section runs.
Context `{SetOrder}.

Lemma demo_similarity :
  calculate_similarity_tfidf
    (@preprocess_text (lexicon_nlp demo_lexicon) demo_resume)
    (@preprocess_text (lexicon_nlp demo_lexicon) demo_job) = Ok 0%R.
Proof. no_common_term. Qed.

Lemma demo_missing_keywords :
  @Keywords.missing_keywords (lexicon_nlp demo_lexicon) demo_resume demo_job
  = {[ "looking"; "manager"; "leadership"; "certification" ]}.
Proof. by_compute. Qed.

(** The scenario of the specification: on the resume
    "Experience: built systems. Skills: coding." and the
    job description "Looking for a manager with leadership and
    certification." the final score is 55 (45 for the two sections found,
    0 for certifications, 10 for grammar), and the feedback is the blocks
    of the four missing sections, the certification advice and the
    suggestion of the four missing keywords, whatever the order in which
    the set of keywords is enumerated. *)
Theorem ats_resume_checker_demo :
  ∃ keywords : list string,
    keywords ≡ₚ ["looking"; "manager"; "leadership"; "certification"] ∧
    @ats_resume_checker (lexicon_nlp demo_lexicon) _ demo_resume demo_job =
    Ok (0%R, 55,
        missing_block "contact information" ++ missing_block "summary"
        ++ missing_block "education" ++ missing_block "achievements"
        ++ certification_advice
        ++ suggestions_header :: (keyword_line <$> keywords)
        ++ [suggestions_footer]).
Proof.
  exists (@top_keywords (lexicon_nlp demo_lexicon) _ demo_resume demo_job). split.
  - rewrite top_keywords_all; rewrite demo_missing_keywords;
      [by_compute | vm_compute; lia].
  - rewrite ats_resume_checker_eq, demo_similarity. cbn [fmap result_fmap result_map].
    unfold feedback_of_run. rewrite suggest_improvements_eq.
    rewrite decide_True by (rewrite demo_missing_keywords; by_compute).
    do 3 f_equal.
Qed.

End runs.

Lemma ats_resume_checker_ok_witness :
  @ats_resume_checker (lexicon_nlp demo_lexicon) elements_order demo_resume demo_job =
  Ok (0%R,
      (analyze_resume_structure demo_resume).1
      + (analyze_certifications demo_resume).1
      + (@analyze_grammar (lexicon_nlp demo_lexicon) demo_resume).1,
      (analyze_resume_structure demo_resume).2
      ++ (analyze_certifications demo_resume).2
      ++ (@analyze_grammar (lexicon_nlp demo_lexicon) demo_resume).2
      ++ @suggest_improvements (lexicon_nlp demo_lexicon) elements_order
           demo_resume demo_job).
Proof. apply ats_resume_checker_ok, demo_similarity. Defined.

(** A resume that names the six sections and a certification. *)
Definition full_resume : string :=
  "Contact Information. Summary. Education. Experience. Skills. " +:+
  "Achievements. AWS Certified.".

Lemma full_resume_run :
  @ats_resume_checker (lexicon_nlp []) elements_order full_resume "manager"
  = Ok (0%R, 120, [suggestions_header; "  - manager"; suggestions_footer]).
Proof.
  rewrite ats_resume_checker_eq.
  assert (calculate_similarity_tfidf
            (@preprocess_text (lexicon_nlp []) full_resume)
            (@preprocess_text (lexicon_nlp []) "manager") = Ok 0%R) as ->
    by no_common_term.
  cbn [fmap result_fmap result_map]. do 2 f_equal; by vm_compute.
Qed.

Lemma long_resume_run :
  ∃ feedback,
    @ats_resume_checker (lexicon_nlp []) elements_order long_resume "manager"
    = Ok (0%R, 5, feedback).
Proof.
  eexists. rewrite ats_resume_checker_eq.
  assert (calculate_similarity_tfidf
            (@preprocess_text (lexicon_nlp []) long_resume)
            (@preprocess_text (lexicon_nlp []) "manager") = Ok 0%R) as ->
    by no_common_term.
  cbn [fmap result_fmap result_map]. do 2 f_equal; by vm_compute.
Qed.

(** Three long sentences, no section and no certification, for a job
    description of six words that the resume does not have: the feedback
    has 27 lines, the most that [ats_resume_checker] returns. *)
Definition worst_resume : string :=
  long_resume +:+ " " +:+ long_resume +:+ " " +:+ long_resume.

Definition worst_job : string := "alpha beta gamma delta epsilon zeta".

Lemma worst_resume_run :
  ∃ feedback,
    @ats_resume_checker (lexicon_nlp []) elements_order worst_resume worst_job
    = Ok (0%R, 5, feedback) ∧ length feedback = 27.
Proof.
  eexists. rewrite ats_resume_checker_eq.
  assert (calculate_similarity_tfidf
            (@preprocess_text (lexicon_nlp []) worst_resume)
            (@preprocess_text (lexicon_nlp []) worst_job) = Ok 0%R) as ->
    by no_common_term.
  cbn [fmap result_fmap result_map].
  split; [do 2 f_equal; by vm_compute | by vm_compute].
Qed.

(** A resume that names one section, and the same resume before a long
    sentence. *)
Lemma skills_run :
  ∃ feedback,
    @ats_resume_checker (lexicon_nlp []) elements_order "Skills" "manager"
    = Ok (0%R, 25, feedback).
Proof.
  eexists. rewrite ats_resume_checker_eq.
  assert (calculate_similarity_tfidf
            (@preprocess_text (lexicon_nlp []) "Skills")
            (@preprocess_text (lexicon_nlp []) "manager") = Ok 0%R) as ->
    by no_common_term.
  cbn [fmap result_fmap result_map]. do 2 f_equal; by vm_compute.
Qed.

Lemma skills_long_run :
  ∃ feedback,
    @ats_resume_checker (lexicon_nlp []) elements_order
      ("Skills. " +:+ long_resume) "engineer"
    = Ok (0%R, 20, feedback).
Proof.
  eexists. rewrite ats_resume_checker_eq.
  assert (calculate_similarity_tfidf
            (@preprocess_text (lexicon_nlp []) ("Skills. " +:+ long_resume))
            (@preprocess_text (lexicon_nlp []) "engineer") = Ok 0%R) as ->
    by no_common_term.
  cbn [fmap result_fmap result_map]. do 2 f_equal; by vm_compute.
Qed.

(** A long sentence after "Skills" costs the five points of the grammar. *)
Lemma ats_resume_checker_extend_witness :
  25 ≤ 20 + 5 ∧
  (20 < 25 →
   25 = 20 + 5 ∧
   long_sentences (@nlp (lexicon_nlp []) "Skills") = [] ∧
   long_sentences (@nlp (lexicon_nlp []) ("Skills. " +:+ long_resume)) ≠ []).
Proof.
  destruct skills_run as [feedback Hrun], skills_long_run as [feedback' Hrun'].
  apply (@ats_resume_checker_extend (lexicon_nlp []) elements_order
           "Skills" ("Skills. " +:+ long_resume) "manager" "engineer"
           0%R 0%R 25 20 feedback feedback'); [by apply contains_spec | done..].
Defined.

(** The resume that names everything scores 120, and the resume of one
    long sentence scores 5. *)
Lemma final_score_extremes_witness :
  (Forall (λ entry, present full_resume entry.1) sections ∧
   certified full_resume ∧
   long_sentences (@nlp (lexicon_nlp []) full_resume) = []) ∧
  (Forall (λ entry, ¬ present long_resume entry.1) sections ∧
   ¬ certified long_resume ∧
   long_sentences (@nlp (lexicon_nlp []) long_resume) ≠ []).
Proof.
  destruct long_resume_run as [feedback Hrun]. split.
  - by apply (proj1 (@final_score_extremes (lexicon_nlp []) elements_order
                       _ _ _ _ _ full_resume_run)).
  - by apply (proj2 (@final_score_extremes (lexicon_nlp []) elements_order
                       _ _ _ _ _ Hrun)).
Defined.

(** The feedback of [worst_resume_run] has the 27 lines. *)
Lemma ats_resume_checker_feedback_shape_witness :
  ∃ feedback,
    length feedback = 27 ∧
    length feedback ≤ 27 ∧ Forall (starts_in feedback_heads) feedback.
Proof.
  destruct worst_resume_run as (feedback & Hrun & Hlen). exists feedback.
  split; [done|].
  apply (@ats_resume_checker_feedback_shape (lexicon_nlp []) elements_order _ _ _ _ _ Hrun).
Defined.

(** A run on two non-empty texts can fail: the only lemmas kept of
    "R & D 2021" are "r" and "d", and none is kept of "42 %". *)
Lemma ats_resume_checker_raises_lemmas_witness :
  @ats_resume_checker (lexicon_nlp []) elements_order "R & D 2021" "42 %"
  = Raise empty_vocabulary.
Proof.
  apply (@ats_resume_checker_raises_lemmas (lexicon_nlp [])
           (lexicon_nlp_lemma_laws [] eq_refl) elements_order).
  split_and!; [done | by_compute..].
Defined.

(** A job description that says the words of the resume twice is matched
    at 100: the kept lemmas are counted in proportion 1 to 2. *)
Lemma ats_resume_checker_matching_score_witness :
  match @ats_resume_checker (lexicon_nlp []) elements_order
          "Python Developer" "Developer, Python developer: PYTHON!" with
  | Ok (similarity_score, _, _) => similarity_score = 100%R
  | Raise _ => False
  end.
Proof.
  pose proof (@ats_resume_checker_matching_score (lexicon_nlp [])
                (lexicon_nlp_lemma_laws [] eq_refl) elements_order
                "Python Developer" "Developer, Python developer: PYTHON!") as Hrun.
  destruct (ats_resume_checker _ _) as [[[similarity_score n] fb]|e].
  - apply Hrun, (proportional_repeat 2 1); [lia..|]. by_compute.
  - by destruct Hrun as (_ & Hnil & _).
Defined.

(** A run on two texts without a letter fails. *)
Lemma ats_resume_checker_raises_witness :
  @ats_resume_checker (lexicon_nlp []) elements_order "2021 - 2024" "42 %"
  = Raise empty_vocabulary.
Proof.
  apply (@ats_resume_checker_raises (lexicon_nlp []) elements_order). by vm_compute.
Defined.

Lemma ats_resume_checker_same_text_witness :
  @ats_resume_checker (lexicon_nlp []) elements_order
    "Python Developer" "python developer" =
  Ok (100%R,
      (analyze_resume_structure "Python Developer").1
      + (analyze_certifications "Python Developer").1
      + (@analyze_grammar (lexicon_nlp []) "Python Developer").1,
      (analyze_resume_structure "Python Developer").2
      ++ (analyze_certifications "Python Developer").2
      ++ (@analyze_grammar (lexicon_nlp []) "Python Developer").2).
Proof. apply ats_resume_checker_same_text; by vm_compute. Defined.

Lemma ats_resume_checker_empty_resume_witness :
  @ats_resume_checker (lexicon_nlp []) elements_order "" "manager" =
  Ok (0%R, 10,
      mjoin ((λ e, missing_block e.1) <$> sections)
      ++ certification_advice
      ++ @suggest_improvements (lexicon_nlp []) elements_order "" "manager").
Proof.
  apply (@ats_resume_checker_empty_resume (lexicon_nlp []) elements_order
           (lexicon_nlp_laws [])).
  by vm_compute.
Defined.

Lemma ats_resume_checker_case_witness :
  @ats_resume_checker (lexicon_nlp []) elements_order "EXPERIENCE and Skills" "Manager"
  = @ats_resume_checker (lexicon_nlp []) elements_order "experience and skills" "manager".
Proof. apply ats_resume_checker_case; by vm_compute. Defined.

Lemma ats_resume_checker_refines_witness :
  ∃ b : breakdown,
    breakdown_ok b ∧ 120 = final_score b ∧ 5 ≤ 120 ≤ 120 ∧ (5 | 120).
Proof.
  eapply (@ats_resume_checker_refines (lexicon_nlp []) elements_order).
  apply full_resume_run.
Defined.

Lemma ats_resume_checker_score_independent_witness :
  (0%R, 120, [suggestions_header; "  - manager"; suggestions_footer]).1.2
  = (0%R, 120, [suggestions_header; "  - manager"; suggestions_footer]).1.2.
Proof.
  eapply (@ats_resume_checker_score_independent (lexicon_nlp []) elements_order
            full_resume "manager" "manager"); apply full_resume_run.
Defined.

Lemma ats_resume_checker_feedback_length_witness :
  length (0%R, 120, [suggestions_header; "  - manager"; suggestions_footer]).2 ≤ 27.
Proof.
  eapply (@ats_resume_checker_feedback_length (lexicon_nlp []) elements_order).
  apply full_resume_run.
Defined.

End Evaluator.
