(* ===== verification/Format.v ===== *)
(** * Format: the format specification [.2f] ([src/app.py], l.148)

    The script writes the matching score with [f"{similarity_score:.2f}"]:
    the number in fixed-point notation with two digits after the point.
    Python rounds the value to the nearest multiple of one hundredth, to
    the even one when the value is halfway between two, writes the sign of
    a negative value, then the integer part in decimal without leading
    zeros (one zero when it is zero), the point and the two digits.

    The number is a real number here, as in [Similarity]: the model is the
    formatting of the exact value.  [round_half_even] is the rounding,
    [fixed2] writes a number of hundredths and [format_2f] is the format.

    [read_2f] is the reference: it reads a text in this notation back as a
    number of hundredths.  The theorems show that what is written reads
    back as the rounded value ([format_2f_read]), which is at most half a
    hundredth from the value and monotone in it; which values are written
    as a given text ([format_2f_fixed2_iff]), in particular as 0.00 and as
    100.00; and that multiples of one hundredth are written exactly. *)

From Stdlib Require Import Ascii String ZArith Reals Zfloor Lra Lia.
From stdpp Require Import base tactics option list strings pretty.
From S2P Require Import Prelude.

Module Format.

(** ** The code *)

(** Rounding to the nearest integer, halfway cases to the even one. *)
Definition round_half_even (x : R) : Z :=
  let n := Zfloor x in
  if Rlt_dec (x - IZR n) (1 / 2) then n
  else if Rlt_dec (1 / 2) (x - IZR n) then (n + 1)%Z
  else if Z.even n then n else (n + 1)%Z.

(** A number of hundredths in fixed-point notation. *)
Definition fixed2 (n : N) : string :=
  pretty (n / 100)%N +:+
  String "." (String (pretty_N_char (n / 10 mod 10)%N)
                (String (pretty_N_char (n mod 10)%N) "")).

(** The format [.2f] of a number. *)
Definition format_2f (x : R) : string :=
  (if Rlt_dec x 0 then "-" else "") +:+
  fixed2 (Z.to_N (round_half_even (Rabs x * 100))).

(** ** Reference definitions *)

(** [n] is the integer nearest to [x], the even one of the two when [x]
    is halfway between them. *)
Definition nearest_even (x : R) (n : Z) : Prop :=
  (Rabs (x - IZR n) < 1 / 2)%R ∨ (Rabs (x - IZR n) = (1 / 2)%R ∧ Z.even n = true).

(** The value of a decimal digit: the code of the character, from the
    code of the digit zero. *)
Definition digit_of (c : ascii) : option N :=
  let code := N_of_ascii c in
  if (48 <=? code)%N && (code <=? 57)%N then Some (code - 48)%N else None.

(** Reading digits, a point and two digits, from the value [acc] of the
    digits already read. *)
Fixpoint read_fixed2 (s : string) (acc : N) : option N :=
  match s with
  | String "." (String d1 (String d2 "")) =>
      a ← digit_of d1; b ← digit_of d2; Some (100 * acc + 10 * a + b)%N
  | String c s => d ← digit_of c; read_fixed2 s (10 * acc + d)%N
  | "" => None
  end.

(** The number of hundredths that a text in fixed-point notation
    denotes. *)
Definition read_2f (s : string) : option Z :=
  match s with
  | String "-" s => n ← read_fixed2 s 0; Some (- Z.of_N n)%Z
  | _ => n ← read_fixed2 s 0; Some (Z.of_N n)
  end.

(** ** Rounding *)

Section rounding.
Local Open Scope R_scope.

Lemma round_half_even_nearest (x : R) : nearest_even x (round_half_even x).
Proof.
  unfold nearest_even, round_half_even. cbv zeta.
  pose proof (Zfloor_bound x) as [Hl Hu].
  destruct (Rlt_dec _ _) as [Hlt|Hge].
  { left. apply Rabs_def1; lra. }
  destruct (Rlt_dec _ _) as [Hgt|Hle].
  { left. rewrite plus_IZR. apply Rabs_def1; lra. }
  assert (x - IZR (Zfloor x) = 1 / 2) as Hhalf by lra.
  destruct (Z.even (Zfloor x)) eqn:Heven; right.
  - split; [|done]. rewrite Hhalf, Rabs_right; lra.
  - split; [|by rewrite Z.even_add, Heven].
    rewrite plus_IZR. replace (x - (IZR (Zfloor x) + 1)) with (- (1 / 2)) by lra.
    rewrite Rabs_Ropp, Rabs_right; lra.
Qed.

(** Two integers at distance less than one are equal. *)
Lemma nearest_even_close (x : R) (n m : Z) :
  Rabs (x - IZR n) + Rabs (x - IZR m) < 1 → n = m.
Proof.
  intros Hsum. assert (IZR (Z.abs (n - m)) < 1) as ?%lt_IZR; [|lia].
  rewrite abs_IZR, minus_IZR.
  replace (IZR n - IZR m) with ((x - IZR m) + - (x - IZR n)) by lra.
  eapply Rle_lt_trans; [apply Rabs_triang|]. rewrite Rabs_Ropp. lra.
Qed.

(** Two integers at distance one half from the same number differ by one
    or not at all. *)
Lemma nearest_even_halves (x : R) (n m : Z) :
  Rabs (x - IZR n) = 1 / 2 → Rabs (x - IZR m) = 1 / 2 →
  n = m ∨ n = (m + 1)%Z ∨ m = (n + 1)%Z.
Proof.
  unfold Rabs. do 2 destruct (Rcase_abs _); intros Hn Hm.
  - left. apply eq_IZR. lra.
  - right; left. apply eq_IZR. rewrite plus_IZR. lra.
  - right; right. apply eq_IZR. rewrite plus_IZR. lra.
  - left. apply eq_IZR. lra.
Qed.

Lemma nearest_even_unique (x : R) (n m : Z) :
  nearest_even x n → nearest_even x m → n = m.
Proof.
  intros [Hn|[Hn En]] [Hm|[Hm Em]];
    try (apply (nearest_even_close x); lra).
  destruct (nearest_even_halves x n m Hn Hm) as [?|[->| ->]]; [done|..].
  - by rewrite Z.even_add, Em in En.
  - by rewrite Z.even_add, En in Em.
Qed.

Lemma round_half_even_eq (x : R) (n : Z) :
  round_half_even x = n ↔ nearest_even x n.
Proof.
  split; [intros <-; apply round_half_even_nearest|].
  intros Hn. eapply nearest_even_unique; [apply round_half_even_nearest | done].
Qed.

Lemma round_half_even_IZR (n : Z) : round_half_even (IZR n) = n.
Proof. apply round_half_even_eq. left. rewrite Rminus_diag, Rabs_R0. lra. Qed.

Lemma round_half_even_opp (x : R) : round_half_even (- x) = (- round_half_even x)%Z.
Proof.
  apply round_half_even_eq. pose proof (round_half_even_nearest x) as Hx.
  unfold nearest_even in *. rewrite opp_IZR, Z.even_opp.
  replace (- x - - IZR (round_half_even x)) with (- (x - IZR (round_half_even x))) by lra.
  by rewrite Rabs_Ropp.
Qed.

Lemma round_half_even_error (x : R) : Rabs (x - IZR (round_half_even x)) <= 1 / 2.
Proof. destruct (round_half_even_nearest x) as [?|[? _]]; lra. Qed.

(** The same without absolute values. *)
Lemma nearest_even_bounds (x : R) (n : Z) :
  nearest_even x n ↔
  IZR n - 1 / 2 <= x <= IZR n + 1 / 2 ∧
  (x = IZR n - 1 / 2 ∨ x = IZR n + 1 / 2 → Z.even n = true).
Proof.
  unfold nearest_even, Rabs. destruct (Rcase_abs _); split.
  - intros [?|[? ?]]; (split; [lra|]); [lra | done].
  - intros [? Heven]. destruct (Req_dec_T x (IZR n - 1 / 2)); [right|left]; [|lra].
    split; [lra | auto].
  - intros [?|[? ?]]; (split; [lra|]); [lra | done].
  - intros [? Heven]. destruct (Req_dec_T x (IZR n + 1 / 2)); [right|left]; [|lra].
    split; [lra | auto].
Qed.

(** A number whose nearest integer is [n] is above every number whose
    nearest integer is below [n]. *)
Lemma nearest_even_lt (x y : R) (n m : Z) :
  nearest_even x n → nearest_even y m → (m < n)%Z → y < x.
Proof.
  intros [Hx Ex]%nearest_even_bounds [Hy Ey]%nearest_even_bounds Hlt.
  assert (IZR m + 1 <= IZR n) as Hz by (rewrite <- plus_IZR; apply IZR_le; lia).
  destruct (Rlt_le_dec y x) as [|Hxy]; [done|exfalso].
  assert (n = (m + 1)%Z) as -> by (apply eq_IZR; rewrite plus_IZR; lra).
  rewrite plus_IZR in *.
  rewrite Z.even_add, Ey in Ex by lra. by discriminate Ex; lra.
Qed.

Lemma round_half_even_mono (x y : R) :
  x <= y → (round_half_even x <= round_half_even y)%Z.
Proof.
  intros Hxy.
  destruct (Z_le_gt_dec (round_half_even x) (round_half_even y)) as [|Hgt]; [done|].
  assert (y < x); [|lra].
  eapply nearest_even_lt; [apply round_half_even_nearest..|lia].
Qed.

Lemma round_half_even_nonneg (x : R) : 0 <= x → (0 <= round_half_even x)%Z.
Proof.
  intros Hx. rewrite <- (round_half_even_IZR 0). by apply round_half_even_mono.
Qed.

End rounding.

(** ** Digits *)

Section digits.
Local Open Scope N_scope.

Lemma digit_of_pretty (d : N) : d < 10 → digit_of (pretty_N_char d) = Some d.
Proof.
  intros Hd.
  assert (d = 0 ∨ d = 1 ∨ d = 2 ∨ d = 3 ∨ d = 4 ∨ d = 5 ∨ d = 6 ∨ d = 7 ∨ d = 8 ∨ d = 9)
    as Hcases by lia.
  destruct_or!; by subst.
Qed.

(** A digit before the point is read into the accumulator. *)
Lemma read_fixed2_digit (d : N) (s : string) (acc : N) :
  d < 10 → read_fixed2 (String (pretty_N_char d) s) acc = read_fixed2 s (10 * acc + d).
Proof.
  intros Hd. cbn [read_fixed2]. rewrite digit_of_pretty by done.
  assert (pretty_N_char d ≠ "."%char) by (unfold pretty_N_char; by repeat case_match).
  by destruct (pretty_N_char d) as [[] [] [] [] [] [] [] []].
Qed.

Lemma pretty_N_go_app (x : N) (s t : string) :
  pretty_N_go x s +:+ t = pretty_N_go x (s +:+ t).
Proof.
  revert s. induction (N.lt_wf_0 x) as [x _ IH]; intros s.
  destruct (decide (x = 0)) as [->|]; [by rewrite !pretty_N_go_0|].
  rewrite (pretty_N_go_step x s), (pretty_N_go_step x (s +:+ t)) by lia.
  rewrite IH by (apply N.div_lt; lia). done.
Qed.

Lemma read_fixed2_pretty_go (x : N) (s : string) :
  read_fixed2 (pretty_N_go x s) 0 = read_fixed2 s x.
Proof.
  revert s. induction (N.lt_wf_0 x) as [x _ IH]; intros s.
  destruct (decide (x = 0)) as [->|]; [by rewrite pretty_N_go_0|].
  rewrite pretty_N_go_step, IH by (lia || apply N.div_lt; lia).
  rewrite read_fixed2_digit by by apply N.mod_lt.
  f_equal. rewrite (N.div_mod x 10) at 3 by done. lia.
Qed.

Lemma read_fixed2_pretty (x : N) (s : string) :
  read_fixed2 (pretty x +:+ s) 0 = read_fixed2 s x.
Proof.
  unfold pretty, pretty_N. case_decide as Hx.
  - subst x. change ("0" +:+ s) with (String (pretty_N_char 0) s).
    by rewrite read_fixed2_digit.
  - rewrite pretty_N_go_app. apply read_fixed2_pretty_go.
Qed.

Lemma read_fixed2_fixed2 (n : N) : read_fixed2 (fixed2 n) 0 = Some n.
Proof.
  unfold fixed2. rewrite read_fixed2_pretty. cbn [read_fixed2].
  rewrite !digit_of_pretty by (by apply N.mod_lt). cbn. f_equal.
  pose proof (N.div_mod n 10). pose proof (N.div_mod (n / 10) 10).
  pose proof (N.Div0.div_div n 10 10) as Hdiv. change (10 * 10) with 100 in Hdiv. lia.
Qed.

Lemma fixed2_no_sign (n : N) (s : string) : fixed2 n ≠ String "-" s.
Proof.
  unfold fixed2, pretty, pretty_N. case_decide; [done|].
  rewrite pretty_N_go_app. by apply pretty_N_go_ne_dash.
Qed.

Lemma read_2f_fixed2 (n : N) : read_2f (fixed2 n) = Some (Z.of_N n).
Proof.
  pose proof (fixed2_no_sign n) as Hsign. pose proof (read_fixed2_fixed2 n) as Hread.
  unfold read_2f. destruct (fixed2 n) as [|c s]; [done|].
  destruct (decide (c = "-"%char)) as [->|Hc]; [by destruct (Hsign s)|].
  rewrite Hread. cbn. by destruct c as [[] [] [] [] [] [] [] []].
Qed.

#[export] Instance fixed2_inj : Inj (=) (=) fixed2.
Proof.
  intros n m Heq. pose proof (read_fixed2_fixed2 n) as Hn.
  rewrite Heq, read_fixed2_fixed2 in Hn. by injection Hn.
Qed.

End digits.

(** ** The format *)

Section format.
Local Open Scope R_scope.

Lemma format_2f_nonneg (x : R) :
  0 <= x → format_2f x = fixed2 (Z.to_N (round_half_even (x * 100))).
Proof.
  intros Hx. unfold format_2f. destruct (Rlt_dec x 0); [lra|].
  by rewrite Rabs_right by lra.
Qed.

Lemma format_2f_neg (x : R) :
  x < 0 → format_2f x = String "-" (fixed2 (Z.to_N (round_half_even (- x * 100)))).
Proof.
  intros Hx. unfold format_2f. destruct (Rlt_dec x 0); [|lra].
  by rewrite Rabs_left by lra.
Qed.

Lemma hundredths_nonneg (x : R) : 0 <= x → (0 <= round_half_even (x * 100))%Z.
Proof. intros Hx. apply round_half_even_nonneg. lra. Qed.

(** What is written reads back as the value rounded to hundredths. *)
Lemma format_2f_read_back (x : R) :
  read_2f (format_2f x) = Some (round_half_even (x * 100)).
Proof.
  destruct (Rlt_le_dec x 0) as [Hneg|Hpos].
  - rewrite format_2f_neg by done. cbn [read_2f].
    rewrite read_fixed2_fixed2. cbn. f_equal.
    rewrite Z2N.id by (apply hundredths_nonneg; lra).
    rewrite <- round_half_even_opp. f_equal. lra.
  - rewrite format_2f_nonneg, read_2f_fixed2 by done. f_equal.
    by apply Z2N.id, hundredths_nonneg.
Qed.

Lemma hundredths_error (x : R) :
  Rabs (x - IZR (round_half_even (x * 100)) / 100) <= 1 / 200.
Proof.
  pose proof (round_half_even_error (x * 100)) as Herr.
  replace (x - IZR (round_half_even (x * 100)) / 100)
    with ((x * 100 - IZR (round_half_even (x * 100))) * / 100) by lra.
  rewrite Rabs_mult, (Rabs_right (/ 100)) by lra. lra.
Qed.

(** C39: what [.2f] writes can be read back, and what is read is the
    value rounded to the nearest hundredth, halfway cases to the even one:
    at most half a hundredth from the value. *)
Theorem format_2f_read (x : R) :
  ∃ h, read_2f (format_2f x) = Some h ∧ nearest_even (x * 100) h ∧
       Rabs (x - IZR h / 100) <= 1 / 200.
Proof.
  exists (round_half_even (x * 100)).
  split_and!;
    [apply format_2f_read_back | apply round_half_even_nearest | apply hundredths_error].
Qed.

(** A larger value is never written as a smaller number. *)
Lemma format_2f_mono (x y : R) (h k : Z) :
  x <= y → read_2f (format_2f x) = Some h → read_2f (format_2f y) = Some k →
  (h <= k)%Z.
Proof.
  rewrite !format_2f_read_back. intros Hxy [= <-] [= <-].
  apply round_half_even_mono. lra.
Qed.

(** The values written as a given text. *)
Lemma format_2f_fixed2_iff (x : R) (n : N) :
  format_2f x = fixed2 n ↔ 0 <= x ∧ nearest_even (x * 100) (Z.of_N n).
Proof.
  rewrite <- round_half_even_eq. destruct (Rlt_le_dec x 0) as [Hneg|Hpos].
  - rewrite format_2f_neg by done. split; [|lra].
    intros Heq. symmetry in Heq. by apply fixed2_no_sign in Heq.
  - rewrite format_2f_nonneg by done. pose proof (hundredths_nonneg x Hpos).
    split; [intros <-%(inj fixed2)|intros [_ Heq]].
    + split; [done|]. by rewrite Z2N.id.
    + by rewrite Heq, N2Z.id.
Qed.

(** A number of hundredths is written exactly. *)
Lemma format_2f_exact (n : N) : format_2f (IZR (Z.of_N n) / 100) = fixed2 n.
Proof.
  apply format_2f_fixed2_iff. pose proof (IZR_le 0 (Z.of_N n) (N2Z.is_nonneg n)).
  split; [lra|]. apply round_half_even_eq.
  replace (IZR (Z.of_N n) / 100 * 100) with (IZR (Z.of_N n)) by lra.
  apply round_half_even_IZR.
Qed.

Lemma format_2f_0_iff (x : R) : format_2f x = "0.00" ↔ 0 <= x <= 1 / 200.
Proof.
  change "0.00" with (fixed2 0). rewrite format_2f_fixed2_iff, nearest_even_bounds.
  cbn. split; [lra|]. intros ?. split_and!; (lra || done).
Qed.

Lemma format_2f_100_iff (x : R) :
  format_2f x = "100.00" ↔ 99995 / 1000 <= x <= 100005 / 1000.
Proof.
  change "100.00" with (fixed2 10000). rewrite format_2f_fixed2_iff, nearest_even_bounds.
  cbn. split; [lra|]. intros ?. split_and!; (lra || done).
Qed.

Lemma format_2f_0 : format_2f 0 = "0.00".
Proof. apply format_2f_0_iff. lra. Qed.

Lemma format_2f_100 : format_2f 100 = "100.00".
Proof. apply format_2f_100_iff. lra. Qed.

(** A percentage is written as a number from 0.00 to 100.00. *)
Lemma hundredths_percent (x : R) :
  0 <= x <= 100 → (0 ≤ round_half_even (x * 100) ≤ 10000)%Z.
Proof.
  intros Hx. split; [apply hundredths_nonneg; lra|].
  rewrite <- (round_half_even_IZR 10000). apply round_half_even_mono. lra.
Qed.

End format.

#[export] Hint Rewrite format_2f_0 format_2f_100 : ats_rw.
End Format.
