(* ===== verification/App.v ===== *)
(** * App: [extract_text_from_pdf] and the script ([src/app.py], l.11-24, l.137-160)

    The script is run by Streamlit from top to bottom each time a widget
    changes.  A run reads the widgets (the uploaded file, the job
    description, whether the button was pressed) and shows elements on the
    page.  It is modelled as a function from the state of the widgets to
    the list of elements shown, in order, and to the way the run ends:
    normally, or with the exception that nothing catches.

    The monad [ui] carries both.  The PDF library is the interface [PDF];
    the matching score is written with the format of [Format].  The
    statement [try ... except Exception] is [try_except]: it handles the
    exceptions that derive from [Exception] and lets the others pass.
    [outcome] is the decision table of the script; [app_eq] shows that the
    script implements it, and the theorems read the table: what is shown in
    each case, when a run ends with an exception, that nothing is written
    unless a text was extracted, what the matching score on the page
    says of the similarity, and that a page has between 4 and 34
    elements.  The loop over the pages is run step by step on the
    machine of [Loops]: [pages_state] says in which state it is after each
    number of steps, with the texts of the pages read so far in order, or
    with the first exception of a page ([read_pages_run]).  [Session] runs the script again after each
    interaction. *)

From Stdlib Require Import Ascii String ZArith Reals Lra.
From stdpp Require Import base tactics option list strings pretty gmap relations.
From S2P Require Import Prelude Loops PyStr Format Nlp Keywords Normalizer Similarity Evaluator.

Module App.
Import Loops PyStr Format Nlp Keywords Normalizer Similarity Evaluator.

(** ** The page *)

(** The elements a run shows, one constructor for each Streamlit call of
    the source. *)
Inductive event : Type :=
| Title (body : string)
| FileUploader (label : string) (type : list string)
| TextArea (label : string)
| Button (label : string)
| Write (body : string)
| Error (body : string)
| Warning (body : string).

#[export] Instance event_eq_dec : EqDecision event.
Proof. solve_decision. Defined.

(** A computation of the script: the elements shown so far and a value or
    the exception that ended the run. *)
Definition ui (A : Type) : Type := (list event * result A)%type.

Definition ui_ret {A : Type} (a : A) : ui A := ([], Ok a).

Definition ui_bind {A B : Type} (k : A → ui B) (m : ui A) : ui B :=
  match m.2 with
  | Ok a => (m.1 ++ (k a).1, (k a).2)
  | Raise e => (m.1, Raise e)
  end.

#[export] Instance ui_mret : MRet ui := @ui_ret.
#[export] Instance ui_mbind : MBind ui := @ui_bind.

(** Showing one element, and running a computation that shows nothing. *)
Definition show (e : event) : ui unit := ([e], Ok tt).
Definition lift {A : Type} (r : result A) : ui A := ([], r).

(** A [for] loop whose body shows elements. *)
Fixpoint for_each {A : Type} (l : list A) (body : A → ui unit) : ui unit :=
  match l with
  | [] => mret tt
  | x :: l => body x;; for_each l body
  end.

(** The statement [try: body except Exception as e: handler] (l.13, l.20).
    An exception of the body that derives from [Exception] starts the
    handler, after the elements the body has shown; any other exception
    passes. *)
Definition try_except {A : Type} (body : ui A) (handler : exn → ui A) : ui A :=
  match body.2 with
  | Ok _ => body
  | Raise e =>
      if is_Exception e then (body.1 ++ (handler e).1, (handler e).2) else body
  end.

(** ** The libraries *)

(** The PDF library and the uploaded file: [read] gives the bytes of the
    upload, [pymupdf_open] parses them into pages, [get_text] extracts the
    text of a page.  Each can raise. *)
Class PDF : Type := {
  UploadedFile : Type;
  Page : Type;
  read : UploadedFile → result string;
  pymupdf_open : string → result (list Page);
  get_text : Page → result string
}.

(** What the widgets return in a run. *)
Record widgets `{PDF} : Type := Widgets {
  uploaded_file : option UploadedFile;
  job_description : string;
  button : bool
}.

(** An object without [__bool__] and [__len__] is true; [None] is false. *)
Definition not_none {A : Type} (x : option A) : bool :=
  match x with Some _ => true | None => false end.

Section app.
Context `{NLP} `{SetOrder} `{PDF}.

Definition st_title (body : string) : ui unit := show (Title body).
Definition st_write (body : string) : ui unit := show (Write body).
Definition st_error (body : string) : ui unit := show (Error body).
Definition st_warning (body : string) : ui unit := show (Warning body).

Definition st_file_uploader (w : widgets) (label : string) (type : list string) :
    ui (option UploadedFile) :=
  show (FileUploader label type);; mret (uploaded_file w).

Definition st_text_area (w : widgets) (label : string) : ui string :=
  show (TextArea label);; mret (job_description w).

Definition st_button (w : widgets) (label : string) : ui bool :=
  show (Button label);; mret (button w).

(** ** The code *)

(** The body of the loop over the pages (l.18): the text of the page is
    extracted, then appended to the text read so far. *)
Definition pages_body (text : string) (page : Page) : result string :=
  s ← get_text page; mret (text +:+ s).

(** The body of the [try] block (l.14-19): the text of the pages, in
    order, appended to the empty string. *)
Definition read_pages (uploaded_file : UploadedFile) : result string :=
  pdf_bytes ← read uploaded_file;
  doc ← pymupdf_open pdf_bytes;
  for_loop pages_body doc "".

(** [extract_text_from_pdf] (l.11-24). *)
Definition extract_text_from_pdf (uploaded_file : option UploadedFile) : ui string :=
  match uploaded_file with
  | Some file =>
      try_except (lift (read_pages file))
        (λ e, st_error ("Error: Unable to read the uploaded file. " +:+ exn_msg e);;
              mret "")
  | None => mret ""
  end.

(** The report of a run of the checker (l.148-156). *)
Definition report (similarity_score : R) (final_score : nat) (feedback : list string) :
    ui unit :=
  st_write ("Matching Score: " +:+ format_2f similarity_score +:+ "%");;
  st_write ("Final Resume Score: " +:+ pretty final_score +:+ "/100");;
  match feedback with
  | _ :: _ =>
      st_write "Detailed suggestions to improve your resume:";;
      for_each feedback st_write
  | [] => st_write "Your resume matches well with the job description!"
  end.

(** The script (l.137-160). *)
Definition app (w : widgets) : ui unit :=
  st_title "ATS Resume Checker";;
  uploaded_file ← st_file_uploader w "Upload your resume (PDF)" ["pdf"];
  job_description ← st_text_area w "Enter Job Description";
  pressed ← st_button w "Analyze Resume";
  if (pressed : bool) then
    if not_none uploaded_file && truthy job_description then
      resume_text ← extract_text_from_pdf uploaded_file;
      if truthy resume_text then
        '(similarity_score, final_score, feedback) ←
          lift (ats_resume_checker resume_text job_description);
        report similarity_score final_score feedback
      else
        st_error "Unable to read the uploaded file. Please check the file and try again."
    else
      st_warning "Please upload a resume and enter a job description."
  else ui_ret tt.

End app.

(** ** Reference definitions *)

(** The widgets, which every run shows first. *)
Definition widgets_shown : list event :=
  [ Title "ATS Resume Checker";
    FileUploader "Upload your resume (PDF)" ["pdf"];
    TextArea "Enter Job Description";
    Button "Analyze Resume" ].

Definition missing_input : event :=
  Warning "Please upload a resume and enter a job description.".

Definition unreadable : event :=
  Error "Unable to read the uploaded file. Please check the file and try again.".

Definition read_error (e : exn) : event :=
  Error ("Error: Unable to read the uploaded file. " +:+ exn_msg e).

Definition matches_well : event :=
  Write "Your resume matches well with the job description!".

(** The elements that [st.write] shows. *)
Definition is_write (e : event) : bool :=
  match e with Write _ => true | _ => false end.

(** The cases of a run. *)
Inductive case : Type :=
| Idle
| MissingInput
| ReadError (e : exn)
| NoText
| Crash (e : exn)
| Report (similarity_score : R) (final_score : nat) (feedback : list string).

Section table.
Context `{NLP} `{SetOrder} `{PDF}.

(** The texts of the pages of an upload, in order. *)
Definition page_texts (file : UploadedFile) : result (list string) :=
  pdf_bytes ← read file; doc ← pymupdf_open pdf_bytes; mapM get_text doc.

(** The states of the loop over the pages of [doc], entered with [text]
    read so far, after a number of steps: reading, with the pages [done]
    behind it and their texts appended in order; left normally, with the
    texts of all the pages; or left by the exception of the first page
    that cannot be read. *)
Inductive pages_state (text : string) (doc : list Page)
    : nat → @config Page string → Prop :=
| pages_reading done rest texts :
    doc = done ++ rest → mapM get_text done = Ok texts →
    pages_state text doc (length done)
      (Iterating rest (text +:+ foldr String.append "" texts))
| pages_read texts :
    mapM get_text doc = Ok texts →
    pages_state text doc (S (length doc))
      (Finished (text +:+ foldr String.append "" texts))
| pages_failed done page rest texts e :
    doc = done ++ page :: rest → mapM get_text done = Ok texts →
    get_text page = Raise e →
    pages_state text doc (S (length done)) (Raised e).

(** The case of a run, from the state of the widgets. *)
Definition case_of (w : widgets) : case :=
  if button w then
    match uploaded_file w with
    | Some file =>
        if truthy (job_description w) then
          match read_pages file with
          | Ok text =>
              if truthy text then
                match ats_resume_checker text (job_description w) with
                | Ok (similarity_score, final_score, feedback) =>
                    Report similarity_score final_score feedback
                | Raise e => Crash e
                end
              else NoText
          | Raise e => if is_Exception e then ReadError e else Crash e
          end
        else MissingInput
    | None => MissingInput
    end
  else Idle.

(** What a report shows. *)
Definition report_shown (similarity_score : R) (final_score : nat)
    (feedback : list string) : list event :=
  [ Write ("Matching Score: " +:+ format_2f similarity_score +:+ "%");
    Write ("Final Resume Score: " +:+ pretty final_score +:+ "/100") ] ++
  match feedback with
  | [] => [matches_well]
  | _ => Write "Detailed suggestions to improve your resume:" :: (Write <$> feedback)
  end.

(** What a run shows after the widgets, and how it ends. *)
Definition outcome (c : case) : ui unit :=
  match c with
  | Idle => (widgets_shown, Ok tt)
  | MissingInput => (widgets_shown ++ [missing_input], Ok tt)
  | ReadError e => (widgets_shown ++ [read_error e; unreadable], Ok tt)
  | NoText => (widgets_shown ++ [unreadable], Ok tt)
  | Crash e => (widgets_shown, Raise e)
  | Report similarity_score final_score feedback =>
      (widgets_shown ++ report_shown similarity_score final_score feedback, Ok tt)
  end.

(** The checker runs: the button was pressed, a file and a job
    description are there, and the file gave a text. *)
Definition runs_checker (w : widgets) (file : UploadedFile) (text : string) : Prop :=
  button w = true ∧ uploaded_file w = Some file ∧ job_description w ≠ "" ∧
  read_pages file = Ok text ∧ text ≠ "".

(** The extraction passes an exception on: the button was pressed, a file
    and a job description are there, and reading the file raised what is
    no [Exception]. *)
Definition passes_on (w : widgets) (file : UploadedFile) (e : exn) : Prop :=
  button w = true ∧ uploaded_file w = Some file ∧ job_description w ≠ "" ∧
  read_pages file = Raise e ∧ is_Exception e = false.

End table.

(** ** The script implements the table *)

(** The laws of the monad [ui]. *)
Lemma ui_left_id {A B : Type} (a : A) (k : A → ui B) : mret a ≫= k = k a.
Proof. unfold mbind, ui_mbind, ui_bind. cbn. by destruct (k a). Qed.

Lemma ui_right_id {A : Type} (m : ui A) : m ≫= mret = m.
Proof.
  destruct m as [shown [a|e]]; [|done]. unfold mbind, ui_mbind, ui_bind. cbn.
  by rewrite app_nil_r.
Qed.

Lemma ui_assoc {A B C : Type} (m : ui A) (f : A → ui B) (g : B → ui C) :
  (m ≫= f) ≫= g = m ≫= λ a, f a ≫= g.
Proof.
  destruct m as [shown [a|e]]; [|done]. unfold mbind, ui_mbind, ui_bind. cbn.
  destruct (f a) as [shown' [b|e]]; cbn; [|done]. by rewrite app_assoc.
Qed.

(** What is shown stays shown: a computation extends the page. *)
Lemma ui_bind_shown {A B : Type} (m : ui A) (k : A → ui B) :
  m.1 `prefix_of` (m ≫= k).1.
Proof.
  destruct m as [shown [a|e]]; unfold mbind, ui_mbind, ui_bind; cbn;
    [by eexists | done].
Qed.

Lemma no_write (shown : list event) (body : string) :
  forallb (λ e, negb (is_write e)) shown = true → Write body ∉ shown.
Proof.
  intros Hall Hin%list_elem_of_In. rewrite forallb_forall in Hall.
  by apply Hall in Hin.
Qed.

(** Closes the last case of [case_of_cases] with the elements shown. *)
Ltac writes_nothing shown :=
  right; right; exists shown; split;
  [by rewrite ?app_nil_r | by intros body; apply no_write].

(** The statement with a body that shows nothing and a handler that
    returns. *)
Lemma try_except_lift {A : Type} (body : result A) (handler : exn → ui A) :
  try_except (lift body) handler =
  match body with
  | Ok a => ([], Ok a)
  | Raise e => if is_Exception e then handler e else ([], Raise e)
  end.
Proof.
  unfold try_except, lift. destruct body as [a|e]; [done|]. cbn.
  destruct (is_Exception e); [by destruct (handler e) | done].
Qed.

(** What the statement has shown stays shown, as with [ui_bind_shown]. *)
Lemma try_except_shown {A : Type} (body : ui A) (handler : exn → ui A) :
  body.1 `prefix_of` (try_except body handler).1.
Proof.
  unfold try_except. destruct body as [shown [a|e]]; cbn; [done|].
  destruct (is_Exception e); [by eexists | done].
Qed.

Section lemmas.
Context `{NLP} `{SetOrder} `{PDF}.

Lemma for_each_write (l : list string) : for_each l st_write = (Write <$> l, Ok tt).
Proof. induction l as [|x l IH]; [done|]. cbn [for_each]. by rewrite IH. Qed.

(** The loop over the feedback (l.153-154) as the [for] statement runs
    it, from the elements already shown: one element is written for each
    line, and no iteration can raise. *)
Lemma report_loop_steps (feedback : list string) (shown : list event) :
  nsteps (for_step (λ shown suggestion, Ok (shown ++ [Write suggestion])))
    (S (length feedback)) (Iterating feedback shown)
    (Finished (shown ++ (Write <$> feedback))).
Proof.
  rewrite <- (foldl_snoc Write feedback shown).
  apply (pure_loop_steps (λ shown suggestion, shown ++ [Write suggestion])).
Qed.

Lemma report_eq (similarity_score : R) (final_score : nat) (feedback : list string) :
  report similarity_score final_score feedback
  = (report_shown similarity_score final_score feedback, Ok tt).
Proof.
  unfold report, report_shown. destruct feedback as [|line feedback]; [done|].
  by rewrite for_each_write.
Qed.

(** The extraction, case by case. *)
Lemma extract_text_from_pdf_eq (upload : option UploadedFile) :
  extract_text_from_pdf upload =
  match upload with
  | Some file =>
      match read_pages file with
      | Ok text => ([], Ok text)
      | Raise e => if is_Exception e then ([read_error e], Ok "") else ([], Raise e)
      end
  | None => ([], Ok "")
  end.
Proof.
  unfold extract_text_from_pdf. destruct upload as [file|]; [|done].
  rewrite try_except_lift. by destruct (read_pages file).
Qed.

Lemma app_eq (w : widgets) : app w = outcome (case_of w).
Proof.
  unfold app, case_of. destruct w as [uf jd b].
  cbn -[truthy extract_text_from_pdf ats_resume_checker report append widgets_shown].
  destruct b; [|done]. destruct uf as [file|]; [|done].
  destruct (truthy jd); [|done].
  rewrite extract_text_from_pdf_eq.
  cbn -[truthy ats_resume_checker report append read_pages].
  destruct (read_pages file) as [text|e]; [|by destruct (is_Exception e)].
  cbn -[truthy ats_resume_checker report append].
  destruct (truthy text); [|done].
  destruct (ats_resume_checker text jd) as [[[s n] fb]|e]; [|done].
  by rewrite report_eq.
Qed.

(** Every run shows the four widgets first, whatever it does next: the
    page never loses its inputs. *)
Lemma app_shows_widgets (w : widgets) : widgets_shown `prefix_of` (app w).1.
Proof.
  rewrite app_eq. destruct (case_of w); cbn [outcome fst];
    try apply prefix_app_r; done.
Qed.

Lemma case_of_runs (w : widgets) (file : UploadedFile) (text : string) :
  runs_checker w file text →
  case_of w =
  match ats_resume_checker text (job_description w) with
  | Ok (similarity_score, final_score, feedback) =>
      Report similarity_score final_score feedback
  | Raise e => Crash e
  end.
Proof.
  intros (Hb & Hf & Hjd%truthy_spec & Hr & Ht%truthy_spec).
  unfold case_of. by rewrite Hb, Hf, Hjd, Hr, Ht.
Qed.

Lemma case_of_passes (w : widgets) (file : UploadedFile) (e : exn) :
  passes_on w file e → case_of w = Crash e.
Proof.
  intros (Hb & Hf & Hjd%truthy_spec & Hr & He).
  unfold case_of. by rewrite Hb, Hf, Hjd, Hr, He.
Qed.

(** The checker runs, or the extraction passes an exception on; in every
    other case the run ends normally and writes nothing. *)
Lemma case_of_cases (w : widgets) :
  (∃ file text, runs_checker w file text) ∨
  (∃ file e, passes_on w file e) ∨
  (∃ shown, outcome (case_of w) = (widgets_shown ++ shown, Ok tt) ∧
            ∀ body, Write body ∉ shown).
Proof.
  unfold case_of, runs_checker, passes_on. destruct w as [uf jd b]. cbn.
  destruct b; [|writes_nothing (@nil event)].
  destruct uf as [file|]; [|writes_nothing [missing_input]].
  destruct (truthy jd) eqn:Hjd; [|writes_nothing [missing_input]].
  apply truthy_spec in Hjd. destruct (read_pages file) as [text|e] eqn:Hr.
  - destruct (truthy text) eqn:Ht; [|writes_nothing [unreadable]].
    apply truthy_spec in Ht. left. by exists file, text.
  - destruct (is_Exception e) eqn:He; [writes_nothing [read_error e; unreadable]|].
    right. left. by exists file, e.
Qed.

Lemma widgets_shown_no_write (body : string) : Write body ∉ widgets_shown.
Proof. by apply no_write. Qed.

(** The loop over the pages, from any text read so far. *)
Lemma read_pages_loop (doc : list Page) (text : string) :
  for_loop pages_body doc text =
  (texts ← mapM get_text doc; mret (text +:+ foldr String.append "" texts)).
Proof.
  revert text. induction doc as [|page doc IH]; intros text.
  { cbn. by rewrite string_app_nil_r. }
  rewrite for_loop_cons.
  change (pages_body text page) with (get_text page ≫= λ s, mret (text +:+ s)).
  cbn [mapM]. destruct (get_text page) as [s|e]; [|done].
  cbn -[for_loop pages_body]. rewrite IH.
  destruct (mapM get_text doc); [|done]. cbn. by rewrite string_app_assoc.
Qed.

(** A run that writes something is a run of the checker that returned,
    and what it shows is the report. *)
Lemma app_write_inv (w : widgets) (body : string) :
  Write body ∈ (app w).1 →
  ∃ file text similarity_score final_score feedback,
    runs_checker w file text ∧
    ats_resume_checker text (job_description w)
      = Ok (similarity_score, final_score, feedback) ∧
    app w = (widgets_shown ++ report_shown similarity_score final_score feedback, Ok tt).
Proof.
  rewrite app_eq.
  destruct (case_of_cases w)
    as [(file & text & Hr)|[(file & e & ->%case_of_passes)|(shown & -> & Hnw)]].
  - rewrite (case_of_runs w file text Hr).
    destruct (ats_resume_checker _ _) as [[[s n] fb]|e'] eqn:Hrun.
    + intros _. by exists file, text, s, n, fb.
    + by intros ?%widgets_shown_no_write.
  - by intros ?%widgets_shown_no_write.
  - cbn [fst]. intros [?%widgets_shown_no_write|?%Hnw]%elem_of_app; done.
Qed.

Lemma report_shown_length (similarity_score : R) (final_score : nat)
    (feedback : list string) :
  length (report_shown similarity_score final_score feedback) = 3 + length feedback.
Proof. unfold report_shown. destruct feedback; cbn; by rewrite ?length_fmap. Qed.

(** A run shows at most 34 elements: the four widgets, the two scores, a
    heading and the lines of feedback, of which there are at most 27. *)
Lemma app_shown_length (w : widgets) : 4 ≤ length (app w).1 ≤ 34.
Proof.
  rewrite app_eq. unfold case_of.
  repeat case_match; subst; cbn [outcome fst];
    rewrite ?length_app, ?report_shown_length; cbn [length widgets_shown]; try lia.
  match goal with
  | Hrun : ats_resume_checker _ _ = Ok _ |- _ =>
      apply ats_resume_checker_feedback_length in Hrun; cbn in Hrun; lia
  end.
Qed.

(** ** Text extraction *)

(** The text read from an upload is the concatenation of the texts of
    its pages, in order; reading fails with the first exception of [read],
    of [pymupdf_open] or of a page. *)
Lemma read_pages_spec (file : UploadedFile) :
  read_pages file = foldr String.append "" <$> page_texts file.
Proof.
  unfold read_pages, page_texts. destruct (read file) as [pdf_bytes|e]; [|done]. cbn.
  destruct (pymupdf_open pdf_bytes) as [doc|e]; [|done]. cbn.
  rewrite read_pages_loop. cbn. by destruct (mapM get_text doc).
Qed.

(** *** The loop over the pages, step by step *)

Lemma pages_state_start (text : string) (doc : list Page) :
  pages_state text doc 0 (Iterating doc text).
Proof.
  rewrite <- (string_app_nil_r text) at 2. by apply (pages_reading text doc [] doc []).
Qed.

Lemma pages_state_cons (text s : string) (page : Page) (doc : list Page)
    (n : nat) (c : @config Page string) :
  get_text page = Ok s →
  pages_state (text +:+ s) doc n c → pages_state text (page :: doc) (S n) c.
Proof.
  intros Hs. assert (∀ done texts, mapM get_text done = Ok texts →
    mapM get_text (page :: done) = Ok (s :: texts)) as Hcons
    by (intros done texts Hd; apply mapM_result_cons; by eauto).
  destruct 1 as [done rest texts -> Hd|texts Hd|done p rest texts e -> Hd He];
    rewrite ?string_app_assoc.
  - apply (pages_reading text _ (page :: done) rest (s :: texts)); auto.
  - apply (pages_read text (page :: doc) (s :: texts)); auto.
  - apply (pages_failed text _ (page :: done) p rest (s :: texts) e); auto.
Qed.

Lemma pages_body_ok (text text' : string) (page : Page) :
  pages_body text page = Ok text' ↔ ∃ s, get_text page = Ok s ∧ text' = text +:+ s.
Proof.
  unfold pages_body. destruct (get_text page) as [s|e]; cbn.
  - split; [intros [= <-]; by eauto | by intros (? & [= <-] & ->)].
  - split; [done | by intros (? & ? & _)].
Qed.

Lemma pages_body_raise (text : string) (page : Page) (e : exn) :
  pages_body text page = Raise e ↔ get_text page = Raise e.
Proof. unfold pages_body. by destruct (get_text page). Qed.

(** Every state of a run is one of the three. *)
Lemma pages_steps_state (doc : list Page) (text : string) (n : nat)
    (c : @config Page string) :
  nsteps (for_step pages_body) n (Iterating doc text) c → pages_state text doc n c.
Proof.
  revert text n. induction doc as [|page doc IH]; intros text n Hsteps;
    (inv Hsteps; [apply pages_state_start|]);
    match goal with Hstep : for_step _ _ _ |- _ => inv Hstep end.
  - match goal with Hrest : nsteps _ _ _ _ |- _ =>
      apply (final_steps _ (Ok text)) in Hrest as [-> ->] end.
    rewrite <- (string_app_nil_r text) at 2. by apply (pages_read text [] []).
  - match goal with Hb : pages_body _ _ = Ok _ |- _ =>
      apply pages_body_ok in Hb as (s & Hs & ->) end.
    by eapply pages_state_cons, IH.
  - match goal with Hrest : nsteps _ _ _ _, Hb : pages_body _ _ = Raise _ |- _ =>
      apply (final_steps _ (Raise e)) in Hrest as [-> ->];
      apply pages_body_raise in Hb end.
    by apply (pages_failed text _ [] page doc []).
Qed.

(** The pages that give their text are read in one step each. *)
Lemma pages_steps (done rest : list Page) (texts : list string) (text : string) :
  mapM get_text done = Ok texts →
  nsteps (for_step pages_body) (length done) (Iterating (done ++ rest) text)
    (Iterating rest (text +:+ foldr String.append "" texts)).
Proof.
  revert text texts. induction done as [|page done IH]; intros text texts.
  - intros [= <-]. cbn. rewrite string_app_nil_r. constructor.
  - intros (s & texts' & Hs & Hd & ->)%mapM_result_cons.
    eapply nsteps_l; [apply for_next, pages_body_ok; by eauto|].
    cbn [foldr]. rewrite <- string_app_assoc. by apply IH.
Qed.

(** C26: the states of the loop over the pages.  Run step by step on the
    pages of a document, with [text] read so far, the [for] statement is
    in the state [c] after [n] steps exactly when: it has read the first
    [n] pages without exception and [c] holds the pages that remain and
    [text] followed by the texts of those pages in order; or it has read
    all the pages, [n] is their number plus one and [c] is the exit with
    the whole text; or the page after the first [n - 1] has raised and [c]
    is that exception, the text read so far being lost. *)
Theorem read_pages_run (doc : list Page) (text : string) (n : nat)
    (c : @config Page string) :
  nsteps (for_step pages_body) n (Iterating doc text) c ↔ pages_state text doc n c.
Proof.
  split; [apply pages_steps_state|].
  destruct 1 as [done rest texts -> Hd|texts Hd|done page rest texts e -> Hd He].
  - by apply pages_steps.
  - eapply nsteps_r; [|apply for_stop].
    rewrite <- (app_nil_r doc) at 2. by apply pages_steps.
  - eapply nsteps_r; [by apply pages_steps|]. by apply for_raise, pages_body_raise.
Qed.

(** No run of the loop is longer than the number of pages plus one, and
    a run of that length has read every page. *)
Lemma read_pages_steps_bound (doc : list Page) (text : string) (n : nat)
    (c : @config Page string) :
  nsteps (for_step pages_body) n (Iterating doc text) c → n ≤ S (length doc).
Proof.
  intros Hstate%pages_steps_state.
  destruct Hstate as [done rest texts -> _|texts _|done page rest texts e -> _ _];
    rewrite ?length_app; cbn [length]; lia.
Qed.

(** C38: [extract_text_from_pdf] on every path.  When the upload is read,
    opened and every page gives its text, it returns the texts of the
    pages, concatenated in order, and shows nothing.  When one of these
    calls raises, the first exception decides: one that derives from
    [Exception] is shown as an error with its message and the empty text
    is returned; any other one ends the run, and nothing is shown.
    Without an upload the empty text is returned. *)
Theorem extract_text_from_pdf_spec (upload : option UploadedFile) :
  extract_text_from_pdf upload =
  match upload with
  | Some file =>
      match page_texts file with
      | Ok texts => ([], Ok (foldr String.append "" texts))
      | Raise e => if is_Exception e then ([read_error e], Ok "") else ([], Raise e)
      end
  | None => ([], Ok "")
  end.
Proof.
  rewrite extract_text_from_pdf_eq. destruct upload as [file|]; [|done].
  rewrite read_pages_spec. by destruct (page_texts file).
Qed.

(** ** The script *)

(** C35: when the checker runs and returns, the script shows the widgets,
    the matching score, the final score out of 100 and then either the
    heading and the feedback, line by line, or the message that the resume
    matches well; the run ends normally. *)
Theorem app_report (w : widgets) (file : UploadedFile) (text : string)
    (similarity_score : R) (final_score : nat) (feedback : list string) :
  runs_checker w file text →
  ats_resume_checker text (job_description w)
    = Ok (similarity_score, final_score, feedback) →
  app w = (widgets_shown ++ report_shown similarity_score final_score feedback, Ok tt).
Proof. intros Hr Hrun. by rewrite app_eq, (case_of_runs w file text Hr), Hrun. Qed.

(** The run of the checker in the script ends with an exception exactly
    when both texts normalize to a text without a term. *)
Lemma app_runs_raises (w : widgets) (file : UploadedFile) (text : string) (e : exn) :
  runs_checker w file text →
  (outcome (case_of w)).2 = Raise e ↔
  e = empty_vocabulary ∧ sk_tokenize (preprocess_text text) = [] ∧
  sk_tokenize (preprocess_text (job_description w)) = [].
Proof.
  intros Hr. rewrite (case_of_runs w file text Hr).
  pose proof (ats_resume_checker_dec text (job_description w)) as Hdec.
  destruct (ats_resume_checker _ _) as [[[s n] fb]|e']; cbn.
  - split; [done | tauto].
  - destruct Hdec as (-> & ? & ?). split; [by intros [= <-] | by intros (-> & _)].
Qed.

(** C36: a run of the script ends with an exception in two cases only.
    The checker runs on an extracted text and a job description that both
    normalize to a text without a term: the exception is the vectorizer's
    [ValueError], and nothing catches it.  Or reading the upload raises an
    exception that does not derive from [Exception]: the handler lets it
    pass. *)
Theorem app_raises (w : widgets) (e : exn) :
  (app w).2 = Raise e ↔
  (∃ file text, runs_checker w file text ∧ e = empty_vocabulary ∧
     sk_tokenize (preprocess_text text) = [] ∧
     sk_tokenize (preprocess_text (job_description w)) = []) ∨
  (∃ file, passes_on w file e).
Proof.
  rewrite app_eq. split.
  - destruct (case_of_cases w)
      as [(file & text & Hr)|[(file & e' & Hp)|(shown & -> & _)]]; [..|done].
    + intros He%(app_runs_raises w file text); [|done]. left. by exists file, text.
    + rewrite (case_of_passes w file e' Hp). intros [= <-]. right. by exists file.
  - intros [(file & text & Hr & He)|(file & ->%case_of_passes)]; [|done].
    by apply (app_runs_raises w file text).
Qed.

(** Nothing is written unless the checker ran and returned: when the
    button was not pressed, an input is missing, the upload cannot be read
    or has no text, or the checker fails, the page shows no score and no
    feedback. *)
Theorem app_writes_need_text (w : widgets) (body : string) :
  Write body ∈ (app w).1 →
  ∃ file text r, runs_checker w file text ∧
    ats_resume_checker text (job_description w) = Ok r.
Proof.
  intros (file & text & s & n & fb & Hr & Hrun & _)%app_write_inv.
  by exists file, text, (s, n, fb).
Qed.

(** C22: what the matching score on the page says of the similarity.  The
    first line that a report writes is the matching score, in fixed-point
    notation with two decimals and a percent sign.  The number reads back
    as a number of hundredths between 0.00 and 100.00, at most half a
    hundredth from the similarity; so 0.00 is shown for every similarity
    up to 0.005, and 100.00 for every similarity from 99.995. *)
Theorem app_matching_score (w : widgets) (file : UploadedFile) (text : string)
    (similarity_score : R) (final_score : nat) (feedback : list string) :
  runs_checker w file text →
  ats_resume_checker text (job_description w)
    = Ok (similarity_score, final_score, feedback) →
  ∃ shown rest h,
    (app w).1 = widgets_shown ++ Write ("Matching Score: " +:+ shown +:+ "%") :: rest ∧
    read_2f shown = Some h ∧ (0 ≤ h ≤ 10000)%Z ∧
    (Rabs (similarity_score - IZR h / 100) <= 1 / 200)%R ∧
    (shown = "0.00" ↔ (similarity_score <= 1 / 200)%R) ∧
    (shown = "100.00" ↔ (99995 / 1000 <= similarity_score)%R).
Proof.
  intros Hr Hrun. pose proof (ats_resume_checker_similarity _ _ _ _ _ Hrun) as Hs.
  rewrite app_eq, (case_of_runs w file text Hr), Hrun. cbn [outcome fst].
  eexists (format_2f similarity_score), _, _.
  rewrite format_2f_0_iff, format_2f_100_iff.
  split_and!; [done | apply format_2f_read_back | apply hundredths_percent..
              | apply hundredths_error | split; lra | split; lra]; done.
Qed.

(** No line of a report with feedback is the closing message: the lines
    start with other characters. *)
Lemma matches_well_feedback (similarity_score : R) (final_score : nat)
    (feedback : list string) :
  feedback ≠ [] → Forall (starts_in feedback_heads) feedback →
  matches_well ∉ widgets_shown ++ report_shown similarity_score final_score feedback.
Proof.
  intros Hne Hfb [Hin|Hin]%elem_of_app; [by apply widgets_shown_no_write in Hin|].
  destruct feedback as [|line rest]; [done|].
  change (matches_well ∈ Write <$>
    ("Matching Score: " +:+ (format_2f similarity_score +:+ "%"))
    :: ("Final Resume Score: " +:+ (pretty final_score +:+ "/100"))
    :: "Detailed suggestions to improve your resume:" :: line :: rest) in Hin.
  apply list_elem_of_fmap in Hin as (body & [= <-] & Hbody).
  assert (¬ starts_in ("F" :: "D" :: feedback_heads)%char
            "Your resume matches well with the job description!") as Hn
    by by_compute.
  apply Hn. eapply (proj1 (Forall_forall _ _)); [|exact Hbody].
  do 2 (constructor; [apply starts_in_app; by_compute|]).
  constructor; [by_compute|]. eapply Forall_starts_in_mono; [|done]. by_compute.
Qed.

(** C40: the closing message and the score out of 100.  The script writes
    that the resume matches the job description well exactly when the
    feedback is empty, which is exactly when the final score is 120 and no
    keyword of the job description is missing from the resume; the
    matching score plays no part.  The page then shows the final score as
    120 out of 100. *)
Theorem app_matches_well (w : widgets) (file : UploadedFile) (text : string)
    (similarity_score : R) (final_score : nat) (feedback : list string) :
  runs_checker w file text →
  ats_resume_checker text (job_description w)
    = Ok (similarity_score, final_score, feedback) →
  (matches_well ∈ (app w).1 ↔ feedback = []) ∧
  (feedback = [] ↔
   final_score = 120 ∧ missing_keywords text (job_description w) = ∅) ∧
  (feedback = [] →
   app w =
   (widgets_shown ++
      [ Write ("Matching Score: " +:+ format_2f similarity_score +:+ "%");
        Write "Final Resume Score: 120/100"; matches_well ], Ok tt)).
Proof.
  intros Hr Hrun.
  pose proof (ats_resume_checker_no_feedback _ _ _ _ _ Hrun) as Hnil.
  pose proof (ats_resume_checker_feedback_starts _ _ _ _ _ Hrun) as Hfb.
  rewrite app_eq, (case_of_runs w file text Hr), Hrun. cbn [outcome fst].
  split_and!; [split | done | intros ->; by destruct Hnil as [[-> _] _]].
  - intros Hin. destruct (decide (feedback = [])) as [|Hne]; [done|].
    by destruct (matches_well_feedback similarity_score final_score feedback).
  - intros ->. unfold report_shown. rewrite !elem_of_app. right. right.
    apply list_elem_of_here.
Qed.

End lemmas.

(** ** Concrete runs *)

(** A PDF library for plain text: an upload is its bytes, and a document
    has one page, the text after the four bytes of the header. *)
Definition text_pdf : PDF := {|
  UploadedFile := string;
  Page := string;
  read file := Ok file;
  pymupdf_open pdf_bytes :=
    if String.prefix "%PDF" pdf_bytes
    then Ok [String.substring 4 (String.length pdf_bytes - 4) pdf_bytes]
    else Raise (Exn "FileDataError" "Failed to open stream");
  get_text page := Ok page
|}.

(** The script with the word-splitting language model without lexicon, the
    sorted enumeration of sets and the plain-text PDF library. *)
Definition run_app : @widgets text_pdf → ui unit :=
  @app (lexicon_nlp []) elements_order text_pdf.

Definition upload (text : string) : option (@UploadedFile text_pdf) :=
  Some ("%PDF" +:+ text).

(** A resume with every section and a certification, for a manager. *)
Definition full_run : @widgets text_pdf := Widgets text_pdf (upload full_resume) "manager" true.

(** The same resume, against a job description without a word. *)
Definition silent_run : @widgets text_pdf := Widgets text_pdf (upload full_resume) "2024" true.

(** Dates against figures. *)
Definition digits_run : @widgets text_pdf := Widgets text_pdf (upload "2021 - 2024") "42 %" true.

(** An upload that is no PDF. *)
Definition broken_run : @widgets text_pdf := Widgets text_pdf (Some "GIF89a") "manager" true.

Lemma full_resume_silent :
  @ats_resume_checker (lexicon_nlp []) elements_order full_resume "2024"
  = Ok (0%R, 120, []).
Proof.
  rewrite ats_resume_checker_eq.
  assert (calculate_similarity_tfidf
            (@preprocess_text (lexicon_nlp []) full_resume)
            (@preprocess_text (lexicon_nlp []) "2024") = Ok 0%R) as ->
    by no_common_term.
  cbn [fmap result_fmap result_map]. do 2 f_equal; by vm_compute.
Qed.

Lemma full_run_shown :
  run_app full_run =
  (widgets_shown ++
     [ Write "Matching Score: 0.00%"; Write "Final Resume Score: 120/100";
       Write "Detailed suggestions to improve your resume:";
       Write suggestions_header; Write "  - manager"; Write suggestions_footer ],
   Ok tt).
Proof.
  unfold run_app. rewrite app_eq.
  rewrite (case_of_runs full_run ("%PDF" +:+ full_resume) full_resume)
    by (split_and!; by vm_compute).
  cbn [job_description full_run]. rewrite full_resume_run.
  unfold outcome, report_shown. by rewrite format_2f_0.
Qed.

(** An upload that cannot be opened is reported twice: by
    [extract_text_from_pdf], with the message of the exception, and by the
    script, which sees an empty text. *)
Lemma broken_run_shown :
  run_app broken_run =
  (widgets_shown ++
     [ Error "Error: Unable to read the uploaded file. Failed to open stream";
       unreadable ], Ok tt).
Proof. by vm_compute. Qed.

(** A document of three pages whose second page cannot be read: the loop
    stops at the exception, after two steps. *)
Definition torn_pdf : PDF := {|
  UploadedFile := string;
  Page := option string;
  read file := Ok file;
  pymupdf_open pdf_bytes := Ok [Some pdf_bytes; None; Some pdf_bytes];
  get_text page :=
    match page with
    | Some text => Ok text
    | None => Raise (Exn "RuntimeError" "page is damaged")
    end
|}.

Lemma read_pages_run_witness :
  nsteps (for_step (@pages_body torn_pdf)) 2
    (Iterating [Some "Skills"; None; Some "Skills"] "")
    (Raised (Exn "RuntimeError" "page is damaged")).
Proof.
  apply (@read_pages_run torn_pdf).
  by apply (@pages_failed torn_pdf "" _ [Some "Skills"] None [Some "Skills"] ["Skills"]).
Defined.

(** The first line of the report for two texts that the normalizer leaves
    as they are: the similarity of the texts, as [format_2f] writes it. *)
Lemma run_app_score (text job : string) (score : R) :
  @runs_checker text_pdf (Widgets text_pdf (upload text) job true)
    ("%PDF" +:+ text) text →
  @preprocess_text (lexicon_nlp []) text = text →
  @preprocess_text (lexicon_nlp []) job = job →
  calculate_similarity_tfidf text job = Ok score →
  ∃ final_score feedback rest,
    @ats_resume_checker (lexicon_nlp []) elements_order text job
      = Ok (score, final_score, feedback) ∧
    (run_app (Widgets text_pdf (upload text) job true)).1
    = widgets_shown ++ Write ("Matching Score: " +:+ format_2f score +:+ "%") :: rest.
Proof.
  intros Hr Ht Hj Hs.
  assert (@ats_resume_checker (lexicon_nlp []) elements_order text job
          = Ok (score, @final_score (@breakdown_of (lexicon_nlp []) text),
                @feedback_of_run (lexicon_nlp []) elements_order text job)) as Hrun
    by (rewrite ats_resume_checker_eq, Ht, Hj; by rewrite Hs).
  eexists _, _, _. split; [exact Hrun|]. unfold run_app.
  rewrite app_eq, (@case_of_runs (lexicon_nlp []) elements_order text_pdf _ _ _ Hr).
  cbn [job_description]. by rewrite Hrun.
Qed.

(** A resume that says "python" 201 times and "java" once, for the job
    description "python": the similarity is below 100 and the page shows
    100.00%. *)
Definition near_run : @widgets text_pdf := Widgets text_pdf (upload near_resume) "python" true.

Lemma near_run_shown :
  ∃ score final_score feedback rest,
    @ats_resume_checker (lexicon_nlp []) elements_order near_resume "python"
      = Ok (score, final_score, feedback) ∧
    (score < 100)%R ∧
    (run_app near_run).1 = widgets_shown ++ Write "Matching Score: 100.00%" :: rest.
Proof.
  destruct near_match as (score & Hs & Hlo & Hhi).
  destruct (run_app_score near_resume "python" score)
    as (final_score & feedback & rest & Hrun & Hshown);
    [split_and!; by_compute | by_compute.. | done |].
  exists score, final_score, feedback, rest. split_and!; [done..|].
  unfold near_run. rewrite Hshown, (proj2 (format_2f_100_iff score)) by lra. done.
Qed.

(** A resume and a job description that share the word "team" among 142
    other words each: the similarity is not 0 and the page shows 0.00%. *)
Definition far_run : @widgets text_pdf := Widgets text_pdf (upload far_resume) far_job true.

Lemma far_run_shown :
  ∃ score final_score feedback rest,
    @ats_resume_checker (lexicon_nlp []) elements_order far_resume far_job
      = Ok (score, final_score, feedback) ∧
    (0 < score)%R ∧
    (run_app far_run).1 = widgets_shown ++ Write "Matching Score: 0.00%" :: rest.
Proof.
  destruct far_match as (score & Hs & Hlo & Hhi).
  destruct (run_app_score far_resume far_job score)
    as (final_score & feedback & rest & Hrun & Hshown);
    [split_and!; by_compute | by_compute.. | done |].
  exists score, final_score, feedback, rest. split_and!; [done..|].
  unfold far_run. rewrite Hshown, (proj2 (format_2f_0_iff score)) by lra. done.
Qed.

(** The longest page: the four widgets, the two scores, the heading and 27
    lines of feedback. *)
Definition worst_run : @widgets text_pdf := Widgets text_pdf (upload worst_resume) worst_job true.

Lemma worst_run_shown : length (run_app worst_run).1 = 34.
Proof.
  destruct worst_resume_run as (feedback & Hrun & Hlen). unfold run_app.
  rewrite app_eq, (@case_of_runs (lexicon_nlp []) elements_order text_pdf worst_run
                     ("%PDF" +:+ worst_resume) worst_resume)
    by (split_and!; by_compute).
  cbn [job_description worst_run]. rewrite Hrun. cbn [outcome fst].
  by rewrite length_app, report_shown_length, Hlen.
Qed.

(** An upload whose reading is interrupted from the keyboard: the handler
    of [extract_text_from_pdf] does not see the interrupt. *)
Definition interrupted_pdf : PDF := {|
  UploadedFile := string;
  Page := string;
  read file := Raise (Exn "KeyboardInterrupt" "");
  pymupdf_open pdf_bytes := Ok [pdf_bytes];
  get_text page := Ok page
|}.

Lemma interrupted_run_shown :
  @app (lexicon_nlp []) elements_order interrupted_pdf
    (Widgets interrupted_pdf (Some "%PDF") "manager" true)
  = (widgets_shown, Raise (Exn "KeyboardInterrupt" "")).
Proof. by vm_compute. Qed.

Lemma app_report_witness :
  run_app full_run =
  (widgets_shown ++
     report_shown 0%R 120 [suggestions_header; "  - manager"; suggestions_footer],
   Ok tt).
Proof.
  apply (app_report full_run ("%PDF" +:+ full_resume) full_resume);
    [split_and!; by vm_compute | apply full_resume_run].
Defined.

Lemma app_raises_witness : (run_app digits_run).2 = Raise empty_vocabulary.
Proof.
  apply app_raises. left. exists ("%PDF" +:+ "2021 - 2024"), "2021 - 2024".
  split_and!; by vm_compute.
Defined.

Lemma app_writes_need_text_witness :
  ∃ file text r, runs_checker full_run file text ∧
    @ats_resume_checker (lexicon_nlp []) elements_order text "manager" = Ok r.
Proof.
  apply (@app_writes_need_text (lexicon_nlp []) elements_order text_pdf
           full_run "Final Resume Score: 120/100").
  fold run_app. rewrite full_run_shown. by_compute.
Defined.

Lemma app_matching_score_witness :
  ∃ shown rest h,
    (run_app full_run).1
      = widgets_shown ++ Write ("Matching Score: " +:+ shown +:+ "%") :: rest ∧
    read_2f shown = Some h ∧ (0 ≤ h ≤ 10000)%Z ∧
    (Rabs (0 - IZR h / 100) <= 1 / 200)%R ∧
    (shown = "0.00" ↔ (0 <= 1 / 200)%R) ∧
    (shown = "100.00" ↔ (99995 / 1000 <= 0)%R).
Proof.
  apply (app_matching_score full_run ("%PDF" +:+ full_resume) full_resume 0%R 120
           [suggestions_header; "  - manager"; suggestions_footer]);
    [split_and!; by vm_compute | apply full_resume_run].
Defined.

Lemma app_matches_well_witness :
  (matches_well ∈ (run_app silent_run).1 ↔ @nil string = []) ∧
  (@nil string = [] ↔
   120 = 120 ∧ @missing_keywords (lexicon_nlp []) full_resume "2024" = ∅) ∧
  (@nil string = [] →
   run_app silent_run =
   (widgets_shown ++
      [ Write ("Matching Score: " +:+ format_2f 0 +:+ "%");
        Write "Final Resume Score: 120/100"; matches_well ], Ok tt)).
Proof.
  apply (@app_matches_well (lexicon_nlp []) elements_order text_pdf
           silent_run ("%PDF" +:+ full_resume) full_resume 0%R 120 []);
    [split_and!; by vm_compute | apply full_resume_silent].
Defined.

End App.
