(* ===== verification/Session.v ===== *)
(** * Session: the script under Streamlit's reruns

    Streamlit runs the script of [src/app.py] (l.137-160) once when the page
    is opened and once more each time the user acts on a widget.  Between
    two runs the framework keeps what the widgets hold: the uploaded file
    and the text of the job description.  The button holds nothing: it is
    true in the run that its click starts and false in every other run.
    What the page shows after a run is what that run has shown; an
    exception that nothing catches ends the run and leaves the elements
    shown before it on the page.

    A session is modelled as a transition system.  Its state is what the
    widgets hold together with the page that the last run left; a step is
    an interaction with a widget that the page shows, followed by a run of
    [app] on the new values.

    The theorems: the reachable states are exactly the runs of the script
    ([reachable_iff]), so a score on the page is never the score of an
    earlier upload or job description; every interaction is possible in
    every reachable state, also after a run that ended with an exception;
    from every reachable state three interactions lead to the report; and
    a resume that says what the job description says is shown the
    matching score 100.00%, through every component
    ([session_same_text]). *)

From Stdlib Require Import Ascii String Reals.
From stdpp Require Import base tactics option list strings relations.
From S2P Require Import Prelude PyStr Structure Certification Nlp Grammar Keywords Normalizer Similarity Evaluator Format App.

Module Session.
Import PyStr Structure Certification Nlp Grammar Keywords Normalizer Similarity Evaluator Format App.

Section session.
Context `{NLP} `{SetOrder} `{PDF}.

(** ** The transition system *)

(** What the user can do on the page. *)
Inductive interaction : Type :=
| Upload (file : UploadedFile)
| Remove
| Enter (text : string)
| Click.

(** What the widgets hold, and the page that the last run left: the
    elements shown and how the run ended. *)
Record session : Type := Session {
  held_file : option UploadedFile;
  held_text : string;
  page : ui unit
}.

(** A run of the script on the values the widgets hold. *)
Definition rerun (file : option UploadedFile) (text : string) (pressed : bool)
    : session :=
  Session file text (app (Widgets _ file text pressed)).

(** Opening the page: no file, no text, the button not pressed. *)
Definition initial : session := rerun None "" false.

(** The widget on which an interaction acts. *)
Definition widget_of (i : interaction) : event :=
  match i with
  | Upload _ | Remove => FileUploader "Upload your resume (PDF)" ["pdf"]
  | Enter _ => TextArea "Enter Job Description"
  | Click => Button "Analyze Resume"
  end.

(** The run that an interaction starts. *)
Definition react (s : session) (i : interaction) : session :=
  match i with
  | Upload file => rerun (Some file) (held_text s) false
  | Remove => rerun None (held_text s) false
  | Enter text => rerun (held_file s) text false
  | Click => rerun (held_file s) (held_text s) true
  end.

(** A step of the session: the user acts on a widget that is on the page. *)
Inductive step : relation session :=
| step_react s i : widget_of i ∈ (page s).1 → step s (react s i).

Definition reachable (s : session) : Prop := rtc step initial s.

(** The state after a list of interactions. *)
Definition interact (s : session) (acts : list interaction) : session :=
  foldl react s acts.

(** ** Reference definitions *)

(** The page is the page of the script on what the widgets hold. *)
Definition consistent (s : session) : Prop :=
  ∃ pressed, page s = app (Widgets _ (held_file s) (held_text s) pressed).

(** The page shows the report of a run of the checker. *)
Definition shows_report (s : session) (similarity_score : R) (final_score : nat)
    (feedback : list string) : Prop :=
  page s = (widgets_shown ++ report_shown similarity_score final_score feedback, Ok tt).

(** ** The invariant *)

Lemma widget_shown (i : interaction) (w : widgets) : widget_of i ∈ (app w).1.
Proof.
  destruct (app_shows_widgets w) as [rest ->]. apply elem_of_app. left.
  destruct i; by_compute.
Qed.

Lemma react_consistent (s : session) (i : interaction) : consistent (react s i).
Proof. destruct i; by eexists. Qed.

Lemma step_consistent (s s' : session) : step s s' → consistent s'.
Proof. destruct 1. apply react_consistent. Qed.

Lemma reachable_consistent (s : session) : reachable s → consistent s.
Proof.
  intros [<-|(s' & _ & Hstep)]%rtc_inv_r; [by exists false | by eapply step_consistent].
Qed.

(** On a consistent page every widget is shown: every interaction is a
    step. *)
Lemma consistent_step (s : session) (i : interaction) :
  consistent s → step s (react s i).
Proof. intros [pressed Hp]. constructor. rewrite Hp. apply widget_shown. Qed.

Lemma reachable_step (s s' : session) : reachable s → step s s' → reachable s'.
Proof. intros Hs Hstep. by eapply rtc_r. Qed.

Lemma interact_reachable (s : session) (acts : list interaction) :
  reachable s → reachable (interact s acts).
Proof.
  revert s. induction acts as [|i acts IH]; intros s Hs; [done|].
  apply IH. eapply reachable_step; [done|]. by apply consistent_step, reachable_consistent.
Qed.

Lemma interact_steps (s : session) (acts : list interaction) :
  reachable s → nsteps step (length acts) s (interact s acts).
Proof.
  revert s. induction acts as [|i acts IH]; intros s Hs; [constructor|].
  assert (step s (react s i)) as Hstep by by apply consistent_step, reachable_consistent.
  eapply nsteps_l; [done|]. apply IH. by eapply reachable_step.
Qed.

(** Only a click leaves more than the widgets on the page. *)
Lemma react_idle (s : session) (i : interaction) :
  i ≠ Click → page (react s i) = (widgets_shown, Ok tt).
Proof. by destruct i. Qed.

(** A click on a readable upload and a job description shows the report
    of the checker, when the checker returns. *)
Lemma click_report (s : session) (file : UploadedFile) (text : string)
    (similarity_score : R) (final_score : nat) (feedback : list string) :
  held_file s = Some file → read_pages file = Ok text → text ≠ "" →
  held_text s ≠ "" →
  ats_resume_checker text (held_text s) = Ok (similarity_score, final_score, feedback) →
  shows_report (react s Click) similarity_score final_score feedback.
Proof.
  intros Hfile Hread Htext Hjob Hrun. unfold shows_report. cbn [react rerun page].
  rewrite app_eq, (case_of_runs _ file text) by done. cbn [job_description].
  by rewrite Hrun.
Qed.

(** Every run of the script is the state of a session: the reachable
    states are exactly the runs on a file or none, a text, and the button
    pressed or not. *)
Lemma rerun_reachable (file : option UploadedFile) (text : string) (pressed : bool) :
  reachable (rerun file text pressed).
Proof.
  pose (load := match file with Some f => Upload f | None => Remove end).
  assert (interact initial [load; Enter text] = rerun file text false) as Hidle
    by by destruct file.
  destruct pressed.
  - change (rerun file text true) with (react (rerun file text false) Click).
    rewrite <- Hidle. apply (interact_reachable initial [load; Enter text; Click]).
    constructor.
  - rewrite <- Hidle. apply interact_reachable. constructor.
Qed.

Lemma reachable_iff (s : session) :
  reachable s ↔ ∃ file text pressed, s = rerun file text pressed.
Proof.
  split; [|intros (file & text & pressed & ->); apply rerun_reachable].
  intros [pressed Hp]%reachable_consistent.
  exists (held_file s), (held_text s), pressed. destruct s. cbn in Hp. by rewrite Hp.
Qed.

(** The page of a reachable state starts with the four widgets and holds
    at most 34 elements, however long the session has lasted. *)
Lemma session_page_length (s : session) :
  reachable s → widgets_shown `prefix_of` (page s).1 ∧ length (page s).1 ≤ 34.
Proof.
  intros [pressed ->]%reachable_consistent.
  split; [apply app_shows_widgets | apply app_shown_length].
Qed.

(** C30: in every reachable state of a session the page is up to date.
    Whatever the user did before, a score or a line of feedback on the page
    comes from the run of the checker on the text of the file that is
    uploaded now and the job description that is entered now, and the page
    is the report of that run: no score of an earlier upload or of an
    earlier job description stays on the page. *)
Theorem session_page_fresh (s : session) (body : string) :
  reachable s → Write body ∈ (page s).1 →
  ∃ file text similarity_score final_score feedback,
    held_file s = Some file ∧ read_pages file = Ok text ∧
    ats_resume_checker text (held_text s)
      = Ok (similarity_score, final_score, feedback) ∧
    shows_report s similarity_score final_score feedback.
Proof.
  intros [pressed Hp]%reachable_consistent. unfold shows_report. rewrite Hp.
  intros (file & text & sim & n & fb & (_ & Hf & _ & Hr & _) & Hrun & Happ)%app_write_inv.
  by exists file, text, sim, n, fb.
Qed.

(** C31: a session never gets stuck, and the report stays within reach.
    In every reachable state, also one whose run ended with an exception,
    every interaction is possible; and uploading a file that gives a text,
    entering a job description and pressing the button lead, in three
    steps, to the page that shows the report of the checker on them. *)
Theorem report_reachable (s : session) (file : UploadedFile) (text job : string)
    (similarity_score : R) (final_score : nat) (feedback : list string) :
  reachable s →
  read_pages file = Ok text → text ≠ "" → job ≠ "" →
  ats_resume_checker text job = Ok (similarity_score, final_score, feedback) →
  (∀ i, step s (react s i)) ∧
  let s' := interact s [Upload file; Enter job; Click] in
  nsteps step 3 s s' ∧ reachable s' ∧
  shows_report s' similarity_score final_score feedback.
Proof.
  intros Hs Hread Htext Hjob Hrun.
  split; [intros i; by apply consistent_step, reachable_consistent|].
  split_and!; [by apply (interact_steps s [_; _; _]) | by apply interact_reachable|].
  by apply (click_report _ file text).
Qed.

(** C14: a resume that says what the job description says, end to end.
    From every reachable state, uploading a file whose text is the job
    description up to case and has a term, entering the job description
    and pressing the button, in this order, are three steps that lead to a
    page that shows the matching score 100.00%, the final score of the resume and the feedback
    of the three analyzers, without keyword suggestions. *)
Theorem session_same_text (s : session) (file : UploadedFile) (text job : string) :
  reachable s → read_pages file = Ok text → text ≠ "" → caseless text job →
  sk_tokenize (preprocess_text text) ≠ [] →
  let s' := interact s [Upload file; Enter job; Click] in
  nsteps step 3 s s' ∧
  shows_report s' 100 (final_score (breakdown_of text))
    ((analyze_resume_structure text).2 ++ (analyze_certifications text).2
     ++ (analyze_grammar text).2) ∧
  Write "Matching Score: 100.00%" ∈ (page s').1.
Proof.
  intros Hs Hread Htext Hcase Hterm. cbv zeta.
  assert (job ≠ "") as Hjob.
  { intros ->. by apply Htext, lower_eq_nil. }
  assert (shows_report (interact s [Upload file; Enter job; Click]) 100
            (final_score (breakdown_of text))
            ((analyze_resume_structure text).2 ++ (analyze_certifications text).2
             ++ (analyze_grammar text).2)) as Hshown
    by by apply (click_report _ file text), same_text_run.
  split_and!; [by apply (interact_steps s [_; _; _]) | done |].
  rewrite Hshown. unfold report_shown. rewrite format_2f_100.
  apply elem_of_app. right. apply list_elem_of_here.
Qed.

End session.

(** ** Concrete sessions *)

(** The language model, the enumeration of sets and the PDF library of the
    concrete runs of [App]. *)
#[local] Instance demo_nlp : NLP := lexicon_nlp [].
#[local] Instance demo_order : SetOrder := elements_order.
#[local] Instance demo_pdf : PDF := text_pdf.

(** The user uploads the resume with every section, enters a job
    description and presses the button. *)
Definition manager_session : session :=
  interact initial [@Upload text_pdf ("%PDF" +:+ full_resume); Enter "manager"; Click].

(** The user uploads dates, enters figures and presses the button. *)
Definition digits_session : session :=
  interact initial [@Upload text_pdf ("%PDF" +:+ "2021 - 2024"); Enter "42 %"; Click].

(** That run ends with the exception of the vectorizer, after the
    widgets were shown. *)
Lemma digits_session_crashed :
  page digits_session = (widgets_shown, Raise empty_vocabulary).
Proof. by vm_compute. Qed.

Lemma session_page_fresh_witness :
  ∃ file text similarity_score final_score feedback,
    held_file manager_session = Some file ∧ read_pages file = Ok text ∧
    ats_resume_checker text (held_text manager_session)
      = Ok (similarity_score, final_score, feedback) ∧
    shows_report manager_session similarity_score final_score feedback.
Proof.
  apply (session_page_fresh manager_session "Final Resume Score: 120/100").
  - apply interact_reachable. constructor.
  - change (page manager_session) with (run_app full_run).
    rewrite full_run_shown. by_compute.
Defined.

(** The job description "python developer" against a resume that says
    "Python Developer". *)
Lemma session_same_text_witness :
  let s' := interact initial [@Upload text_pdf ("%PDF" +:+ "Python Developer");
                              Enter "python developer"; Click] in
  nsteps step 3 initial s' ∧
  shows_report s' 100 (final_score (breakdown_of "Python Developer"))
    ((analyze_resume_structure "Python Developer").2
     ++ (analyze_certifications "Python Developer").2
     ++ (analyze_grammar "Python Developer").2) ∧
  Write "Matching Score: 100.00%" ∈ (page s').1.
Proof.
  apply (@session_same_text demo_nlp demo_order text_pdf initial
           ("%PDF" +:+ "Python Developer") "Python Developer" "python developer");
    [constructor | by vm_compute..].
Defined.

Lemma report_reachable_witness :
  (∀ i, step digits_session (react digits_session i)) ∧
  let s' := interact digits_session
              [@Upload text_pdf ("%PDF" +:+ full_resume); Enter "manager"; Click] in
  nsteps step 3 digits_session s' ∧ reachable s' ∧
  shows_report s' 0%R 120 [suggestions_header; "  - manager"; suggestions_footer].
Proof.
  apply (report_reachable digits_session ("%PDF" +:+ full_resume) full_resume "manager");
    [apply interact_reachable; constructor | by vm_compute.. | apply full_resume_run].
Defined.

End Session.
